(** * fledermaus: the document pipeline of [src/core.js]

    A shallow embedding of the functions of [src/core.js] (URL derivation,
    custom field parsing, page parsing, config merging, the
    filter/order/group query layer and the paginator) and of the parts of
    JavaScript, lodash and [./util] they rely on, followed by the properties
    of the pipeline. *)

From Stdlib Require Import ZArith Lia Ascii List Permutation.
From Stdlib Require String.
From stdpp Require Import base option list strings pretty gmap.

Set Warnings "-register-all".

Local Open Scope Z_scope.

(** ** JavaScript values, strings and exceptions *)

Module Js.

(** Plain data as front matter and YAML produce it.  Numbers are the
    integer-valued ones, printed in decimal; an object keeps its properties
    in insertion order (the place JavaScript gives to integer-like keys is
    not modelled: no property below depends on the order of the keys). *)
Inductive value : Type :=
| VUndefined
| VNull
| VBool (b : bool)
| VNum (n : Z)
| VStr (s : string)
| VArr (items : list value)
| VObj (props : list (string * value)).

(** An object literal: own enumerable properties, in insertion order. *)
Definition object (A : Type) := list (string * A).

(** An [Error] object: its [name] and its [message]. *)
Record exn := mkExn { exn_name : string; exn_message : string }.

Definition Error (message : string) : exn := mkExn "Error" message.
Definition TypeError (message : string) : exn := mkExn "TypeError" message.

(** A call either throws or returns. *)
Inductive result (A : Type) : Type :=
| Throw (e : exn)
| Return (a : A).
Arguments Throw {A} e.
Arguments Return {A} a.

#[global] Instance result_ret : MRet result := fun A a => Return a.

#[global] Instance result_bind : MBind result := fun A B k r =>
  match r with
  | Throw e => Throw e
  | Return a => k a
  end.

#[global] Instance result_fmap : FMap result := fun A B f r =>
  match r with
  | Throw e => Throw e
  | Return a => Return (f a)
  end.

(** [o[k]] for an own property, as an option. *)
Fixpoint ownProp {A} (o : object A) (k : string) : option A :=
  match o with
  | [] => None
  | (k', v) :: o' => if String.eqb k' k then Some v else ownProp o' k
  end.

(** [k in o], for own properties. *)
Definition hasOwn {A} (o : object A) (k : string) : bool :=
  match ownProp o k with Some _ => true | None => false end.

(** [o[k]]: a missing property reads as [undefined]. *)
Definition getProp (o : object value) (k : string) : value :=
  match ownProp o k with Some v => v | None => VUndefined end.

(** [o[k] = v]: an existing property keeps its place, a new one goes
    last. *)
Fixpoint setProp {A} (o : object A) (k : string) (v : A) : object A :=
  match o with
  | [] => [(k, v)]
  | (k', v') :: o' =>
      if String.eqb k' k then (k, v) :: o' else (k', v') :: setProp o' k v
  end.

(** [Object.keys(o)]. *)
Definition ownKeys {A} (o : object A) : list string := map fst o.

(** [s.endsWith(suffix)], returning what comes before the suffix. *)
Fixpoint stripSuffix (suffix s : string) : option string :=
  if String.eqb s suffix then Some ""
  else match s with
       | "" => None
       | String c s' => option_map (String c) (stripSuffix suffix s')
       end.

(** [s.startsWith(p)]. *)
Fixpoint startsWith (p s : string) : bool :=
  match p, s with
  | "", _ => true
  | String a p', String b s' => Ascii.eqb a b && startsWith p' s'
  | String _ _, "" => false
  end.

(** The pieces of [s] between the occurrences of a non-empty separator,
    found from left to right without overlap: the piece being read and
    the pieces after it.  [skip] counts the characters of a separator
    just matched that are still to be passed over. *)
Fixpoint splitFrom (sep : string) (skip : nat) (s : string)
  : string * list string :=
  match s with
  | "" => ("", [])
  | String c s' =>
      match skip with
      | S k => splitFrom sep k s'
      | O =>
          if startsWith sep s
          then let '(p, ps) := splitFrom sep (Nat.pred (String.length sep)) s' in
               ("", p :: ps)
          else let '(p, ps) := splitFrom sep O s' in
               (String c p, ps)
      end
  end.

(** [s.split(sep)] for a non-empty string separator. *)
Definition strSplit (s sep : string) : list string :=
  let '(p, ps) := splitFrom sep O s in p :: ps.

(** [String(v)]: the string coercion, also used for property keys and by
    [RegExp.prototype.test].  An array joins its elements with commas,
    [null] and [undefined] elements giving the empty string. *)
Fixpoint toString (v : value) : string :=
  match v with
  | VUndefined => "undefined"
  | VNull => "null"
  | VBool true => "true"
  | VBool false => "false"
  | VNum n => pretty n
  | VStr s => s
  | VArr items =>
      let item (x : value) : string :=
        match x with
        | VUndefined | VNull => ""
        | _ => toString x
        end in
      (fix join (xs : list value) : string :=
         match xs with
         | [] => ""
         | [x] => item x
         | x :: xs' => item x +:+ "," +:+ join xs'
         end) items
  | VObj _ => "[object Object]"
  end.

(** [a === b].  Objects and arrays are equal only to themselves, which a
    value read from a document and a value written in a criterion never
    are. *)
Definition strictEquals (a b : value) : bool :=
  match a, b with
  | VUndefined, VUndefined => true
  | VNull, VNull => true
  | VBool x, VBool y => Bool.eqb x y
  | VNum x, VNum y => Z.eqb x y
  | VStr x, VStr y => String.eqb x y
  | _, _ => false
  end.

(** The names every object inherits from [Object.prototype]. *)
Definition objectPrototypeKeys : list string :=
  [ "constructor"; "__defineGetter__"; "__defineSetter__"; "hasOwnProperty";
    "__lookupGetter__"; "__lookupSetter__"; "isPrototypeOf";
    "propertyIsEnumerable"; "toString"; "valueOf"; "__proto__";
    "toLocaleString" ].

Definition inherited (k : string) : bool :=
  existsb (String.eqb k) objectPrototypeKeys.

(** What [o[k]] reads on an object literal: plain data (an own property,
    or [undefined] when there is none under a name that is not inherited),
    or the member of [Object.prototype] of that name, which an own property
    would shadow. *)
Inductive reading : Type :=
| Data (v : value)
| Member (name : string).

(** [o[k]] *)
Definition readProp (o : object value) (k : string) : reading :=
  match ownProp o k with
  | Some v => Data v
  | None => if inherited k then Member k else Data VUndefined
  end.

(** [String(Object.prototype[name])], as Node prints it: the members are
    native functions, but for [__proto__], which reads [Object.prototype]
    itself. *)
Definition memberText (name : string) : string :=
  if String.eqb name "__proto__" then "[object Object]"
  else if String.eqb name "constructor"
       then "function Object() { [native code] }"
       else "function " +:+ name +:+ "() { [native code] }".

(** [String(o[k])] *)
Definition readToString (r : reading) : string :=
  match r with
  | Data v => toString v
  | Member name => memberText name
  end.

(** [o[k] === v] for plain data [v]: a member of [Object.prototype] is a
    function or an object, equal to no such value. *)
Definition readStrictEquals (r : reading) (v : value) : bool :=
  match r with
  | Data a => strictEquals a v
  | Member _ => false
  end.

(** A regular expression object.  [execFrom i s] is the match of the
    pattern in [s] when the matcher is started at index [i], as the index
    just after the match; [stateful] says that the expression has the [g]
    or the [y] flag, with which [test] starts at [lastIndex] and moves
    it. *)
Record regExp := {
  stateful : bool;
  lastIndex : nat;
  execFrom : nat -> string -> option nat
}.

(** The expression with another [lastIndex]. *)
Definition withLastIndex (r : regExp) (i : nat) : regExp :=
  {| stateful := stateful r; lastIndex := i; execFrom := execFrom r |}.

(** [r.test(s)]: the answer and the expression after the call.  Without
    the [g] and [y] flags the matcher starts at 0 and [lastIndex] plays no
    part. *)
Definition test (r : regExp) (s : string) : bool * regExp :=
  if stateful r then
    if (String.length s <? lastIndex r)%nat then (false, withLastIndex r 0)
    else match execFrom r (lastIndex r) s with
         | Some e => (true, withLastIndex r e)
         | None => (false, withLastIndex r 0)
         end
  else (match execFrom r 0 s with Some _ => true | None => false end, r).

(** [a.slice(b, e)]: negative indices count from the end. *)
Definition slice {A} (l : list A) (b e : Z) : list A :=
  let len := Z.of_nat (length l) in
  let norm (i : Z) := if (i <? 0)%Z then Z.max (len + i) 0 else Z.min i len in
  firstn (Z.to_nat (norm e - norm b)) (skipn (Z.to_nat (norm b)) l).

End Js.

(** ** lodash

    The functions of lodash the pipeline calls, as lodash 3 (the release
    that has [_.sortByOrder]) computes them on plain data. *)

Module Lodash.
Import Js.

(** [_.range(n)]: [0 .. n-1], empty when [n] is not positive. *)
Definition range (n : Z) : list Z := seqZ 0 n.

(** [_.isEmpty(o)] for an object. *)
Definition isEmpty {A} (o : object A) : bool :=
  match o with [] => true | _ :: _ => false end.

(** [a[i] = v] on an array: past the end the array grows, the gap reading
    as [undefined]. *)
Definition setIndex (a : list value) (i : nat) (v : value) : list value :=
  if (i <? length a)%nat then <[i:=v]> a
  else a ++ repeat VUndefined (i - length a) ++ [v].

(** The array a merge writes into when the source value is an array: the
    destination's own array, a copy of an array-like destination (a string,
    an object with a length), a new array otherwise. *)
Definition arrayToMergeInto (cur : option value) : list value :=
  match cur with
  | Some (VArr d) => d
  | Some (VStr s) => map (fun c => VStr (String c "")) (String.list_ascii_of_string s)
  | Some (VObj o) =>
      match getProp o "length" with
      | VNum n =>
          if ((0 <=? n) && (n <=? 9007199254740991))%Z
          then map (fun i => getProp o (pretty i)) (range n)
          else []
      | _ => []
      end
  | _ => []
  end.

(** One step of [baseMerge]: what [object[key]] becomes when the source
    holds [srcValue] under [key] and the destination holds [cur] ([None]
    when [key] is not in the destination); [None] when nothing is
    assigned.  Arrays merge index by index, plain objects key by key, any
    other defined value replaces the destination's, and [undefined] is
    skipped (except to fill a new index of an array). *)
Fixpoint baseMergeAt (cur : option value) (isSrcArr : bool) (srcValue : value)
  : option value :=
  match srcValue with
  | VObj props =>
      Some (VObj
        (fold_left
           (fun (o : object value) (p : string * value) =>
              let '(key, v) := p in
              match baseMergeAt (ownProp o key) false v with
              | Some r => setProp o key r
              | None => o
              end)
           props
           (match cur with Some (VObj d) => d | _ => [] end)))
  | VArr items =>
      Some (VArr
        (snd (fold_left
           (fun (ia : nat * list value) (v : value) =>
              let '(i, a) := ia in
              (S i, match baseMergeAt (a !! i) true v with
                    | Some r => setIndex a i r
                    | None => a
                    end))
           items
           (O, arrayToMergeInto cur))))
  | VUndefined =>
      if isSrcArr && negb (bool_decide (is_Some cur)) then Some VUndefined else None
  | v => Some v
  end.

(** The body of the loop of [baseMerge(object, source)] over the keys of
    a source object. *)
Definition assignMerged (obj : object value) (p : string * value)
  : object value :=
  let '(key, srcValue) := p in
  match baseMergeAt (ownProp obj key) false srcValue with
  | Some merged => setProp obj key merged
  | None => obj
  end.

(** [baseMerge(object, source)] for two objects. *)
Definition baseMerge (obj source : object value) : object value :=
  fold_left assignMerged source obj.

(** [_.merge(object, ...sources)]. *)
Definition merge (obj : object value) (sources : list (object value))
  : object value :=
  fold_left baseMerge sources obj.

End Lodash.

(** ** [./util] *)

Module Util.
Import Js.

(** [\w] *)
Definition isWordChar (c : ascii) : bool :=
  let n := nat_of_ascii c in
  ((48 <=? n) && (n <=? 57) || (65 <=? n) && (n <=? 90)
   || (97 <=? n) && (n <=? 122) || (n =? 95))%nat.

(** A non-empty run of word characters. *)
Definition isExtension (s : string) : bool :=
  negb (String.eqb s "") && forallb isWordChar (String.list_ascii_of_string s).

(** Modelled from the spec: [removeExtension] of [./util], which is not
    among the sources.  "Strip the file extension": the extension is the
    last dot of the path with the non-empty run of word characters that
    ends the path after it; a path without one is returned as it is. *)
Fixpoint removeExtension (filename : string) : string :=
  match filename with
  | "" => ""
  | String c rest =>
      if Ascii.eqb c "." && isExtension rest then ""
      else String c (removeExtension rest)
  end.

(** Modelled from the spec: [getExtension] of [./util], which is not among
    the sources.  "the file extension": what [removeExtension] strips,
    without the dot; empty when there is none. *)
Fixpoint getExtension (filename : string) : string :=
  match filename with
  | "" => ""
  | String c rest =>
      if Ascii.eqb c "." && isExtension rest then rest
      else getExtension rest
  end.

(** Modelled from the spec: [formatFieldsForSortByOrder] of [./util],
    which is not among the sources.  "each fieldSpec is a field name
    optionally prefixed with a descending marker": the marker is ["-"] as
    in [['foo', '-bar']]; the result is the list of field names and the
    list of their directions ([true] for ascending). *)
Definition formatFieldsForSortByOrder (fields : list string)
  : list string * list bool :=
  List.split
    (map (fun field =>
            match field with
            | String "-" name => (name, false)
            | _ => (field, true)
            end) fields).

End Util.

(** ** [src/core.js] *)

Module Core.
Import Js.

(** A document: front-matter fields and the structural fields. *)
Definition Document := object value.

(** [filepathToUrl(filepath)] *)
Definition filepathToUrl (filepath : string) : string :=
  let url := "/" +:+ Util.removeExtension filepath in
  (* url.replace(/\/index$/, '') *)
  let url := match stripSuffix "/index" url with
             | Some before => before
             | None => url
             end in
  if String.eqb url "" then "/" else url.

(** [renderByType(source, filepath, renderers)], for renderers that are
    functions from strings to strings, and an extension under which
    [renderers] reads one of them or nothing: not a name such as
    [valueOf], which an object without a renderer of that name inherits
    from [Object.prototype]. *)
Definition renderByType (source filepath : string)
    (renderers : object (string -> string)) : string :=
  let extension := Util.getExtension filepath in
  match ownProp renderers extension with
  | Some render => render source
  | None => source
  end.

(** A custom field parser: a caller-supplied function, which may throw. *)
Definition fieldParser := value -> result value.

(** The loop of [parseCustomFields]: [parsedAttributes[name] =
    fieldParsers[name](attributes[name])] for each name in turn. *)
Fixpoint parseEach (attributes : object value)
    (fieldParsers : object fieldParser) (parsedAttributes : object value)
  : result (object value) :=
  match fieldParsers with
  | [] => Return parsedAttributes
  | (name, parse) :: rest =>
      parsed ← parse (getProp attributes name);
      parseEach attributes rest (setProp parsedAttributes name parsed)
  end.

(** [parseCustomFields(attributes, fieldParsers)] *)
Definition parseCustomFields (attributes : object value)
    (fieldParsers : object fieldParser) : result (object value) :=
  parsedAttributes ← parseEach attributes fieldParsers [];
  Return (Lodash.merge [] [attributes; parsedAttributes]).

(** The options of [parsePage].  [renderers] and [fieldParsers] default to
    the empty object; [cutTag] is a string when given. *)
Record parseOptions := {
  renderers : object (string -> string);
  fieldParsers : object fieldParser;
  cutTag : option string
}.

(** [if (cutTag)]: a string is truthy when it is not empty. *)
Definition isSet (s : option string) : bool :=
  match s with
  | Some s => negb (String.eqb s "")
  | None => false
  end.

(** [[excerpt, more] = parts]: a missing element reads as [undefined]. *)
Definition element (parts : list string) (i : nat) : value :=
  match nth_error parts i with
  | Some part => VStr part
  | None => VUndefined
  end.

(** [let excerpt, more; if (cutTag) { [excerpt, more] =
    content.split(cutTag); }] *)
Definition cut (content : string) (cutTag : option string) : value * value :=
  if isSet cutTag
  then let parts := strSplit content (default "" cutTag) in
       (element parts 0, element parts 1)
  else (VUndefined, VUndefined).

Section External.

(** [fastmatter(source)]: the front-matter splitter, which may throw. *)
Variable fastmatter : string -> result (object value * string).

(** [glob.sync(path.join(folder, '*.yml'))] *)
Variable globYml : string -> list string.

(** [readYamlFile(filepath)] of [./util]: the mapping a config file holds. *)
Variable readYamlFile : string -> object value.

(** [_.sortByOrder(collection, iteratees, orders)]: the elements of the
    new array lodash returns. *)
Variable sortByOrder : list Document -> list string -> list bool -> list Document.

(** [parsePage(source, folder, filepath, options)] *)
Definition parsePage (source folder filepath : string) (options : parseOptions)
  : result Document :=
  '(attributes, body) ← fastmatter source;
  attributes ← parseCustomFields attributes (fieldParsers options);
  let url := filepathToUrl filepath in
  let content := renderByType body filepath (renderers options) in
  let '(excerpt, more) := cut content (cutTag options) in
  Return (Lodash.merge attributes
            [[ ("sourcePath", VStr filepath);
               ("content", VStr content);
               ("excerpt", excerpt);
               ("more", more);
               ("url", VStr url) ]]).

(** [path.basename(filepath)], for a path that does not end in a slash. *)
Definition basename (filepath : string) : string :=
  List.last (strSplit filepath "/") "".

(** [{base: {...}, langs: {...}}] *)
Record Configs := {
  base : object value;
  langs : object (object value)
}.

(** The callback of [readConfigFiles]. *)
Definition readConfigFile (configs : Configs) (filepath : string) : Configs :=
  let name := Util.removeExtension (basename filepath) in
  if String.eqb name "base"
  then {| base := readYamlFile filepath; langs := langs configs |}
  else {| base := base configs;
          langs := setProp (langs configs) name (readYamlFile filepath) |}.

(** [readConfigFiles(files)] *)
Definition readConfigFiles (files : list string) : Configs :=
  fold_left readConfigFile files {| base := []; langs := [] |}.

(** The callback of [mergeConfigs]. *)
Definition mergeLang (configs : Configs) (merged : object (object value))
    (lang : string) : object (object value) :=
  setProp merged lang
    (Lodash.merge [] [base configs; default [] (ownProp (langs configs) lang)]).

(** [mergeConfigs(configs)] *)
Definition mergeConfigs (configs : Configs) : object (object value) :=
  let baseConfig := [("base", base configs)] in
  if Lodash.isEmpty (langs configs) then baseConfig
  else fold_left (mergeLang configs) (ownKeys (langs configs)) baseConfig.

(** [loadConfig(folder)] *)
Definition loadConfig (folder : string) : object (object value) :=
  let files := globYml folder in
  let configs := readConfigFiles files in
  mergeConfigs configs.

(** A filter of [filterDocuments]: a regular expression object, or a
    value to be equal to. *)
Inductive criterion :=
| RegExp (pattern : regExp)
| Exactly (value : value).

(** The callback of [filterDocuments]: the loop over [fields], which stops
    at the first criterion that fails.  It returns its answer and [fields]
    after the call: the regular expressions it has tested are those
    [test] leaves. *)
Fixpoint passes (document : Document) (fields : object criterion)
  : bool * object criterion :=
  match fields with
  | [] => (true, [])
  | (field, value) :: rest =>
      let documentValue := readProp document field in
      match value with
      | RegExp pattern =>
          let '(matched, pattern) := test pattern (readToString documentValue) in
          if negb matched then (false, (field, RegExp pattern) :: rest)
          else let '(answer, rest) := passes document rest in
               (answer, (field, RegExp pattern) :: rest)
      | Exactly value =>
          if negb (readStrictEquals documentValue value)
          then (false, (field, Exactly value) :: rest)
          else let '(answer, rest) := passes document rest in
               (answer, (field, Exactly value) :: rest)
      end
  end.

(** [documents.filter(callback)]: the callback runs on each document in
    turn, on the [fields] the calls before it have left. *)
Fixpoint filterEach (documents : list Document) (fields : object criterion)
  : list Document * object criterion :=
  match documents with
  | [] => ([], fields)
  | document :: rest =>
      let '(answer, fields) := passes document fields in
      let '(kept, fields) := filterEach rest fields in
      (if answer then document :: kept else kept, fields)
  end.

(** [filterDocuments(documents, fields)]: the documents kept.  The
    regular expressions of [fields] are left as [filterEach] leaves
    them. *)
Definition filterDocuments (documents : list Document)
    (fields : object criterion) : list Document :=
  fst (filterEach documents fields).

(** [orderDocuments(documents, fields)] *)
Definition orderDocuments (documents : list Document) (fields : list string)
  : list Document :=
  let '(iteratees, orders) := Util.formatFieldsForSortByOrder fields in
  sortByOrder documents iteratees orders.

(** [if (!grouped[key]) { grouped[key] = []; } grouped[key].push(document)],
    where the source writes [key] as the variable [variable].
    [grouped] starts as [{}]: under a name inherited from
    [Object.prototype] it reads a value that is truthy and has no [push],
    and the call throws, the message naming the callee as written. *)
Definition addToGroup (variable : string) (grouped : object (list Document))
    (key : string) (document : Document) : result (object (list Document)) :=
  match ownProp grouped key with
  | Some bucket => Return (setProp grouped key (bucket ++ [document]))
  | None =>
      if inherited key
      then Throw (TypeError ("grouped[" +:+ variable
                             +:+ "].push is not a function"))
      else Return (setProp grouped key [document])
  end.

(** The keys the callback of [gropDocuments] files a document under: the
    elements of an array, the value itself otherwise, as property keys. *)
Definition groupKeys (field : string) (document : Document) : list string :=
  match readProp document field with
  | Data (VArr subValues) => map toString subValues
  | value => [readToString value]
  end.

(** The variable that holds the key where the callback files the
    document: [subValue] in the loop over an array, [value] otherwise. *)
Definition keyVariable (field : string) (document : Document) : string :=
  match readProp document field with
  | Data (VArr _) => "subValue"
  | _ => "value"
  end.

(** The callback of [gropDocuments]. *)
Definition groupDocument (field : string) (grouped : object (list Document))
    (document : Document) : result (object (list Document)) :=
  foldl (fun grouped key =>
           grouped ← grouped;
           addToGroup (keyVariable field document) grouped key document)
        (Return grouped) (groupKeys field document).

(** [gropDocuments(documents, field)] *)
Definition gropDocuments (documents : list Document) (field : string)
  : result (object (list Document)) :=
  foldl (fun grouped document =>
           grouped ← grouped; groupDocument field grouped document)
        (Return []) documents.

(** [getPageNumberUrl(urlPrefix, pageNumber)] *)
Definition getPageNumberUrl (urlPrefix : string) (pageNumber : Z) : string :=
  urlPrefix +:+ "/page/" +:+ pretty pageNumber.

(** The options of [paginate], typed as documented: a string, a number
    (integer-valued) and a string, each possibly missing. *)
Record paginateOptions := {
  urlPrefix : option string;
  documentsPerPage : option Z;
  layout : option string
}.

(** A page of [paginate]; [null] is [None]. *)
Record page := {
  previousUrl : option string;
  nextUrl : option string;
  sourcePath : string;
  documents : list Document;
  pageLayout : string;
  url : string
}.

(** [url.replace(/^\//, '')] *)
Definition stripLeadingSlash (url : string) : string :=
  match url with
  | String "/" rest => rest
  | _ => url
  end.

(** [Math.ceil(n / k)] for integers, [k] not zero. *)
Definition ceilDiv (n k : Z) : Z := - ((- n) / k).

(** The callback of [paginate]. *)
Definition makePage (documents : list Document) (urlPrefix : string)
    (documentsPerPage : Z) (layout : string) (totalPages : Z) (pageNumber : Z)
  : page :=
  let pageNumber := pageNumber + 1 in
  let url := getPageNumberUrl urlPrefix pageNumber in
  let begin := (pageNumber - 1) * documentsPerPage in
  {| previousUrl := if 1 <? pageNumber
                    then Some (getPageNumberUrl urlPrefix (pageNumber - 1))
                    else None;
     nextUrl := if pageNumber <? totalPages
                then Some (getPageNumberUrl urlPrefix (pageNumber + 1))
                else None;
     sourcePath := stripLeadingSlash url;
     documents := slice documents begin (begin + documentsPerPage);
     pageLayout := layout;
     url := url |}.

(** The error [paginate] throws for a missing option. *)
Definition notSpecified (option : string) : exn :=
  Error (String "034" option +:+ String "034" " not specified for paginate().").

(** [if (!documentsPerPage)]: a number is truthy when it is not zero. *)
Definition isNonZero (n : option Z) : bool :=
  match n with
  | Some n => negb (n =? 0)
  | None => false
  end.

(** [paginate(documents, options)] *)
Definition paginate (documents : list Document) (options : paginateOptions)
  : result (list page) :=
  if negb (isSet (urlPrefix options)) then
    Throw (notSpecified "urlPrefix")
  else if negb (isNonZero (documentsPerPage options)) then
    Throw (notSpecified "documentsPerPage")
  else if negb (isSet (layout options)) then
    Throw (notSpecified "layout")
  else
    let urlPrefix := default "" (urlPrefix options) in
    let documentsPerPage := default 0 (documentsPerPage options) in
    let layout := default "" (layout options) in
    let totalPages := ceilDiv (Z.of_nat (length documents)) documentsPerPage in
    Return (map (makePage documents urlPrefix documentsPerPage layout totalPages)
                (Lodash.range totalPages)).

End External.

End Core.

(** ** The query layer and the paginator on arrays in memory

    The same functions with the arrays of documents as cells of a store:
    an array is a reference, [filter], [slice], [_.sortByOrder] and [[]]
    allocate a new cell, [push] writes into an existing one. *)

Module Store.
Import Js.

(** A reference to an array. *)
Definition loc := positive.

(** The arrays of documents that exist, by reference. *)
Abbreviation store := (gmap loc (list Core.Document)).

(** A computation on the store: it throws or returns, and leaves a store. *)
Definition M (A : Type) : Type := store -> result A * store.

#[global] Instance M_ret : MRet M := fun A a h => (Return a, h).

#[global] Instance M_bind : MBind M := fun A B k m h =>
  match m h with
  | (Throw e, h') => (Throw e, h')
  | (Return a, h') => k a h'
  end.

Definition throw {A} (e : exn) : M A := fun h => (Throw e, h).

(** A new array holding [xs]. *)
Definition allocArray (xs : list Core.Document) : M loc := fun h =>
  let l := fresh (dom h) in (Return l, <[l:=xs]> h).

(** The elements of the array [l]. *)
Definition readArray (l : loc) : M (list Core.Document) := fun h =>
  match h !! l with
  | Some xs => (Return xs, h)
  | None => (Throw (TypeError "not an array"), h)
  end.

(** [l.push(document)] *)
Definition pushArray (l : loc) (document : Core.Document) : M unit := fun h =>
  match h !! l with
  | Some xs => (Return tt, <[l:=xs ++ [document]]> h)
  | None => (Throw (TypeError "not an array"), h)
  end.

(** [xs.reduce(f, b)] and [xs.forEach] with a callback on the store. *)
Fixpoint reduce {A B} (f : B -> A -> M B) (b : B) (xs : list A) : M B :=
  match xs with
  | [] => mret b
  | x :: xs' => b' ← f b x; reduce f b' xs'
  end.

(** [xs.map(f)] with a callback on the store. *)
Fixpoint mapArray {A B} (f : A -> M B) (xs : list A) : M (list B) :=
  match xs with
  | [] => mret []
  | x :: xs' => y ← f x; ys ← mapArray f xs'; mret (y :: ys)
  end.

Section External.

Variable sortByOrder :
  list Core.Document -> list string -> list bool -> list Core.Document.

(** [filterDocuments(documents, fields)] *)
Definition filterDocuments (documents : loc) (fields : object Core.criterion)
  : M loc :=
  xs ← readArray documents;
  allocArray (Core.filterDocuments xs fields).

(** [orderDocuments(documents, fields)] *)
Definition orderDocuments (documents : loc) (fields : list string) : M loc :=
  xs ← readArray documents;
  let '(iteratees, orders) := Util.formatFieldsForSortByOrder fields in
  allocArray (sortByOrder xs iteratees orders).

(** [if (!grouped[key]) { grouped[key] = []; } grouped[key].push(document)] *)
Definition addToGroup (variable : string) (grouped : object loc)
    (key : string) (document : Core.Document) : M (object loc) :=
  match ownProp grouped key with
  | Some bucket => _ ← pushArray bucket document; mret grouped
  | None =>
      if inherited key
      then throw (TypeError ("grouped[" +:+ variable
                             +:+ "].push is not a function"))
      else bucket ← allocArray [];
           _ ← pushArray bucket document;
           mret (setProp grouped key bucket)
  end.

(** The callback of [gropDocuments]. *)
Definition groupDocument (field : string) (grouped : object loc)
    (document : Core.Document) : M (object loc) :=
  reduce (fun grouped key =>
            addToGroup (Core.keyVariable field document) grouped key document)
         grouped (Core.groupKeys field document).

(** [gropDocuments(documents, field)] *)
Definition gropDocuments (documents : loc) (field : string) : M (object loc) :=
  xs ← readArray documents;
  reduce (groupDocument field) [] xs.

(** A page whose [documents] is a reference to the sliced array. *)
Record page := {
  previousUrl : option string;
  nextUrl : option string;
  sourcePath : string;
  documents : loc;
  pageLayout : string;
  url : string
}.

(** The callback of [paginate]: [documents.slice(...)] is a new array. *)
Definition makePage (documents : loc) (urlPrefix : string)
    (documentsPerPage : Z) (layout : string) (totalPages : Z) (pageNumber : Z)
  : M page :=
  xs ← readArray documents;
  let p := Core.makePage xs urlPrefix documentsPerPage layout totalPages pageNumber in
  sliced ← allocArray (Core.documents p);
  mret {| previousUrl := Core.previousUrl p;
          nextUrl := Core.nextUrl p;
          sourcePath := Core.sourcePath p;
          documents := sliced;
          pageLayout := Core.pageLayout p;
          url := Core.url p |}.

(** [paginate(documents, options)] *)
Definition paginate (documents : loc) (options : Core.paginateOptions)
  : M (list page) :=
  if negb (Core.isSet (Core.urlPrefix options)) then
    throw (Core.notSpecified "urlPrefix")
  else if negb (Core.isNonZero (Core.documentsPerPage options)) then
    throw (Core.notSpecified "documentsPerPage")
  else if negb (Core.isSet (Core.layout options)) then
    throw (Core.notSpecified "layout")
  else
    let urlPrefix := default "" (Core.urlPrefix options) in
    let documentsPerPage := default 0 (Core.documentsPerPage options) in
    let layout := default "" (Core.layout options) in
    xs ← readArray documents;
    let totalPages := Core.ceilDiv (Z.of_nat (length xs)) documentsPerPage in
    mapArray (makePage documents urlPrefix documentsPerPage layout totalPages)
             (Lodash.range totalPages).

End External.

End Store.

(** ** Source loading, context assembly and page generation *)

Module Pages.
Import Js.

(** [!!v]: what [if (!v)] tests. *)
Definition truthy (v : value) : bool :=
  match v with
  | VUndefined | VNull => false
  | VBool b => b
  | VNum n => negb (n =? 0)
  | VStr s => negb (String.eqb s "")
  | VArr _ | VObj _ => true
  end.

(** [xs.map(f)] with a callback that may throw: the first exception ends
    the loop. *)
Fixpoint mapThrowing {A B} (f : A -> result B) (xs : list A)
  : result (list B) :=
  match xs with
  | [] => Return []
  | x :: xs' => y ← f x; ys ← mapThrowing f xs'; Return (y :: ys)
  end.

(** [makeContext(document, config, helpers)], on plain data. *)
Definition makeContext (document : Core.Document) (config helpers : object value)
  : object value :=
  Lodash.merge [] [helpers; [("config", VObj config)]; document].

(** A template renderer, [render(templateFile, context)]: a caller-supplied
    function, which may throw. *)
Definition templateRenderer := string -> object value -> result string.

(** [{ pagePath, content }] *)
Record generated := {
  pagePath : string;
  content : string
}.

(** The error [generatePage] throws for a document without layout. *)
Definition layoutNotSpecified (sourcePath : value) : exn :=
  Error ("Layout not specified for " +:+ toString sourcePath +:+ ". Add "
         +:+ String "034" "layout" +:+ String "034" " front matter field.").

(** [generatePage(document, config, helpers, renderers)].
    [_.pairs(renderers).shift()] is [undefined] for an empty [renderers],
    which cannot be destructured.  [removeExtension] is that of [./util],
    modelled on strings: for a [sourcePath] that is not a string the model
    throws. *)
Definition generatePage (document : Core.Document) (config helpers : object value)
    (renderers : object templateRenderer) : result generated :=
  if negb (truthy (getProp document "layout")) then
    Throw (layoutNotSpecified (getProp document "sourcePath"))
  else
    match renderers with
    | [] => Throw (TypeError "undefined is not iterable")
    | (templateExtension, render) :: _ =>
        let templateFile :=
          toString (getProp document "layout") +:+ "." +:+ templateExtension in
        let context := makeContext document config helpers in
        content ← render templateFile context;
        match getProp document "sourcePath" with
        | VStr sourcePath =>
            Return {| pagePath := Util.removeExtension sourcePath;
                      content := content |}
        | _ => Throw (TypeError "filename.replace is not a function")
        end
    end.

(** [generatePages(documents, config, helpers, renderers)] *)
Definition generatePages (documents : list Core.Document)
    (config helpers : object value) (renderers : object templateRenderer)
  : result (list generated) :=
  mapThrowing (fun document => generatePage document config helpers renderers)
              documents.

Section External.

(** [glob.sync(mask, {cwd: folder})] *)
Variable globSync : string -> string -> list string.

(** [readFile(filepath)] of [./util], which may throw. *)
Variable readFile : string -> result string.

(** [path.join(folder, filepath)] *)
Variable pathJoin : string -> string -> string.

(** [fastmatter(source)] *)
Variable fastmatter : string -> result (object value * string).

(** [getSourceFilesList(folder, types)] *)
Definition getSourceFilesList (folder : string) (types : list string)
  : list string :=
  let typesMask := String.concat "," types in
  let mask := "**/*.{" +:+ typesMask +:+ "}" in
  globSync mask folder.

(** [loadSourceFiles(folder, types, options)] *)
Definition loadSourceFiles (folder : string) (types : list string)
    (options : Core.parseOptions) : result (list Core.Document) :=
  let files := getSourceFilesList folder types in
  mapThrowing
    (fun filepath =>
       source ← readFile (pathJoin folder filepath);
       Core.parsePage fastmatter source folder filepath options)
    files.

End External.

End Pages.

(** ** Vocabulary of the properties *)

(** [tag] occurs in [s]. *)
Definition occursIn (tag s : string) : Prop :=
  exists before after, s = before +:+ tag +:+ after.

(** [s] is [before], then [tag], then [after], and [tag] occurs nowhere
    earlier in [s]. *)
Definition firstOccurrence (tag s before after : string) : Prop :=
  s = before +:+ tag +:+ after /\
  forall before' after', s = before' +:+ tag +:+ after' ->
    (String.length before <= String.length before')%nat.

(** A value other than an array or an object. *)
Definition isScalar (v : Js.value) : bool :=
  match v with
  | Js.VArr _ | Js.VObj _ => false
  | _ => true
  end.

(** A value other than [undefined]. *)
Definition isDefined (v : Js.value) : bool :=
  match v with
  | Js.VUndefined => false
  | _ => true
  end.

(** The pattern of [r] matches in [s], the matcher started at 0. *)
Definition matchesIn (r : Js.regExp) (s : string) : bool :=
  match Js.execFrom r 0 s with Some _ => true | None => false end.

(** A criterion whose test keeps no state: a value, or a regular
    expression without the [g] and [y] flags. *)
Definition stateless (criterion : Core.criterion) : bool :=
  match criterion with
  | Core.RegExp pattern => negb (Js.stateful pattern)
  | Core.Exactly _ => true
  end.

(** Criteria none of which keeps state. *)
Definition allStateless (fields : Js.object Core.criterion) : bool :=
  forallb (fun p => stateless (snd p)) fields.

(** What a criterion that keeps no state asks of a document. *)
Definition satisfies (document : Core.Document) (field : string)
    (criterion : Core.criterion) : bool :=
  match criterion with
  | Core.RegExp pattern =>
      matchesIn pattern (Js.readToString (Js.readProp document field))
  | Core.Exactly value =>
      Js.readStrictEquals (Js.readProp document field) value
  end.

(** The regular expression [/^undefined$/], with the [g] flag or without
    it: from index 0 it matches the string ["undefined"] whole, and
    nothing else. *)
Definition undefinedOnly (flag : bool) : Js.regExp :=
  {| Js.stateful := flag;
     Js.lastIndex := 0;
     Js.execFrom := fun i s =>
       if (i =? 0)%nat && String.eqb s "undefined" then Some 9%nat else None |}.

(** An array. *)
Definition isArray (v : Js.value) : bool :=
  match v with
  | Js.VArr _ => true
  | _ => false
  end.

(** A document one of whose group keys is a name inherited from
    [Object.prototype]. *)
Definition offending (field : string) (document : Core.Document) : bool :=
  existsb Js.inherited (Core.groupKeys field document).

(** The bucket of [key] in a grouping; empty when there is none. *)
Definition bucket (grouped : Js.object (list Core.Document)) (key : string)
  : list Core.Document :=
  default [] (Js.ownProp grouped key).

(** The filings [gropDocuments] makes, in the order it makes them: each
    document with each of its group keys. *)
Definition filings (field : string) (documents : list Core.Document)
  : list (string * Core.Document) :=
  flat_map (fun document =>
              map (fun key => (key, document)) (Core.groupKeys field document))
           documents.

(** The copies of a document that go under [key]: one for each element
    of an array that has [key] as its string form, one when any other
    value read has it. *)
Definition copiesUnder (field key : string) (document : Core.Document)
  : list Core.Document :=
  match Js.readProp document field with
  | Js.Data (Js.VArr subValues) =>
      map (fun _ => document)
          (List.filter (fun subValue => String.eqb (Js.toString subValue) key)
                       subValues)
  | value => if String.eqb (Js.readToString value) key then [document] else []
  end.

(** The documents filed under [key], in order. *)
Definition filedUnder (key : string) (fs : list (string * Core.Document))
  : list Core.Document :=
  map snd (List.filter (fun p => String.eqb (fst p) key) fs).

(** One filing into a grouping, and a list of them. *)
Definition file (grouped : Js.object (list Core.Document))
    (p : string * Core.Document) : Js.object (list Core.Document) :=
  Js.setProp grouped (fst p) (bucket grouped (fst p) ++ [snd p]).

Definition fileAll (fs : list (string * Core.Document))
    (grouped : Js.object (list Core.Document))
  : Js.object (list Core.Document) :=
  fold_left file fs grouped.

(** Every array of [h] is in [h'] with the same elements. *)
Definition preserved (h h' : Store.store) : Prop :=
  forall l xs, h !! l = Some xs -> h' !! l = Some xs.

(** The grouping a grouping by reference stands for in a store. *)
Definition contents (h : Store.store) (grouped : Js.object Store.loc)
  : Js.object (list Core.Document) :=
  map (fun p => (fst p, default [] (h !! snd p))) grouped.

(** The buckets of [grouped] are distinct arrays of [h], none of which
    existed in [h0], and [h] still has the arrays of [h0]. *)
Definition groupedIn (h0 h : Store.store) (grouped : Js.object Store.loc)
  : Prop :=
  preserved h0 h /\
  NoDup (map snd grouped) /\
  forall l, l ∈ map snd grouped -> is_Some (h !! l) /\ h0 !! l = None.

(** A page by reference stands for a page: its [documents] is an array of
    [h'] that did not exist in [h] and holds the documents of the page. *)
Definition pageIn (h h' : Store.store) (p : Store.page) (q : Core.page)
  : Prop :=
  h !! Store.documents p = None /\
  h' !! Store.documents p = Some (Core.documents q) /\
  Store.previousUrl p = Core.previousUrl q /\
  Store.nextUrl p = Core.nextUrl q /\
  Store.sourcePath p = Core.sourcePath q /\
  Store.pageLayout p = Core.pageLayout q /\
  Store.url p = Core.url q.

(** * Properties *)

Import Js.

(** ** Strings *)

Lemma append_nil_l (b : string) : "" +:+ b = b.
Proof. reflexivity. Qed.

Lemma append_cons (x : ascii) (a b : string) :
  String x a +:+ b = String x (a +:+ b).
Proof. reflexivity. Qed.

Lemma append_assoc (a b c : string) : (a +:+ b) +:+ c = a +:+ b +:+ c.
Proof.
  induction a as [|x a IH]; [reflexivity|].
  rewrite !append_cons. now f_equal.
Qed.

Lemma append_nil_r (a : string) : a +:+ "" = a.
Proof.
  induction a as [|x a IH]; [reflexivity|].
  rewrite append_cons. now f_equal.
Qed.

Lemma length_append (a b : string) :
  String.length (a +:+ b) = (String.length a + String.length b)%nat.
Proof.
  induction a as [|x a IH]; [reflexivity|].
  rewrite append_cons. simpl. now rewrite IH.
Qed.

Ltac string_cons := rewrite ?append_cons, ?append_nil_l.

Lemma stripSuffix_append (suffix before : string) :
  stripSuffix suffix (before +:+ suffix) = Some before.
Proof.
  induction before as [|c before IH]; string_cons.
  - destruct suffix; simpl; rewrite ?Ascii.eqb_refl, ?String.eqb_refl; reflexivity.
  - cbn [stripSuffix].
    destruct (String.eqb (String c (before +:+ suffix)) suffix) eqn:E.
    + apply String.eqb_eq in E. apply (f_equal String.length) in E.
      simpl in E. rewrite length_append in E. lia.
    + rewrite IH. reflexivity.
Qed.

Lemma stripSuffix_Some (suffix s before : string) :
  stripSuffix suffix s = Some before -> s = before +:+ suffix.
Proof.
  revert before. induction s as [|c s IH]; intros before H.
  - simpl in H. destruct suffix; simpl in H; [|discriminate].
    now inversion H.
  - cbn [stripSuffix] in H.
    destruct (String.eqb (String c s) suffix) eqn:E.
    + apply String.eqb_eq in E. inversion H. now subst.
    + destruct (stripSuffix suffix s) as [b|] eqn:E'; [|discriminate].
      inversion H. subst. string_cons. now rewrite (IH b eq_refl).
Qed.

Lemma stripSuffix_None (suffix s : string) :
  (forall before, s <> before +:+ suffix) -> stripSuffix suffix s = None.
Proof.
  intros H. destruct (stripSuffix suffix s) as [b|] eqn:E; [|reflexivity].
  apply stripSuffix_Some in E. now destruct (H b).
Qed.

(** ** [./util] *)

Lemma isExtension_dot (a b : string) :
  Util.isExtension (a +:+ String "." b) = false.
Proof.
  unfold Util.isExtension. apply andb_false_iff. right.
  induction a as [|c a IH]; string_cons; [reflexivity|].
  cbn [String.list_ascii_of_string forallb].
  rewrite IH. apply andb_false_r.
Qed.

Lemma removeExtension_append (name ext : string) :
  Util.isExtension ext = true ->
  Util.removeExtension (name +:+ String "." ext) = name.
Proof.
  intros Hext. induction name as [|c name IH]; string_cons;
    cbn [Util.removeExtension].
  - now rewrite Hext.
  - rewrite isExtension_dot, andb_false_r, IH. reflexivity.
Qed.

(** ** URL derivation *)

(** C5, as stated, at [index/index.md]: the path ends in [/index.md], the
    same path with the [/index] segment removed is [index.md], and the two
    URLs are [/index] and [/]. *)
Lemma nested_index_collapsed_once :
  Core.filepathToUrl ("index" +:+ "/index." +:+ "md") = "/index" /\
  Core.filepathToUrl ("index" +:+ "." +:+ "md") = "/" /\
  Core.filepathToUrl ("index" +:+ "/index." +:+ "md")
    <> Core.filepathToUrl ("index" +:+ "." +:+ "md").
Proof. repeat split; try reflexivity. vm_compute. discriminate. Qed.

(** C5, amended: for every path [dir/index.<ext>] whose directory part
    [/dir] does not itself end in [/index], [filepathToUrl] gives the URL
    of [dir.<ext>], which is [/dir]; and [filepathToUrl("index.md")] is
    [/]. *)
Theorem filepathToUrl_index (dir ext : string) :
  Util.isExtension ext = true ->
  (forall before, "/" +:+ dir <> before +:+ "/index") ->
  Core.filepathToUrl (dir +:+ "/index." +:+ ext)
    = Core.filepathToUrl (dir +:+ "." +:+ ext)
  /\ Core.filepathToUrl (dir +:+ "/index." +:+ ext) = "/" +:+ dir
  /\ Core.filepathToUrl "index.md" = "/".
Proof.
  intros Hext Hdir.
  assert (L : Core.filepathToUrl (dir +:+ "/index." +:+ ext) = "/" +:+ dir).
  { unfold Core.filepathToUrl.
    replace (dir +:+ "/index." +:+ ext)
      with ((dir +:+ "/index") +:+ String "." ext)
      by (rewrite append_assoc; reflexivity).
    rewrite removeExtension_append by assumption.
    rewrite <- (append_assoc "/" dir "/index").
    rewrite stripSuffix_append. reflexivity. }
  assert (R : Core.filepathToUrl (dir +:+ "." +:+ ext) = "/" +:+ dir).
  { unfold Core.filepathToUrl.
    change (dir +:+ "." +:+ ext) with (dir +:+ String "." ext).
    rewrite removeExtension_append by assumption.
    rewrite stripSuffix_None by assumption. reflexivity. }
  rewrite L, R. repeat split; reflexivity.
Qed.

Lemma filepathToUrl_index_witness :
  Core.filepathToUrl ("posts/hello" +:+ "/index." +:+ "md")
    = Core.filepathToUrl ("posts/hello" +:+ "." +:+ "md")
  /\ Core.filepathToUrl ("posts/hello" +:+ "/index." +:+ "md") = "/" +:+ "posts/hello"
  /\ Core.filepathToUrl "index.md" = "/".
Proof.
  apply (filepathToUrl_index "posts/hello" "md").
  - reflexivity.
  - intros before H. apply (f_equal (stripSuffix "/index")) in H.
    rewrite stripSuffix_append in H. vm_compute in H. discriminate.
Defined.

(** ** Objects *)

Lemma ownProp_setProp {A} (o : object A) (k k' : string) (v : A) :
  ownProp (setProp o k v) k' = if String.eqb k k' then Some v else ownProp o k'.
Proof.
  induction o as [|[k0 v0] o IH]; simpl.
  - destruct (String.eqb k k'); reflexivity.
  - destruct (String.eqb k0 k) eqn:E0; simpl.
    + apply String.eqb_eq in E0. subst k0.
      destruct (String.eqb k k'); reflexivity.
    + rewrite IH. destruct (String.eqb k0 k') eqn:E1; [|reflexivity].
      apply String.eqb_eq in E1. subst k0. now rewrite String.eqb_sym, E0.
Qed.

Lemma getProp_setProp (o : object value) (k k' : string) (v : value) :
  getProp (setProp o k v) k' = if String.eqb k k' then v else getProp o k'.
Proof.
  unfold getProp. rewrite ownProp_setProp. now destruct (String.eqb k k').
Qed.

Lemma ownKeys_setProp {A} (o : object A) (k k' : string) (v : A) :
  k' ∈ ownKeys (setProp o k v) <-> k' = k \/ k' ∈ ownKeys o.
Proof.
  rewrite !list_elem_of_In. unfold ownKeys. induction o as [|[k0 v0] o IH]; simpl.
  - intuition.
  - destruct (String.eqb k0 k) eqn:E0; simpl.
    + apply String.eqb_eq in E0. subst k0. intuition.
    + rewrite IH. intuition.
Qed.

Lemma ownProp_In {A} (o : object A) (k : string) :
  k ∈ ownKeys o <-> exists v, ownProp o k = Some v.
Proof.
  rewrite list_elem_of_In. unfold ownKeys. induction o as [|[k0 v0] o IH]; simpl.
  - split; [tauto | intros [v H]; discriminate].
  - destruct (String.eqb k0 k) eqn:E0.
    + apply String.eqb_eq in E0. subst. split; eauto.
    + apply String.eqb_neq in E0. rewrite <- IH. intuition.
Qed.

(** ** lodash's merge *)

Lemma assignMerged_scalar (o : object value) (k : string) (v : value) :
  isScalar v = true -> isDefined v = true ->
  Lodash.assignMerged o (k, v) = setProp o k v.
Proof. destruct v; simpl; intros; try discriminate; reflexivity. Qed.

Lemma assignMerged_undefined (o : object value) (k : string) :
  Lodash.assignMerged o (k, VUndefined) = o.
Proof. reflexivity. Qed.

Lemma assignMerged_other (o : object value) (p : string * value) (k : string) :
  fst p <> k -> ownProp (Lodash.assignMerged o p) k = ownProp o k.
Proof.
  destruct p as [k0 v]. simpl. intros Hne.
  destruct (Lodash.baseMergeAt (ownProp o k0) false v); [|reflexivity].
  rewrite ownProp_setProp.
  destruct (String.eqb k0 k) eqn:E; [|reflexivity].
  apply String.eqb_eq in E. contradiction.
Qed.

Lemma baseMerge_other (src o : object value) (k : string) :
  k ∉ ownKeys src -> ownProp (Lodash.baseMerge o src) k = ownProp o k.
Proof.
  unfold Lodash.baseMerge. revert o.
  induction src as [|p src IH]; intros o Hk; [reflexivity|].
  simpl in *. apply not_elem_of_cons in Hk as [Hne Hk].
  rewrite IH by assumption. apply assignMerged_other. congruence.
Qed.

(** A defined scalar of the source replaces what the destination has under
    the same key. *)
Lemma baseMerge_source_wins (src o : object value) (k : string) (v : value) :
  NoDup (ownKeys src) -> ownProp src k = Some v ->
  isScalar v = true -> isDefined v = true ->
  ownProp (Lodash.baseMerge o src) k = Some v.
Proof.
  unfold Lodash.baseMerge. revert o.
  induction src as [|[k0 v0] src IH]; intros o Hnd Hk Hs Hd; [discriminate|].
  simpl in Hk, Hnd. inversion Hnd as [|? ? Hnotin Hnd']; subst.
  cbn [fold_left].
  destruct (String.eqb k0 k) eqn:E.
  - apply String.eqb_eq in E. subst k0. inversion Hk. subst v0.
    change (ownProp (Lodash.baseMerge (Lodash.assignMerged o (k, v)) src) k = Some v).
    rewrite baseMerge_other by assumption.
    rewrite assignMerged_scalar by assumption.
    rewrite ownProp_setProp, String.eqb_refl. reflexivity.
  - now apply IH.
Qed.

(** An [undefined] of the source leaves the destination as it is. *)
Lemma baseMerge_undefined_skipped (src o : object value) (k : string) :
  NoDup (ownKeys src) -> ownProp src k = Some VUndefined ->
  ownProp (Lodash.baseMerge o src) k = ownProp o k.
Proof.
  unfold Lodash.baseMerge. revert o.
  induction src as [|[k0 v0] src IH]; intros o Hnd Hk; [discriminate|].
  simpl in Hk, Hnd. inversion Hnd as [|? ? Hnotin Hnd']; subst.
  cbn [fold_left].
  destruct (String.eqb k0 k) eqn:E.
  - apply String.eqb_eq in E. subst k0. inversion Hk. subst v0.
    change (ownProp (Lodash.baseMerge (Lodash.assignMerged o (k, VUndefined)) src) k
            = ownProp o k).
    now rewrite baseMerge_other by assumption.
  - rewrite IH by assumption. apply assignMerged_other. simpl.
    now apply String.eqb_neq.
Qed.

(** ** [String.prototype.split] *)

Lemma startsWith_append (p rest : string) : startsWith p (p +:+ rest) = true.
Proof.
  induction p as [|a p IH]; [reflexivity|].
  string_cons. cbn [startsWith]. now rewrite Ascii.eqb_refl, IH.
Qed.

Lemma startsWith_true (p s : string) :
  startsWith p s = true -> exists rest, s = p +:+ rest.
Proof.
  revert s. induction p as [|a p IH]; intros s H.
  - now exists s.
  - destruct s as [|b s]; [discriminate|]. cbn [startsWith] in H.
    apply andb_true_iff in H as [Hab Hp].
    apply Ascii.eqb_eq in Hab. subst b.
    destruct (IH s Hp) as [rest ->]. now exists rest.
Qed.

Lemma splitFrom_skip (sep skipped rest : string) :
  splitFrom sep (String.length skipped) (skipped +:+ rest) = splitFrom sep 0 rest.
Proof.
  induction skipped as [|c skipped IH]; [reflexivity|].
  string_cons. cbn [String.length splitFrom]. exact IH.
Qed.

Lemma splitFrom_separator (sep rest : string) :
  sep <> "" ->
  splitFrom sep 0 (sep +:+ rest)
    = ("", fst (splitFrom sep 0 rest) :: snd (splitFrom sep 0 rest)).
Proof.
  intros Hsep. destruct sep as [|a sep]; [congruence|].
  pose proof (startsWith_append (String a sep) rest) as Hstart.
  rewrite append_cons in *. cbn [splitFrom]. rewrite Hstart.
  cbn [String.length Nat.pred]. rewrite splitFrom_skip.
  now destruct (splitFrom (String a sep) 0 rest).
Qed.

Lemma splitFrom_other (sep : string) (c : ascii) (s : string) :
  startsWith sep (String c s) = false ->
  splitFrom sep 0 (String c s)
    = (String c (fst (splitFrom sep 0 s)), snd (splitFrom sep 0 s)).
Proof.
  intros H. cbn [splitFrom]. rewrite H.
  now destruct (splitFrom sep 0 s).
Qed.

Lemma occursIn_tail (tag : string) (c : ascii) (s : string) :
  occursIn tag s -> occursIn tag (String c s).
Proof.
  intros (before & after & ->). exists (String c before), after.
  now rewrite append_cons.
Qed.

Lemma occursIn_startsWith (tag s : string) :
  startsWith tag s = true -> occursIn tag s.
Proof.
  intros H. destruct (startsWith_true _ _ H) as [rest ->].
  now exists "", rest.
Qed.

(** Without an occurrence of the separator there is one piece: the string. *)
Lemma splitFrom_absent (tag s : string) :
  ~ occursIn tag s -> splitFrom tag 0 s = (s, []).
Proof.
  induction s as [|c s IH]; intros H; [reflexivity|].
  rewrite splitFrom_other.
  - rewrite IH; [reflexivity|].
    intros Hs. apply H. now apply occursIn_tail.
  - destruct (startsWith tag (String c s)) eqn:E; [|reflexivity].
    destruct H. now apply occursIn_startsWith.
Qed.

(** The first piece ends where the separator first occurs, and the other
    pieces are those of what follows the separator. *)
Lemma splitFrom_firstOccurrence (tag s before after : string) :
  tag <> "" -> firstOccurrence tag s before after ->
  splitFrom tag 0 s
    = (before, fst (splitFrom tag 0 after) :: snd (splitFrom tag 0 after)).
Proof.
  intros Htag. revert s. induction before as [|c before IH]; intros s [-> Hmin].
  - rewrite append_nil_l. now apply splitFrom_separator.
  - rewrite append_cons. rewrite splitFrom_other.
    + rewrite (IH (before +:+ tag +:+ after)); [reflexivity|].
      split; [reflexivity|]. intros before' after' E.
      specialize (Hmin (String c before') after').
      rewrite !append_cons, E in Hmin. specialize (Hmin eq_refl).
      simpl in Hmin. lia.
    + destruct (startsWith tag (String c (before +:+ tag +:+ after))) eqn:E;
        [|reflexivity].
      destruct (startsWith_true _ _ E) as [rest Hrest].
      specialize (Hmin "" rest). rewrite append_cons, append_nil_l in Hmin.
      specialize (Hmin Hrest). simpl in Hmin. lia.
Qed.

(** An occurrence gives a first occurrence. *)
Lemma occursIn_firstOccurrence (tag s : string) :
  occursIn tag s -> exists before after, firstOccurrence tag s before after.
Proof.
  induction s as [|c s IH]; intros Hocc.
  - destruct Hocc as (before & after & E). exists before, after.
    split; [assumption|].
    destruct before; [simpl; lia | rewrite append_cons in E; discriminate].
  - destruct (startsWith tag (String c s)) eqn:Hstart.
    + destruct (startsWith_true _ _ Hstart) as [rest Hrest].
      exists "", rest. split; [now rewrite append_nil_l|]. simpl. lia.
    + assert (Hs : occursIn tag s).
      { destruct Hocc as (before & after & E).
        destruct before as [|b before].
        - rewrite append_nil_l in E. rewrite E, startsWith_append in Hstart.
          discriminate.
        - rewrite append_cons in E. inversion E. now exists before, after. }
      destruct (IH Hs) as (before & after & [E Hmin]).
      exists (String c before), after. split.
      * now rewrite append_cons, <- E.
      * intros before' after' E'. destruct before' as [|b before'].
        -- rewrite append_nil_l in E'. rewrite E', startsWith_append in Hstart.
           discriminate.
        -- rewrite append_cons in E'. inversion E' as [[Hb Hs']].
           specialize (Hmin before' after' Hs'). simpl. lia.
Qed.

(** [split] finds the separator exactly when it occurs. *)
Lemma occursIn_split (tag s : string) :
  tag <> "" -> occursIn tag s -> snd (splitFrom tag 0 s) <> [].
Proof.
  intros Htag Hocc.
  destruct (occursIn_firstOccurrence _ _ Hocc) as (before & after & Hfirst).
  now rewrite (splitFrom_firstOccurrence _ _ _ _ Htag Hfirst).
Qed.

Lemma absent_by_split (tag s : string) :
  tag <> "" -> snd (splitFrom tag 0 s) = [] -> ~ occursIn tag s.
Proof. intros Htag Hsplit Hocc. now apply (occursIn_split tag s). Qed.

Lemma firstOccurrence_by_split (tag s before after : string) :
  tag <> "" -> s = before +:+ tag +:+ after ->
  fst (splitFrom tag 0 s) = before -> firstOccurrence tag s before after.
Proof.
  intros Htag E Hsplit.
  destruct (occursIn_firstOccurrence tag s) as (before' & after' & Hfirst).
  { now exists before, after. }
  rewrite (splitFrom_firstOccurrence _ _ _ _ Htag Hfirst) in Hsplit.
  cbn [fst] in Hsplit. subst before'.
  destruct Hfirst as [E' Hmin]. rewrite E in E'.
  apply (inj (String.app before)), (inj (String.app tag)) in E'.
  subst after'. now split.
Qed.

(** ** The cut *)

Lemma cut_unset (content : string) (cutTag : option string) :
  Core.isSet cutTag = false -> Core.cut content cutTag = (VUndefined, VUndefined).
Proof. unfold Core.cut. now intros ->. Qed.

Lemma cut_absent (content tag : string) :
  tag <> "" -> ~ occursIn tag content ->
  Core.cut content (Some tag) = (VStr content, VUndefined).
Proof.
  intros Htag Hocc. unfold Core.cut.
  change (default "" (Some tag)) with tag. unfold Core.isSet, strSplit.
  apply String.eqb_neq in Htag. rewrite Htag. cbn [negb].
  now rewrite splitFrom_absent.
Qed.

Lemma cut_present (content tag before after : string) :
  tag <> "" -> firstOccurrence tag content before after ->
  Core.cut content (Some tag) = (VStr before, VStr (fst (splitFrom tag 0 after))).
Proof.
  intros Htag Hfirst. unfold Core.cut.
  change (default "" (Some tag)) with tag. unfold Core.isSet, strSplit.
  rewrite (splitFrom_firstOccurrence _ _ _ _ Htag Hfirst).
  apply String.eqb_neq in Htag. rewrite Htag. reflexivity.
Qed.

(** The values of the cut are strings or [undefined]. *)
Lemma cut_scalar (content : string) (cutTag : option string) :
  isScalar (fst (Core.cut content cutTag)) = true /\
  isScalar (snd (Core.cut content cutTag)) = true.
Proof.
  unfold Core.cut, Core.element.
  destruct (Core.isSet cutTag); [|now split].
  cbn [fst snd]. split.
  - now destruct (nth_error _ 0).
  - now destruct (nth_error _ 1).
Qed.

(** ** Page parsing *)

(** What [_.merge(attributes, { sourcePath, content, excerpt, more, url })]
    holds under the five structural names. *)
Lemma structural_fields (attributes : object value)
    (filepath content url : string) (excerpt more : value) :
  isScalar excerpt = true -> isScalar more = true ->
  let doc := Lodash.merge attributes
               [[ ("sourcePath", VStr filepath); ("content", VStr content);
                  ("excerpt", excerpt); ("more", more); ("url", VStr url) ]] in
  getProp doc "sourcePath" = VStr filepath /\
  getProp doc "content" = VStr content /\
  getProp doc "url" = VStr url /\
  getProp doc "excerpt"
    = (if isDefined excerpt then excerpt else getProp attributes "excerpt") /\
  getProp doc "more"
    = (if isDefined more then more else getProp attributes "more").
Proof.
  intros He Hm doc. subst doc. unfold Lodash.merge. cbn [fold_left].
  set (src := [("sourcePath", VStr filepath); ("content", VStr content);
               ("excerpt", excerpt); ("more", more); ("url", VStr url)]).
  assert (Hnd : NoDup (ownKeys src)) by (apply (bool_decide_unpack _); reflexivity).
  unfold getProp.
  repeat split.
  - now rewrite (baseMerge_source_wins src attributes "sourcePath" (VStr filepath)).
  - now rewrite (baseMerge_source_wins src attributes "content" (VStr content)).
  - now rewrite (baseMerge_source_wins src attributes "url" (VStr url)).
  - destruct (isDefined excerpt) eqn:Hd.
    + now rewrite (baseMerge_source_wins src attributes "excerpt" excerpt).
    + destruct excerpt; try discriminate.
      now rewrite (baseMerge_undefined_skipped src attributes "excerpt").
  - destruct (isDefined more) eqn:Hd.
    + now rewrite (baseMerge_source_wins src attributes "more" more).
    + destruct more; try discriminate.
      now rewrite (baseMerge_undefined_skipped src attributes "more").
Qed.

Section ParsePage.

Variable fastmatter : string -> result (object value * string).

(** [parsePage] returns when the splitter and the field parsers do, and
    the document is the merge of the structural fields into the parsed
    attributes. *)
Lemma parsePage_returns (source folder filepath : string)
    (options : Core.parseOptions) (attributes parsed : object value)
    (body : string) :
  fastmatter source = Return (attributes, body) ->
  Core.parseCustomFields attributes (Core.fieldParsers options) = Return parsed ->
  let content := Core.renderByType body filepath (Core.renderers options) in
  Core.parsePage fastmatter source folder filepath options
    = Return (Lodash.merge parsed
                [[ ("sourcePath", VStr filepath); ("content", VStr content);
                   ("excerpt", fst (Core.cut content (Core.cutTag options)));
                   ("more", snd (Core.cut content (Core.cutTag options)));
                   ("url", VStr (Core.filepathToUrl filepath)) ]]).
Proof.
  intros Hfm Hparsed content. unfold Core.parsePage.
  rewrite Hfm. cbn [mbind result_bind]. rewrite Hparsed. cbn [mbind result_bind].
  fold content. now destruct (Core.cut content (Core.cutTag options)).
Qed.

(** C2, amended: in the document [parsePage] returns, when no cut tag is
    set [excerpt] and [more] are those of the parsed front matter (absent
    when it has none); when the cut tag is set and does not occur in the
    rendered content, [excerpt] is the whole content and [more] is that of
    the front matter; when it occurs, [excerpt] is everything before its
    first occurrence, and [more] is everything after that occurrence
    provided the cut tag does not occur in it again. *)
Theorem parsePage_cut (source folder filepath : string)
    (options : Core.parseOptions) (attributes parsed : object value)
    (body : string) :
  fastmatter source = Return (attributes, body) ->
  Core.parseCustomFields attributes (Core.fieldParsers options) = Return parsed ->
  let content := Core.renderByType body filepath (Core.renderers options) in
  exists doc,
    Core.parsePage fastmatter source folder filepath options = Return doc /\
    getProp doc "content" = VStr content /\
    (Core.isSet (Core.cutTag options) = false ->
       getProp doc "excerpt" = getProp parsed "excerpt" /\
       getProp doc "more" = getProp parsed "more") /\
    (forall tag, Core.cutTag options = Some tag -> tag <> "" ->
       (~ occursIn tag content ->
          getProp doc "excerpt" = VStr content /\
          getProp doc "more" = getProp parsed "more") /\
       (forall before after, firstOccurrence tag content before after ->
          getProp doc "excerpt" = VStr before /\
          (~ occursIn tag after -> getProp doc "more" = VStr after))).
Proof.
  intros Hfm Hparsed content. eexists. split.
  { exact (parsePage_returns _ _ _ _ _ _ _ Hfm Hparsed). }
  fold content.
  destruct (cut_scalar content (Core.cutTag options)) as [He Hm].
  destruct (structural_fields parsed filepath content
              (Core.filepathToUrl filepath) _ _ He Hm)
    as (_ & Hcontent & _ & Hexcerpt & Hmore).
  split; [exact Hcontent|]. split.
  - intros Hunset. rewrite Hexcerpt, Hmore, (cut_unset _ _ Hunset). now split.
  - intros tag Htag Hne. rewrite Hexcerpt, Hmore, Htag. split.
    + intros Habsent. rewrite (cut_absent _ _ Hne Habsent). now split.
    + intros before after Hfirst. rewrite (cut_present _ _ _ _ Hne Hfirst).
      split; [reflexivity|]. intros Habsent. cbn [snd isDefined].
      now rewrite (splitFrom_absent _ _ Habsent).
Qed.

(** C3, amended: the document [parsePage] returns carries the structural
    [sourcePath], [content] and [url] whatever the front matter defines
    under these names, and the [excerpt] and [more] of the cut whenever
    the cut defines them; a structural [excerpt] or [more] that is
    [undefined] overrides nothing: the front-matter value of that name is
    kept. *)
Theorem parsePage_structural (source folder filepath : string)
    (options : Core.parseOptions) (attributes parsed : object value)
    (body : string) :
  fastmatter source = Return (attributes, body) ->
  Core.parseCustomFields attributes (Core.fieldParsers options) = Return parsed ->
  let content := Core.renderByType body filepath (Core.renderers options) in
  let excerpt := fst (Core.cut content (Core.cutTag options)) in
  let more := snd (Core.cut content (Core.cutTag options)) in
  exists doc,
    Core.parsePage fastmatter source folder filepath options = Return doc /\
    getProp doc "sourcePath" = VStr filepath /\
    getProp doc "content" = VStr content /\
    getProp doc "url" = VStr (Core.filepathToUrl filepath) /\
    (isDefined excerpt = true -> getProp doc "excerpt" = excerpt) /\
    (isDefined more = true -> getProp doc "more" = more) /\
    (isDefined excerpt = false ->
       getProp doc "excerpt" = getProp parsed "excerpt") /\
    (isDefined more = false -> getProp doc "more" = getProp parsed "more").
Proof.
  intros Hfm Hparsed content excerpt more. subst excerpt more.
  eexists. split.
  { exact (parsePage_returns _ _ _ _ _ _ _ Hfm Hparsed). }
  fold content.
  destruct (cut_scalar content (Core.cutTag options)) as [He Hm].
  destruct (structural_fields parsed filepath content
              (Core.filepathToUrl filepath) _ _ He Hm)
    as (Hpath & Hcontent & Hurl & Hexcerpt & Hmore).
  repeat split; try assumption.
  - intros Hd. now rewrite Hexcerpt, Hd.
  - intros Hd. now rewrite Hmore, Hd.
  - intros Hd. now rewrite Hexcerpt, Hd.
  - intros Hd. now rewrite Hmore, Hd.
Qed.

End ParsePage.

Lemma parsePage_cut_witness :
  let fastmatter := fun source : string =>
    Return ([("title", VStr "Hello")], source) in
  let options := {| Core.renderers := []; Core.fieldParsers := [];
                    Core.cutTag := Some "<!--more-->" |} in
  fastmatter "Intro<!--more-->Rest"
    = Return ([("title", VStr "Hello")], "Intro<!--more-->Rest") /\
  Core.parseCustomFields [("title", VStr "Hello")] (Core.fieldParsers options)
    = Return [("title", VStr "Hello")] /\
  exists doc,
    Core.parsePage fastmatter "Intro<!--more-->Rest" "src" "post.md" options
      = Return doc /\
    getProp doc "excerpt" = VStr "Intro" /\
    getProp doc "more" = VStr "Rest".
Proof.
  intros fastmatter options.
  split; [reflexivity|]. split; [reflexivity|].
  destruct (parsePage_cut fastmatter "Intro<!--more-->Rest" "src" "post.md"
              options [("title", VStr "Hello")] [("title", VStr "Hello")]
              "Intro<!--more-->Rest" eq_refl eq_refl)
    as (doc & Hdoc & _ & _ & Hcut).
  exists doc. split; [exact Hdoc|].
  destruct (Hcut "<!--more-->" eq_refl) as [_ Hpresent]; [discriminate|].
  destruct (Hpresent "Intro" "Rest") as [Hexcerpt Hmore].
  - apply firstOccurrence_by_split; [discriminate | reflexivity | reflexivity].
  - split; [exact Hexcerpt|]. apply Hmore.
    apply absent_by_split; [discriminate | reflexivity].
Defined.

(** C2, as stated, at a content without the cut tag: the cut tag is set
    and does not occur in the rendered content, and the document has an
    [excerpt], the whole content. *)
Lemma parsePage_excerpt_without_cut :
  let fastmatter := fun source : string =>
    Return ([("title", VStr "Hello")], source) in
  let options := {| Core.renderers := []; Core.fieldParsers := [];
                    Core.cutTag := Some "<!--more-->" |} in
  exists doc,
    Core.parsePage fastmatter "No cut here" "src" "post.md" options
      = Return doc /\
    getProp doc "content" = VStr "No cut here" /\
    ~ occursIn "<!--more-->" "No cut here" /\
    getProp doc "excerpt" = VStr "No cut here" /\
    getProp doc "excerpt" <> VUndefined.
Proof.
  intros fastmatter options. eexists. split; [reflexivity|].
  split; [reflexivity|]. split.
  - apply absent_by_split; [discriminate | reflexivity].
  - split; [reflexivity | discriminate].
Qed.

(** With the cut tag twice in the content, [more] is the text between the
    first and the second occurrence. *)
Example cut_twice :
  Core.cut "a<cut>b<cut>c" (Some "<cut>") = (VStr "a", VStr "b").
Proof. reflexivity. Qed.

Lemma parsePage_structural_witness :
  let fastmatter := fun source : string =>
    Return ([("title", VStr "Hello"); ("url", VStr "/custom");
             ("excerpt", VStr "Custom teaser")], source) in
  let options := {| Core.renderers := []; Core.fieldParsers := [];
                    Core.cutTag := Some "<!--more-->" |} in
  let attributes := [("title", VStr "Hello"); ("url", VStr "/custom");
                     ("excerpt", VStr "Custom teaser")] in
  fastmatter "Intro<!--more-->Rest" = Return (attributes, "Intro<!--more-->Rest") /\
  Core.parseCustomFields attributes (Core.fieldParsers options)
    = Return attributes /\
  exists doc,
    Core.parsePage fastmatter "Intro<!--more-->Rest" "src" "posts/index.md" options
      = Return doc /\
    getProp doc "sourcePath" = VStr "posts/index.md" /\
    getProp doc "content" = VStr "Intro<!--more-->Rest" /\
    getProp doc "url" = VStr "/posts" /\
    getProp doc "excerpt" = VStr "Intro" /\
    getProp doc "more" = VStr "Rest".
Proof.
  intros fastmatter options attributes.
  split; [reflexivity|]. split; [reflexivity|].
  destruct (parsePage_structural fastmatter "Intro<!--more-->Rest" "src"
              "posts/index.md" options attributes attributes
              "Intro<!--more-->Rest" eq_refl eq_refl)
    as (doc & Hdoc & Hpath & Hcontent & Hurl & Hexcerpt & Hmore & _).
  exists doc. split; [exact Hdoc|]. split; [exact Hpath|].
  split; [exact Hcontent|]. split; [exact Hurl|].
  split; [exact (Hexcerpt eq_refl) | exact (Hmore eq_refl)].
Defined.

(** C3, as stated, at a front matter that defines [excerpt] with no cut
    tag set: the structural [excerpt] is [undefined], and the document
    carries the front-matter value. *)
Lemma parsePage_front_matter_excerpt_kept :
  let fastmatter := fun source : string =>
    Return ([("title", VStr "Hello"); ("excerpt", VStr "Custom teaser")],
            source) in
  let options := {| Core.renderers := []; Core.fieldParsers := [];
                    Core.cutTag := None |} in
  exists doc,
    Core.parsePage fastmatter "Body" "src" "post.md" options = Return doc /\
    Core.cut "Body" (Core.cutTag options) = (VUndefined, VUndefined) /\
    getProp doc "excerpt" = VStr "Custom teaser" /\
    getProp doc "excerpt" <> fst (Core.cut "Body" (Core.cutTag options)).
Proof.
  intros fastmatter options. eexists. split; [reflexivity|].
  split; [reflexivity|]. split; [reflexivity | discriminate].
Qed.

(** ** Custom field parsing *)

Lemma parseEach_throws (attributes : object value)
    (before after : object Core.fieldParser) (name : string)
    (parse : Core.fieldParser) (e : exn) (parsedAttributes : object value) :
  (forall n p, (n, p) ∈ before -> exists v, p (getProp attributes n) = Return v) ->
  parse (getProp attributes name) = Throw e ->
  Core.parseEach attributes (before ++ (name, parse) :: after) parsedAttributes
    = Throw e.
Proof.
  revert parsedAttributes.
  induction before as [|[n p] before IH]; intros parsedAttributes Hbefore Hthrow.
  - simpl. now rewrite Hthrow.
  - simpl. destruct (Hbefore n p) as [v Hv]; [apply elem_of_cons; now left|].
    rewrite Hv. cbn [mbind result_bind]. apply IH; [|assumption].
    intros n' p' Hin. apply Hbefore. apply elem_of_cons. now right.
Qed.

(** C4, amended: if a parser transform throws, the transforms before it in
    the parser mapping having returned, [parseCustomFields] (and hence
    [parsePage]) fails with the very error the transform threw, neither
    wrapped nor tagged with the name of the field. *)
Theorem parseCustomFields_throws (attributes : object value)
    (before after : object Core.fieldParser) (name : string)
    (parse : Core.fieldParser) (e : exn) :
  (forall n p, (n, p) ∈ before -> exists v, p (getProp attributes n) = Return v) ->
  parse (getProp attributes name) = Throw e ->
  Core.parseCustomFields attributes (before ++ (name, parse) :: after) = Throw e
  /\ forall fastmatter source folder filepath body renderers cutTag,
       fastmatter source = Return (attributes, body) ->
       Core.parsePage fastmatter source folder filepath
         {| Core.renderers := renderers;
            Core.fieldParsers := before ++ (name, parse) :: after;
            Core.cutTag := cutTag |} = Throw e.
Proof.
  intros Hbefore Hthrow.
  assert (H : Core.parseCustomFields attributes (before ++ (name, parse) :: after)
              = Throw e).
  { unfold Core.parseCustomFields.
    now rewrite (parseEach_throws _ _ _ _ _ e [] Hbefore Hthrow). }
  split; [exact H|].
  intros fastmatter source folder filepath body renderers cutTag Hfm.
  unfold Core.parsePage. rewrite Hfm. cbn [mbind result_bind Core.fieldParsers].
  now rewrite H.
Qed.

Lemma parseCustomFields_throws_witness :
  let upper : Core.fieldParser := fun v => Return (VStr "HELLO") in
  let date : Core.fieldParser := fun v => Throw (Error "Invalid date") in
  let attributes := [("title", VStr "hello"); ("date", VStr "yesterday")] in
  date (getProp attributes "date") = Throw (Error "Invalid date") /\
  Core.parseCustomFields attributes [("title", upper); ("date", date)]
    = Throw (Error "Invalid date").
Proof.
  intros upper date attributes. split; [reflexivity|].
  apply (parseCustomFields_throws attributes [("title", upper)] [] "date" date
           (Error "Invalid date")).
  - intros n p Hin. apply list_elem_of_singleton in Hin. inversion Hin.
    now exists (VStr "HELLO").
  - reflexivity.
Defined.

(** C4, as stated, at a parser that throws [Error("Invalid date")]: under
    the field [date] and under the field [published] the failure is that
    same error, named [Error], which says nothing of the field. *)
Lemma parseCustomFields_error_not_tagged :
  let parse : Core.fieldParser := fun v => Throw (Error "Invalid date") in
  Core.parseCustomFields [("date", VStr "yesterday")] [("date", parse)]
    = Throw (Error "Invalid date") /\
  Core.parseCustomFields [("published", VStr "yesterday")] [("published", parse)]
    = Throw (Error "Invalid date") /\
  exn_name (Error "Invalid date") <> "FieldParseError".
Proof. repeat split; try reflexivity. discriminate. Qed.

(** ** Configs *)

Lemma readConfigFiles_no_base_lang (readYamlFile : string -> object value)
    (files : list string) :
  "base" ∉ ownKeys (Core.langs (Core.readConfigFiles readYamlFile files)).
Proof.
  unfold Core.readConfigFiles.
  assert (H : forall init, "base" ∉ ownKeys (Core.langs init) ->
            "base" ∉ ownKeys (Core.langs
              (fold_left (Core.readConfigFile readYamlFile) files init))).
  { induction files as [|f files IH]; intros init Hinit; [exact Hinit|].
    cbn [fold_left]. apply IH. unfold Core.readConfigFile.
    destruct (String.eqb _ "base") eqn:E; cbn [Core.langs]; [exact Hinit|].
    rewrite ownKeys_setProp. apply String.eqb_neq in E.
    intros [Heq | Hin]; [congruence | contradiction]. }
  apply H. cbn. apply not_elem_of_nil.
Qed.

(** The language codes are the names of the config files other than
    [base]. *)
Lemma readConfigFiles_langs (readYamlFile : string -> object value)
    (files : list string) (lang : string) :
  lang ∈ ownKeys (Core.langs (Core.readConfigFiles readYamlFile files)) <->
  lang <> "base" /\
  exists filepath, filepath ∈ files /\
    Util.removeExtension (Core.basename filepath) = lang.
Proof.
  unfold Core.readConfigFiles.
  assert (H : forall init,
            lang ∈ ownKeys (Core.langs
              (fold_left (Core.readConfigFile readYamlFile) files init)) <->
            lang ∈ ownKeys (Core.langs init) \/
            (lang <> "base" /\ exists filepath, filepath ∈ files /\
               Util.removeExtension (Core.basename filepath) = lang)).
  { induction files as [|f files IH]; intros init.
    - cbn [fold_left]. split; [now left|].
      intros [H | (_ & f & Hf & _)]; [exact H|]. now apply elem_of_nil in Hf.
    - cbn [fold_left]. rewrite IH. unfold Core.readConfigFile.
      destruct (String.eqb _ "base") eqn:E; cbn [Core.langs].
      + apply String.eqb_eq in E. split.
        * intros [H | (Hne & f' & Hf' & Hname)]; [now left|].
          right. split; [exact Hne|]. exists f'. split; [|exact Hname].
          apply elem_of_cons. now right.
        * intros [H | (Hne & f' & Hf' & Hname)]; [now left|].
          apply elem_of_cons in Hf' as [-> | Hf']; [congruence|].
          right. split; [exact Hne|]. now exists f'.
      + apply String.eqb_neq in E. rewrite ownKeys_setProp. split.
        * intros [[-> | H] | (Hne & f' & Hf' & Hname)].
          -- right. split; [exact E|]. exists f. split; [|reflexivity].
             apply elem_of_cons. now left.
          -- now left.
          -- right. split; [exact Hne|]. exists f'. split; [|exact Hname].
             apply elem_of_cons. now right.
        * intros [H | (Hne & f' & Hf' & Hname)]; [left; now right|].
          apply elem_of_cons in Hf' as [-> | Hf'].
          -- left. left. now symmetry.
          -- right. split; [exact Hne|]. now exists f'. }
  rewrite H. cbn [Core.langs ownKeys map]. rewrite elem_of_nil. tauto.
Qed.

Lemma mergeLang_fold (configs : Core.Configs) (langs : list string)
    (merged : object (object value)) (k : string) :
  ownProp (fold_left (Core.mergeLang configs) langs merged) k
    = if bool_decide (k ∈ langs)
      then Some (Lodash.merge []
                   [Core.base configs;
                    default [] (ownProp (Core.langs configs) k)])
      else ownProp merged k.
Proof.
  revert merged. induction langs as [|lang langs IH]; intros merged.
  - cbn [fold_left]. rewrite bool_decide_eq_false_2; [reflexivity|].
    apply not_elem_of_nil.
  - cbn [fold_left]. rewrite IH.
    destruct (bool_decide (k ∈ langs)) eqn:E.
    + apply bool_decide_eq_true in E. rewrite bool_decide_eq_true_2; [reflexivity|].
      apply elem_of_cons. now right.
    + apply bool_decide_eq_false in E. unfold Core.mergeLang at 1.
      rewrite ownProp_setProp. destruct (String.eqb lang k) eqn:Ek.
      * apply String.eqb_eq in Ek. subst lang.
        rewrite bool_decide_eq_true_2; [reflexivity|]. apply elem_of_cons. now left.
      * apply String.eqb_neq in Ek. rewrite bool_decide_eq_false_2; [reflexivity|].
        rewrite elem_of_cons. intros [-> | H]; [congruence | contradiction].
Qed.

(** With at least one language, [mergeConfigs] keeps [base] next to the
    merged languages. *)
Lemma mergeConfigs_langs (configs : Core.Configs) :
  Core.langs configs <> [] ->
  let result := Core.mergeConfigs configs in
  (forall k, k ∈ ownKeys result <-> k = "base" \/ k ∈ ownKeys (Core.langs configs)) /\
  (forall lang overlay, ownProp (Core.langs configs) lang = Some overlay ->
     ownProp result lang
       = Some (Lodash.merge [] [Core.base configs; overlay])) /\
  ("base" ∉ ownKeys (Core.langs configs) ->
     ownProp result "base" = Some (Core.base configs)).
Proof.
  intros Hlangs result. subst result. unfold Core.mergeConfigs.
  destruct (Core.langs configs) as [|l ls] eqn:El; [congruence|].
  cbn [Lodash.isEmpty]. rewrite <- El. clear Hlangs.
  split; [|split].
  - intros k. rewrite ownProp_In, mergeLang_fold.
    destruct (bool_decide (k ∈ ownKeys (Core.langs configs))) eqn:E.
    + apply bool_decide_eq_true in E. split; [now right | eauto].
    + apply bool_decide_eq_false in E. cbn [ownProp].
      destruct (String.eqb "base" k) eqn:Ek.
      * apply String.eqb_eq in Ek. split; [now left | eauto].
      * apply String.eqb_neq in Ek. split; [intros [v Hv]; discriminate|].
        intros [-> | H]; [congruence | contradiction].
  - intros lang overlay Hoverlay. rewrite mergeLang_fold.
    rewrite bool_decide_eq_true_2 by (apply ownProp_In; eauto).
    now rewrite Hoverlay.
  - intros Hbase. rewrite mergeLang_fold.
    rewrite bool_decide_eq_false_2 by assumption. reflexivity.
Qed.

Lemma readConfigFiles_overlay (readYamlFile : string -> object value)
    (files : list string) (lang : string) (overlay : object value) :
  ownProp (Core.langs (Core.readConfigFiles readYamlFile files)) lang
    = Some overlay ->
  exists filepath, filepath ∈ files /\
    Util.removeExtension (Core.basename filepath) = lang /\
    overlay = readYamlFile filepath.
Proof.
  unfold Core.readConfigFiles.
  assert (H : forall init,
            ownProp (Core.langs
              (fold_left (Core.readConfigFile readYamlFile) files init)) lang
              = Some overlay ->
            ownProp (Core.langs init) lang = Some overlay \/
            exists filepath, filepath ∈ files /\
              Util.removeExtension (Core.basename filepath) = lang /\
              overlay = readYamlFile filepath).
  { induction files as [|f files IH]; intros init Hlang; [now left|].
    cbn [fold_left] in Hlang. destruct (IH _ Hlang) as [H | (f' & Hf' & Hname)].
    - unfold Core.readConfigFile in H.
      destruct (String.eqb _ "base") eqn:E; cbn [Core.langs] in H; [now left|].
      rewrite ownProp_setProp in H.
      destruct (String.eqb _ lang) eqn:El; [|now left].
      apply String.eqb_eq in El. inversion H. right. exists f.
      split; [apply elem_of_cons; now left | now split].
    - right. exists f'. split; [apply elem_of_cons; now right | exact Hname]. }
  intros Hlang. destruct (H _ Hlang) as [Habs | Hfile]; [discriminate | exact Hfile].
Qed.

(** C1, amended: for every configs folder with at least one config file
    other than [base.yml], [loadConfig] returns a mapping whose keys are
    the language codes together with [base]; each language code is mapped
    to the deep merge of the base config with that language's overlay, in
    which a defined scalar of the overlay wins over the base, and [base] is
    mapped to the base config itself. *)
Theorem loadConfig_overlays (globYml : string -> list string)
    (readYamlFile : string -> object value) (folder : string) :
  let files := globYml folder in
  let configs := Core.readConfigFiles readYamlFile files in
  (exists filepath, filepath ∈ files /\
     Util.removeExtension (Core.basename filepath) <> "base") ->
  let result := Core.loadConfig globYml readYamlFile folder in
  (forall k, k ∈ ownKeys result <->
     k = "base" \/
     (k <> "base" /\ exists filepath, filepath ∈ files /\
        Util.removeExtension (Core.basename filepath) = k)) /\
  ownProp result "base" = Some (Core.base configs) /\
  (forall lang overlay,
     ownProp (Core.langs configs) lang = Some overlay ->
     (exists filepath, filepath ∈ files /\
        Util.removeExtension (Core.basename filepath) = lang /\
        overlay = readYamlFile filepath) /\
     ownProp result lang = Some (Lodash.merge [] [Core.base configs; overlay]) /\
     (forall k v, NoDup (ownKeys overlay) -> ownProp overlay k = Some v ->
        isScalar v = true -> isDefined v = true ->
        getProp (Lodash.merge [] [Core.base configs; overlay]) k = v)).
Proof.
  intros files configs (f & Hf & Hname) result.
  assert (Hlangs : Core.langs configs <> []).
  { intros Hnil.
    assert (Hin : Util.removeExtension (Core.basename f)
                  ∈ ownKeys (Core.langs configs)).
    { apply readConfigFiles_langs. split; [exact Hname|]. now exists f. }
    rewrite Hnil in Hin. now apply elem_of_nil in Hin. }
  destruct (mergeConfigs_langs configs Hlangs) as (Hkeys & Hlang & Hbase).
  split; [|split].
  - intros k. unfold result, Core.loadConfig. fold files. fold configs.
    rewrite Hkeys. unfold configs. now rewrite readConfigFiles_langs.
  - apply Hbase. apply readConfigFiles_no_base_lang.
  - intros lang overlay Hoverlay. split; [|split].
    + now apply readConfigFiles_overlay.
    + now apply Hlang.
    + intros k v Hnd Hk Hs Hd. unfold getProp, Lodash.merge. cbn [fold_left].
      now rewrite (baseMerge_source_wins overlay _ k v).
Qed.

Lemma loadConfig_overlays_witness :
  let globYml := fun folder : string =>
    [folder +:+ "/base.yml"; folder +:+ "/en.yml"] in
  let readYamlFile := fun filepath : string =>
    if String.eqb filepath "config/base.yml"
    then [("theme", VStr "x"); ("title", VStr "Site")]
    else [("title", VStr "Hi")] in
  (exists filepath, filepath ∈ globYml "config" /\
     Util.removeExtension (Core.basename filepath) <> "base") /\
  ownProp (Core.loadConfig globYml readYamlFile "config") "base"
    = Some [("theme", VStr "x"); ("title", VStr "Site")] /\
  ownProp (Core.loadConfig globYml readYamlFile "config") "en"
    = Some (Lodash.merge [] [[("theme", VStr "x"); ("title", VStr "Site")];
                             [("title", VStr "Hi")]]).
Proof.
  intros globYml readYamlFile.
  assert (Hfile : exists filepath, filepath ∈ globYml "config" /\
            Util.removeExtension (Core.basename filepath) <> "base").
  { exists "config/en.yml". split.
    - apply elem_of_cons. right. apply elem_of_cons. now left.
    - vm_compute. discriminate. }
  split; [exact Hfile|].
  destruct (loadConfig_overlays globYml readYamlFile "config" Hfile)
    as (_ & Hbase & Hlang).
  split; [exact Hbase|].
  destruct (Hlang "en" [("title", VStr "Hi")] eq_refl) as (_ & Hen & _).
  exact Hen.
Defined.

(** C1, as stated, at the folder of the spec's example: [base.yml] holds
    [{theme: "x"}], [en.yml] holds [{title: "Hi"}], and the mapping
    [loadConfig] returns has the top-level key [base]. *)
Lemma loadConfig_keeps_base :
  let globYml := fun folder : string =>
    [folder +:+ "/base.yml"; folder +:+ "/en.yml"] in
  let readYamlFile := fun filepath : string =>
    if String.eqb filepath "config/base.yml"
    then [("theme", VStr "x")]
    else [("title", VStr "Hi")] in
  Core.loadConfig globYml readYamlFile "config"
    = [("base", [("theme", VStr "x")]);
       ("en", [("theme", VStr "x"); ("title", VStr "Hi")])] /\
  hasOwn (Core.loadConfig globYml readYamlFile "config") "base" = true /\
  ownKeys (Core.loadConfig globYml readYamlFile "config") <> ["en"].
Proof. repeat split; try reflexivity. vm_compute. discriminate. Qed.

(** ** Pagination *)

Lemma lookup_map {A B} (f : A -> B) (l : list A) (i : nat) :
  map f l !! i = f <$> (l !! i).
Proof.
  revert i. induction l as [|x l IH]; intros [|i]; simpl; auto.
Qed.

(** [Math.ceil(n / k)] is the least number of pages of [k] that hold [n]. *)
Lemma ceilDiv_bounds (n k : Z) :
  0 < k -> (Core.ceilDiv n k - 1) * k < n <= Core.ceilDiv n k * k.
Proof.
  intros Hk. unfold Core.ceilDiv.
  pose proof (Z.div_mod (- n) k ltac:(lia)) as Hdiv.
  pose proof (Z.mod_pos_bound (- n) k Hk) as Hmod.
  nia.
Qed.

Lemma slice_window {A} (l : list A) (b k : Z) :
  0 <= b -> 0 < k -> b <= Z.of_nat (length l) ->
  slice l b (b + k) = take (Z.to_nat k) (drop (Z.to_nat b) l).
Proof.
  intros Hb Hk Hlen. unfold slice.
  replace (b <? 0) with false by (symmetry; apply Z.ltb_ge; lia).
  replace (b + k <? 0) with false by (symmetry; apply Z.ltb_ge; lia).
  rewrite (Z.min_l b) by lia.
  destruct (Z.le_gt_cases (b + k) (Z.of_nat (length l))) as [Hin | Hout].
  - rewrite Z.min_l by lia. f_equal. lia.
  - rewrite Z.min_r by lia.
    rewrite !take_ge; [reflexivity | |]; rewrite length_drop; lia.
Qed.

Lemma paginate_valid (documents : list Core.Document) (urlPrefix : string)
    (k : Z) (layout : string) :
  urlPrefix <> "" -> k <> 0 -> layout <> "" ->
  Core.paginate documents
    {| Core.urlPrefix := Some urlPrefix; Core.documentsPerPage := Some k;
       Core.layout := Some layout |}
  = Return (map (Core.makePage documents urlPrefix k layout
                   (Core.ceilDiv (Z.of_nat (length documents)) k))
                (Lodash.range (Core.ceilDiv (Z.of_nat (length documents)) k))).
Proof.
  intros Hu Hk Hl. unfold Core.paginate. cbn.
  apply String.eqb_neq in Hu, Hl. apply Z.eqb_neq in Hk.
  now rewrite Hu, Hk, Hl.
Qed.

(** C7: for valid options with [documentsPerPage] a positive [k],
    [paginate] returns [ceil(n/k)] pages, page [i] (from 1) having the url
    [urlPrefix + "/page/" + i], no [previousUrl] on page 1 and the url of
    page [i-1] otherwise, no [nextUrl] on the last page and the url of
    page [i+1] otherwise, the documents from [(i-1)*k] up to [i*k], the
    url without its leading slash as [sourcePath], and the given layout;
    no documents give no pages. *)
Theorem paginate_pages (documents : list Core.Document) (urlPrefix : string)
    (k : Z) (layout : string) :
  urlPrefix <> "" -> 0 < k -> layout <> "" ->
  let n := Z.of_nat (length documents) in
  let total := Core.ceilDiv n k in
  let pageUrl := fun i : Z => urlPrefix +:+ "/page/" +:+ pretty i in
  exists pages,
    Core.paginate documents
      {| Core.urlPrefix := Some urlPrefix; Core.documentsPerPage := Some k;
         Core.layout := Some layout |} = Return pages /\
    Z.of_nat (length pages) = total /\
    (total - 1) * k < n <= total * k /\
    (documents = [] -> pages = []) /\
    forall i, 1 <= i <= total ->
      exists page,
        pages !! Z.to_nat (i - 1) = Some page /\
        Core.url page = pageUrl i /\
        Core.previousUrl page = (if i =? 1 then None else Some (pageUrl (i - 1))) /\
        Core.nextUrl page = (if i =? total then None else Some (pageUrl (i + 1))) /\
        Core.documents page
          = take (Z.to_nat k) (drop (Z.to_nat ((i - 1) * k)) documents) /\
        (forall j, (j < Z.to_nat k)%nat ->
           Core.documents page !! j = documents !! (Z.to_nat ((i - 1) * k) + j)%nat) /\
        Core.sourcePath page = Core.stripLeadingSlash (pageUrl i) /\
        (forall rest, urlPrefix = String "/" rest ->
           Core.sourcePath page = rest +:+ "/page/" +:+ pretty i) /\
        Core.pageLayout page = layout.
Proof.
  intros Hu Hk Hl n total pageUrl.
  pose proof (ceilDiv_bounds n k Hk) as Hbounds. fold total in Hbounds.
  assert (Hn : 0 <= n) by (unfold n; lia).
  assert (Htotal : 0 <= total) by nia.
  eexists. split; [apply paginate_valid; [assumption | lia | assumption]|].
  fold n. fold total. split; [|split; [exact Hbounds|split]].
  - rewrite length_map. unfold Lodash.range. rewrite length_seqZ. lia.
  - intros ->. cbn in n. assert (total = 0) as -> by (subst n; nia).
    reflexivity.
  - intros i Hi.
    exists (Core.makePage documents urlPrefix k layout total (i - 1)).
    split.
    { rewrite lookup_map. unfold Lodash.range.
      rewrite lookup_seqZ_lt by lia. cbn. do 2 f_equal. lia. }
    unfold Core.makePage, Core.getPageNumberUrl. cbn.
    replace (i - 1 + 1) with i by lia.
    assert (Hslice : slice documents ((i - 1) * k) ((i - 1) * k + k)
                     = take (Z.to_nat k) (drop (Z.to_nat ((i - 1) * k)) documents)).
    { apply slice_window; fold n; nia. }
    rewrite Hslice.
    repeat split.
    + destruct (Z.eqb_spec i 1) as [-> | Hne]; [reflexivity|].
      replace (1 <? i) with true by (symmetry; apply Z.ltb_lt; lia).
      reflexivity.
    + destruct (Z.eqb_spec i total) as [-> | Hne].
      * now rewrite Z.ltb_irrefl.
      * replace (i <? total) with true by (symmetry; apply Z.ltb_lt; lia).
        reflexivity.
    + intros j Hj. now rewrite lookup_take_lt, lookup_drop.
    + intros rest ->. reflexivity.
Qed.

Lemma paginate_pages_witness :
  let documents : list Core.Document :=
    [[("title", VStr "a")]; [("title", VStr "b")]; [("title", VStr "c")];
     [("title", VStr "d")]; [("title", VStr "e")]] in
  "/blog" <> "" /\ 0 < 2 /\ "list" <> "" /\
  exists pages,
    Core.paginate documents
      {| Core.urlPrefix := Some "/blog"; Core.documentsPerPage := Some 2;
         Core.layout := Some "list" |} = Return pages /\
    Z.of_nat (length pages) = 3.
Proof.
  intros documents.
  split; [discriminate|]. split; [lia|]. split; [discriminate|].
  destruct (paginate_pages documents "/blog" 2 "list")
    as (pages & Hpages & Hlength & _); [discriminate | lia | discriminate |].
  exists pages. split; [exact Hpages | exact Hlength].
Defined.

(** The example of the spec: five documents, two per page. *)
Example paginate_five_by_two :
  Core.paginate (repeat [] 5)
    {| Core.urlPrefix := Some "/blog"; Core.documentsPerPage := Some 2;
       Core.layout := Some "list" |}
  = Return
      [ {| Core.previousUrl := None; Core.nextUrl := Some "/blog/page/2";
           Core.sourcePath := "blog/page/1"; Core.documents := [[]; []];
           Core.pageLayout := "list"; Core.url := "/blog/page/1" |};
        {| Core.previousUrl := Some "/blog/page/1";
           Core.nextUrl := Some "/blog/page/3";
           Core.sourcePath := "blog/page/2"; Core.documents := [[]; []];
           Core.pageLayout := "list"; Core.url := "/blog/page/2" |};
        {| Core.previousUrl := Some "/blog/page/2"; Core.nextUrl := None;
           Core.sourcePath := "blog/page/3"; Core.documents := [[]];
           Core.pageLayout := "list"; Core.url := "/blog/page/3" |} ].
Proof. reflexivity. Qed.

Lemma paginate_cases (documents : list Core.Document)
    (options : Core.paginateOptions) :
  (Core.isSet (Core.urlPrefix options) = false ->
     Core.paginate documents options = Throw (Core.notSpecified "urlPrefix")) /\
  (Core.isSet (Core.urlPrefix options) = true ->
   Core.isNonZero (Core.documentsPerPage options) = false ->
     Core.paginate documents options
       = Throw (Core.notSpecified "documentsPerPage")) /\
  (Core.isSet (Core.urlPrefix options) = true ->
   Core.isNonZero (Core.documentsPerPage options) = true ->
   Core.isSet (Core.layout options) = false ->
     Core.paginate documents options = Throw (Core.notSpecified "layout")) /\
  (Core.isSet (Core.urlPrefix options) = true ->
   Core.isNonZero (Core.documentsPerPage options) = true ->
   Core.isSet (Core.layout options) = true ->
     exists pages, Core.paginate documents options = Return pages).
Proof.
  unfold Core.paginate. repeat split.
  - now intros ->.
  - now intros -> ->.
  - now intros -> -> ->.
  - intros -> -> ->. eexists. reflexivity.
Qed.

Lemma isSet_false (s : option string) :
  Core.isSet s = false <-> s = None \/ s = Some "".
Proof.
  destruct s as [s|]; cbn [Core.isSet].
  - rewrite negb_false_iff, String.eqb_eq. split.
    + intros ->. now right.
    + intros [H | H]; congruence.
  - split; auto.
Qed.

Lemma isNonZero_false (n : option Z) :
  Core.isNonZero n = false <-> n = None \/ n = Some 0.
Proof.
  destruct n as [n|]; cbn [Core.isNonZero].
  - rewrite negb_false_iff, Z.eqb_eq. split.
    + intros ->. now right.
    + intros [H | H]; congruence.
  - split; auto.
Qed.

Lemma notSpecified_message (option : string) :
  Core.notSpecified option
    = {| exn_name := "Error";
         exn_message :=
           String "034" (option +:+ String "034" " not specified for paginate().") |}.
Proof. reflexivity. Qed.

(** C8, as stated, at options without [urlPrefix]: what [paginate] throws
    is named [Error], not [ConfigurationError]. *)
Lemma paginate_error_not_configuration_error :
  let options := {| Core.urlPrefix := None; Core.documentsPerPage := Some 2;
                    Core.layout := Some "list" |} in
  exists e, Core.paginate [] options = Throw e /\
    exn_name e = "Error" /\ exn_name e <> "ConfigurationError".
Proof.
  eexists. split; [reflexivity|]. split; [reflexivity | discriminate].
Qed.

(** C8: [paginate] throws exactly when one of [urlPrefix],
    [documentsPerPage], [layout] is missing or falsy (the empty string,
    zero), and returns otherwise.  What it throws is a plain [Error] whose
    message is the name of the first such option, in this order, between
    double quotes, followed by [ not specified for paginate().] *)
Theorem paginate_missing_option (documents : list Core.Document)
    (options : Core.paginateOptions) :
  let falsyPrefix :=
    Core.urlPrefix options = None \/ Core.urlPrefix options = Some "" in
  let falsyPerPage :=
    Core.documentsPerPage options = None \/
    Core.documentsPerPage options = Some 0 in
  let falsyLayout :=
    Core.layout options = None \/ Core.layout options = Some "" in
  let missing := falsyPrefix \/ falsyPerPage \/ falsyLayout in
  let error (option : string) : exn :=
    {| exn_name := "Error";
       exn_message :=
         String "034" (option +:+ String "034" " not specified for paginate().") |} in
  ((exists e, Core.paginate documents options = Throw e) <-> missing) /\
  ((exists pages, Core.paginate documents options = Return pages)
   <-> ~ missing) /\
  (forall e, Core.paginate documents options = Throw e ->
     exists option, option ∈ ["urlPrefix"; "documentsPerPage"; "layout"] /\
       e = error option /\ occursIn option (exn_message e)) /\
  (falsyPrefix -> Core.paginate documents options = Throw (error "urlPrefix")) /\
  (~ falsyPrefix -> falsyPerPage ->
     Core.paginate documents options = Throw (error "documentsPerPage")) /\
  (~ falsyPrefix -> ~ falsyPerPage -> falsyLayout ->
     Core.paginate documents options = Throw (error "layout")).
Proof.
  intros falsyPrefix falsyPerPage falsyLayout missing error.
  subst falsyPrefix falsyPerPage falsyLayout missing.
  rewrite <- !isSet_false, <- !isNonZero_false.
  destruct (paginate_cases documents options) as (Hu & Hk & Hl & Hok).
  rewrite !notSpecified_message in Hu, Hk, Hl. fold (error "urlPrefix") in Hu.
  fold (error "documentsPerPage") in Hk. fold (error "layout") in Hl.
  assert (Hin : forall option, occursIn option (exn_message (error option))).
  { intros option. exists (String "034" ""), (String "034" " not specified for paginate().").
    reflexivity. }
  assert (Hmem : forall option,
            option ∈ ["urlPrefix"; "documentsPerPage"; "layout"] ->
            forall e, Throw (A := list Core.page) (error option) = Throw e ->
            exists option, option ∈ ["urlPrefix"; "documentsPerPage"; "layout"] /\
              e = error option /\ occursIn option (exn_message e)).
  { intros option Hoption e He. exists option. split; [exact Hoption|].
    injection He as <-. split; [reflexivity | apply Hin]. }
  destruct (Core.isSet (Core.urlPrefix options)) eqn:Eu;
    [destruct (Core.isNonZero (Core.documentsPerPage options)) eqn:Ek;
     [destruct (Core.isSet (Core.layout options)) eqn:El|]|].
  - destruct (Hok eq_refl eq_refl eq_refl) as [pages Hpages].
    rewrite Hpages. repeat split.
    + intros [e He]. discriminate.
    + intros [H | [H | H]]; discriminate.
    + intros _ [H | [H | H]]; discriminate.
    + eauto.
    + intros e He. discriminate.
    + intros H; discriminate.
    + intros _ H; discriminate.
    + intros _ _ H; discriminate.
  - rewrite (Hl eq_refl eq_refl eq_refl). repeat split.
    + auto.
    + eauto.
    + intros [pages H]. discriminate.
    + intros H. exfalso. apply H. auto.
    + apply Hmem. repeat constructor.
    + intros H; discriminate.
    + intros _ H; discriminate.
  - rewrite (Hk eq_refl eq_refl). repeat split.
    + auto.
    + eauto.
    + intros [pages H]. discriminate.
    + intros H. exfalso. apply H. auto.
    + apply Hmem. repeat constructor.
    + intros H; discriminate.
    + intros _ H. exfalso. now apply H.
  - rewrite (Hu eq_refl). repeat split.
    + auto.
    + eauto.
    + intros [pages H]. discriminate.
    + intros H. exfalso. apply H. auto.
    + apply Hmem. repeat constructor.
    + intros H. exfalso. now apply H.
    + intros H. exfalso. now apply H.
Qed.

Lemma paginate_missing_option_witness :
  let error (option : string) : exn :=
    {| exn_name := "Error";
       exn_message :=
         String "034" (option +:+ String "034" " not specified for paginate().") |} in
  Core.paginate [[]; []]
    {| Core.urlPrefix := Some ""; Core.documentsPerPage := Some 2;
       Core.layout := Some "list" |} = Throw (error "urlPrefix") /\
  Core.paginate [[]; []]
    {| Core.urlPrefix := Some "/blog"; Core.documentsPerPage := Some 0;
       Core.layout := Some "list" |} = Throw (error "documentsPerPage") /\
  Core.paginate [[]; []]
    {| Core.urlPrefix := Some "/blog"; Core.documentsPerPage := Some 2;
       Core.layout := None |} = Throw (error "layout") /\
  exists pages,
    Core.paginate [[]; []]
      {| Core.urlPrefix := Some "/blog"; Core.documentsPerPage := Some 2;
         Core.layout := Some "list" |} = Return pages.
Proof.
  intros error. split; [|split; [|split]].
  - apply (paginate_missing_option [[]; []]
             {| Core.urlPrefix := Some ""; Core.documentsPerPage := Some 2;
                Core.layout := Some "list" |}).
    cbn. now right.
  - apply (paginate_missing_option [[]; []]
             {| Core.urlPrefix := Some "/blog"; Core.documentsPerPage := Some 0;
                Core.layout := Some "list" |}).
    + cbn. intros [H | H]; discriminate.
    + cbn. now right.
  - apply (paginate_missing_option [[]; []]
             {| Core.urlPrefix := Some "/blog"; Core.documentsPerPage := Some 2;
                Core.layout := None |}).
    + cbn. intros [H | H]; discriminate.
    + cbn. intros [H | H]; discriminate.
    + cbn. now left.
  - apply (paginate_missing_option [[]; []]
             {| Core.urlPrefix := Some "/blog"; Core.documentsPerPage := Some 2;
                Core.layout := Some "list" |}).
    cbn. intros [[H | H] | [[H | H] | [H | H]]]; discriminate.
Defined.

(** ** Filtering *)

(** What [o[k]] reads when [k] is not a name of [Object.prototype]. *)
Lemma readProp_plain (o : object value) (k : string) :
  inherited k = false -> readProp o k = Data (getProp o k).
Proof.
  intros Hk. unfold readProp, getProp.
  destruct (ownProp o k); [reflexivity | now rewrite Hk].
Qed.

(** What [o[k]] reads when [k] is an own property. *)
Lemma readProp_own (o : object value) (k : string) :
  hasOwn o k = true -> readProp o k = Data (getProp o k).
Proof.
  unfold hasOwn, readProp, getProp.
  now destruct (ownProp o k).
Qed.

Lemma readProp_defined (o : object value) (k : string) :
  isDefined (getProp o k) = true -> readProp o k = Data (getProp o k).
Proof.
  intros H. apply readProp_own. unfold hasOwn, getProp in *.
  now destruct (ownProp o k).
Qed.

(** What [o[k]] reads when [k] is only a name of [Object.prototype]. *)
Lemma readProp_member (o : object value) (k : string) :
  hasOwn o k = false -> inherited k = true -> readProp o k = Member k.
Proof.
  unfold hasOwn, readProp. intros Hown Hk.
  destruct (ownProp o k); [discriminate | now rewrite Hk].
Qed.

Lemma test_stateless (pattern : regExp) (s : string) :
  stateful pattern = false -> test pattern s = (matchesIn pattern s, pattern).
Proof. intros H. unfold test, matchesIn. now rewrite H. Qed.

(** Criteria that keep no state are left as they are, and the callback
    answers whether the document satisfies each. *)
Lemma passes_forallb (document : Core.Document) (fields : object Core.criterion) :
  allStateless fields = true ->
  Core.passes document fields
    = (forallb (fun p => satisfies document (fst p) (snd p)) fields, fields).
Proof.
  unfold allStateless.
  induction fields as [|[field criterion] fields IH]; [reflexivity|].
  cbn [forallb fst snd]. intros [Hc Hfields]%andb_prop.
  cbn [Core.passes]. rewrite (IH Hfields).
  destruct criterion as [pattern | v]; cbn [satisfies stateless] in *.
  - apply negb_true_iff in Hc. rewrite (test_stateless _ _ Hc).
    now destruct (matchesIn _ _).
  - now destruct (readStrictEquals _ _).
Qed.

Lemma filterEach_stateless (documents : list Core.Document)
    (fields : object Core.criterion) :
  allStateless fields = true ->
  Core.filterEach documents fields
    = (List.filter
         (fun document =>
            forallb (fun p => satisfies document (fst p) (snd p)) fields)
         documents, fields).
Proof.
  intros Hfields. induction documents as [|d documents IH]; [reflexivity|].
  cbn [Core.filterEach List.filter]. rewrite (passes_forallb _ _ Hfields), IH.
  reflexivity.
Qed.

Lemma filterDocuments_stateless (documents : list Core.Document)
    (fields : object Core.criterion) :
  allStateless fields = true ->
  Core.filterDocuments documents fields
    = List.filter
        (fun document =>
           forallb (fun p => satisfies document (fst p) (snd p)) fields)
        documents.
Proof.
  intros Hfields. unfold Core.filterDocuments.
  now rewrite (filterEach_stateless _ _ Hfields).
Qed.

(** With criteria that keep no state, a document is kept exactly when it
    satisfies every criterion. *)
Lemma filterDocuments_spec (documents : list Core.Document)
    (fields : object Core.criterion) (document : Core.Document) :
  allStateless fields = true ->
  document ∈ Core.filterDocuments documents fields <->
  document ∈ documents /\
  forall field criterion, (field, criterion) ∈ fields ->
    satisfies document field criterion = true.
Proof.
  intros Hfields. rewrite (filterDocuments_stateless _ _ Hfields).
  rewrite !list_elem_of_In, filter_In, forallb_forall.
  split; intros [Hin Hall]; (split; [exact Hin|]).
  - intros field criterion Hf. apply list_elem_of_In in Hf.
    exact (Hall _ Hf).
  - intros [field criterion] Hf. apply Hall. now apply list_elem_of_In.
Qed.




(** ** Grouping *)

Lemma bucket_file (grouped : object (list Core.Document))
    (p : string * Core.Document) (key : string) :
  bucket (file grouped p) key
    = bucket grouped key ++ (if String.eqb (fst p) key then [snd p] else []).
Proof.
  unfold file, bucket. rewrite ownProp_setProp.
  destruct (String.eqb (fst p) key) eqn:E.
  - apply String.eqb_eq in E. now subst key.
  - now rewrite app_nil_r.
Qed.

Lemma bucket_fileAll (fs : list (string * Core.Document))
    (grouped : object (list Core.Document)) (key : string) :
  bucket (fileAll fs grouped) key = bucket grouped key ++ filedUnder key fs.
Proof.
  unfold fileAll, filedUnder. revert grouped.
  induction fs as [|p fs IH]; intros grouped.
  - cbn. now rewrite app_nil_r.
  - cbn [fold_left List.filter]. rewrite IH, bucket_file.
    destruct (String.eqb (fst p) key); cbn [map].
    + now rewrite <- app_assoc.
    + now rewrite app_nil_r.
Qed.

Lemma ownKeys_fileAll (fs : list (string * Core.Document))
    (grouped : object (list Core.Document)) (key : string) :
  key ∈ ownKeys (fileAll fs grouped) <->
  key ∈ ownKeys grouped \/ key ∈ map fst fs.
Proof.
  unfold fileAll. revert grouped.
  induction fs as [|p fs IH]; intros grouped.
  - cbn. rewrite elem_of_nil. tauto.
  - cbn [fold_left map]. rewrite IH. unfold file.
    rewrite ownKeys_setProp, elem_of_cons. tauto.
Qed.

Lemma ownKeys_setProp_NoDup {A} (o : object A) (k : string) (v : A) :
  NoDup (ownKeys o) -> NoDup (ownKeys (setProp o k v)).
Proof.
  unfold ownKeys. induction o as [|[k0 v0] o IH]; intros Hnd.
  - cbn. apply NoDup_singleton.
  - cbn in *. apply NoDup_cons in Hnd as [Hnotin Hnd].
    destruct (String.eqb k0 k) eqn:E; cbn.
    + apply String.eqb_eq in E. subst k0. now apply NoDup_cons.
    + apply String.eqb_neq in E. apply NoDup_cons. split; [|now apply IH].
      intros Hin. apply (ownKeys_setProp o k k0 v) in Hin.
      destruct Hin as [Heq | Hin]; [congruence | contradiction].
Qed.

Lemma ownKeys_fileAll_NoDup (fs : list (string * Core.Document))
    (grouped : object (list Core.Document)) :
  NoDup (ownKeys grouped) -> NoDup (ownKeys (fileAll fs grouped)).
Proof.
  unfold fileAll. revert grouped.
  induction fs as [|p fs IH]; intros grouped Hnd; [exact Hnd|].
  cbn [fold_left]. apply IH. now apply ownKeys_setProp_NoDup.
Qed.

(** A filing adds one document to the union of the buckets. *)
Lemma concat_file (grouped : object (list Core.Document))
    (p : string * Core.Document) :
  Permutation (concat (map snd (file grouped p)))
              (snd p :: concat (map snd grouped)).
Proof.
  unfold file, bucket. destruct p as [k d]. cbn [fst snd].
  induction grouped as [|[k0 b0] grouped IH].
  - cbn. reflexivity.
  - cbn [setProp ownProp]. destruct (String.eqb k0 k) eqn:E.
    + cbn. rewrite <- app_assoc. cbn.
      symmetry. apply Permutation_middle.
    + cbn [map snd concat]. rewrite IH.
      symmetry. apply Permutation_middle.
Qed.

Lemma concat_fileAll (fs : list (string * Core.Document))
    (grouped : object (list Core.Document)) :
  Permutation (concat (map snd (fileAll fs grouped)))
              (concat (map snd grouped) ++ map snd fs).
Proof.
  unfold fileAll. revert grouped.
  induction fs as [|p fs IH]; intros grouped.
  - cbn. now rewrite app_nil_r.
  - cbn [fold_left map]. rewrite IH, concat_file.
    apply Permutation_middle.
Qed.

Lemma addToGroup_file (variable : string)
    (grouped : object (list Core.Document)) (key : string)
    (document : Core.Document) :
  inherited key = false ->
  Core.addToGroup variable grouped key document
    = Return (file grouped (key, document)).
Proof.
  intros Hkey. unfold Core.addToGroup, file, bucket. cbn [fst snd].
  destruct (ownProp grouped key); [reflexivity|]. now rewrite Hkey.
Qed.

Lemma groupDocument_fileAll (field : string)
    (grouped : object (list Core.Document)) (document : Core.Document) :
  (forall key, key ∈ Core.groupKeys field document -> inherited key = false) ->
  Core.groupDocument field grouped document
    = Return (fileAll (map (fun key => (key, document))
                           (Core.groupKeys field document)) grouped).
Proof.
  unfold Core.groupDocument, fileAll.
  generalize (Core.keyVariable field document) as variable. intros variable.
  generalize (Core.groupKeys field document) as keys. intros keys. revert grouped.
  induction keys as [|key keys IH]; intros grouped Hkeys; [reflexivity|].
  cbn [foldl map fold_left]. cbn [mbind result_bind].
  rewrite addToGroup_file by (apply Hkeys; constructor).
  apply IH. intros key' Hin. apply Hkeys. now constructor.
Qed.

Lemma gropDocuments_fileAll (documents : list Core.Document) (field : string) :
  (forall document key, document ∈ documents ->
     key ∈ Core.groupKeys field document -> inherited key = false) ->
  Core.gropDocuments documents field
    = Return (fileAll (filings field documents) []).
Proof.
  unfold Core.gropDocuments. generalize (@nil (string * list Core.Document)).
  induction documents as [|document documents IH]; intros grouped Hkeys;
    [reflexivity|].
  cbn [foldl]. cbn [mbind result_bind].
  rewrite groupDocument_fileAll
    by (intros key Hin; apply (Hkeys document key); [constructor | exact Hin]).
  rewrite IH by (intros d key Hd; apply Hkeys; now constructor).
  unfold filings, fileAll. cbn [flat_map]. now rewrite fold_left_app.
Qed.

(** A key inherited from [Object.prototype] makes the grouping throw,
    in the loop over an array and outside it. *)
Example gropDocuments_inherited_key :
  Core.gropDocuments [[("tags", VArr [VStr "constructor"])]] "tags"
    = Throw (TypeError "grouped[subValue].push is not a function") /\
  Core.gropDocuments [[("tags", VStr "constructor")]] "tags"
    = Throw (TypeError "grouped[value].push is not a function").
Proof. split; reflexivity. Qed.

(** Grouped by a field that no document defines and every object
    inherits, the documents are under the text of the inherited member. *)
Example gropDocuments_inherited_field :
  Core.gropDocuments [[("title", VStr "A")]] "constructor"
    = Return [("function Object() { [native code] }", [[("title", VStr "A")]])].
Proof. reflexivity. Qed.

(** The keys of a document whose field is an array: its elements. *)
Lemma groupKeys_array (field : string) (document : Core.Document)
    (subValues : list value) :
  getProp document field = VArr subValues ->
  Core.groupKeys field document = map toString subValues.
Proof.
  intros Hvalue. unfold Core.groupKeys.
  rewrite readProp_defined by now rewrite Hvalue.
  now rewrite Hvalue.
Qed.

(** The key of a document that reads anything else. *)
Lemma groupKeys_plain (field : string) (document : Core.Document) (v : value) :
  readProp document field = Data v -> isScalar v = true ->
  Core.groupKeys field document = [toString v].
Proof.
  intros Hread Hscalar. unfold Core.groupKeys. rewrite Hread.
  now destruct v.
Qed.

Lemma groupKeys_member (field : string) (document : Core.Document) :
  hasOwn document field = false -> inherited field = true ->
  Core.groupKeys field document = [memberText field].
Proof.
  intros Hown Hfield. unfold Core.groupKeys.
  now rewrite (readProp_member _ _ Hown Hfield).
Qed.

Lemma filedUnder_app (key : string) (fs gs : list (string * Core.Document)) :
  filedUnder key (fs ++ gs) = filedUnder key fs ++ filedUnder key gs.
Proof. unfold filedUnder. now rewrite List.filter_app, map_app. Qed.

(** The filings under [key], document by document. *)
Lemma filedUnder_filings (field key : string) (documents : list Core.Document) :
  filedUnder key (filings field documents)
    = flat_map (copiesUnder field key) documents.
Proof.
  induction documents as [|d documents IH]; [reflexivity|].
  unfold filings in *. cbn [flat_map]. rewrite filedUnder_app, IH. f_equal.
  unfold copiesUnder, Core.groupKeys, filedUnder.
  assert (Hone : forall k : string,
            map snd (List.filter (fun p : string * Core.Document =>
                                    String.eqb (fst p) key) [(k, d)])
            = if String.eqb k key then [d] else []).
  { intros k. cbn. now destruct (String.eqb k key). }
  destruct (readProp d field) as [v | name]; [|apply Hone].
  destruct v; try apply Hone.
  induction items as [|x items IHx]; [reflexivity|].
  cbn [map List.filter fst]. destruct (String.eqb (toString x) key).
  - cbn [map snd]. f_equal. exact IHx.
  - exact IHx.
Qed.

(** C6, as stated, at one document without the grouped field: it is filed
    under ["undefined"], and the union of the buckets is not the input
    restricted to the documents that define the field, which is empty. *)
Lemma gropDocuments_files_absent_field :
  let documents : list Core.Document := [[("title", VStr "A")]] in
  Core.gropDocuments documents "tags" = Return [("undefined", documents)] /\
  List.filter (fun document => hasOwn document "tags") documents = [] /\
  ~ Permutation (concat (map snd [("undefined", documents)]))
                (List.filter (fun document => hasOwn document "tags") documents).
Proof.
  intros documents. split; [reflexivity|]. split; [reflexivity|].
  cbn. intros H. apply Permutation_length in H. discriminate.
Qed.

(** C6, amended: when no group key is a name inherited from
    [Object.prototype], [gropDocuments] returns a grouping in which a
    document is filed once under the string form of each element of a
    sequence-valued field and once under the string form of any other
    value; a document on which the field is absent is filed under
    ["undefined"], or, when the field is itself a name inherited from
    [Object.prototype], under the string form of the inherited member.
    Each bucket holds its documents in encounter order, a document as many
    times as its field gives the key of the bucket, and the multiset union
    of the buckets is the multiset of all these filings, which covers the
    documents on which the field is not defined. *)
Theorem gropDocuments_filings (documents : list Core.Document) (field : string) :
  (forall document key, document ∈ documents ->
     key ∈ Core.groupKeys field document -> inherited key = false) ->
  exists grouped,
    Core.gropDocuments documents field = Return grouped /\
    NoDup (ownKeys grouped) /\
    (forall key, bucket grouped key = filedUnder key (filings field documents)) /\
    (forall key, bucket grouped key = flat_map (copiesUnder field key) documents) /\
    (forall key, key ∈ ownKeys grouped <->
       exists document, document ∈ documents /\
         key ∈ Core.groupKeys field document) /\
    Permutation (concat (map snd grouped))
                (map snd (filings field documents)) /\
    (forall document, document ∈ documents ->
       (forall subValues subValue,
          getProp document field = VArr subValues -> subValue ∈ subValues ->
          document ∈ bucket grouped (toString subValue)) /\
       (forall v, readProp document field = Data v -> isScalar v = true ->
          document ∈ bucket grouped (toString v)) /\
       (hasOwn document field = false -> inherited field = false ->
          document ∈ bucket grouped "undefined") /\
       (hasOwn document field = false -> inherited field = true ->
          document ∈ bucket grouped (memberText field))).
Proof.
  intros Hkeys. exists (fileAll (filings field documents) []).
  split; [now apply gropDocuments_fileAll|].
  assert (Hfiled : forall document key, document ∈ documents ->
            key ∈ Core.groupKeys field document ->
            document ∈ bucket (fileAll (filings field documents) []) key).
  { intros document key Hd Hk. rewrite bucket_fileAll. cbn [bucket app].
    unfold filedUnder, filings.
    apply list_elem_of_In, in_map_iff. exists (key, document).
    split; [reflexivity|]. apply filter_In. split.
    - apply in_flat_map. exists document. split; [now apply list_elem_of_In|].
      apply in_map_iff. exists key. split; [reflexivity|].
      now apply list_elem_of_In.
    - cbn. apply String.eqb_refl. }
  split; [|split; [|split; [|split; [|split]]]].
  - apply ownKeys_fileAll_NoDup. apply NoDup_nil_2.
  - intros key. now rewrite bucket_fileAll.
  - intros key. rewrite bucket_fileAll. cbn [bucket app].
    apply filedUnder_filings.
  - intros key. rewrite ownKeys_fileAll. cbn [ownKeys map].
    rewrite elem_of_nil. unfold filings. rewrite !list_elem_of_In. split.
    + intros [[] | Hin]. apply in_map_iff in Hin as ([k d] & Hk & Hin).
      cbn in Hk. subst k. apply in_flat_map in Hin as (d' & Hd' & Hin).
      apply in_map_iff in Hin as (k' & Hk' & Hin). inversion Hk'. subst.
      exists d. split; now apply list_elem_of_In.
    + intros (d & Hd & Hk). right. apply in_map_iff. exists (key, d).
      split; [reflexivity|]. apply in_flat_map. exists d.
      split; [now apply list_elem_of_In|]. apply in_map_iff. exists key.
      split; [reflexivity|]. now apply list_elem_of_In.
  - rewrite concat_fileAll. reflexivity.
  - intros document Hd. split; [|split; [|split]].
    + intros subValues subValue Hvalue Hsub. apply (Hfiled _ _ Hd).
      rewrite (groupKeys_array _ _ _ Hvalue).
      apply list_elem_of_In, in_map. now apply list_elem_of_In.
    + intros v Hread Hscalar. apply (Hfiled _ _ Hd).
      rewrite (groupKeys_plain _ _ _ Hread Hscalar). constructor.
    + intros Habsent Hfield. apply (Hfiled _ _ Hd).
      rewrite (groupKeys_plain field document VUndefined); [constructor| |reflexivity].
      rewrite (readProp_plain _ _ Hfield). unfold hasOwn in Habsent.
      unfold getProp. now destruct (ownProp document field).
    + intros Habsent Hfield. apply (Hfiled _ _ Hd).
      rewrite (groupKeys_member _ _ Habsent Hfield). constructor.
Qed.

Lemma gropDocuments_filings_witness :
  let post : Core.Document :=
    [("title", VStr "A"); ("tags", VArr [VStr "x"; VStr "y"])] in
  let note : Core.Document := [("title", VStr "B"); ("tags", VStr "x")] in
  let page : Core.Document := [("title", VStr "C")] in
  (forall document key, document ∈ [post; note; page] ->
     key ∈ Core.groupKeys "tags" document -> inherited key = false) /\
  exists grouped,
    Core.gropDocuments [post; note; page] "tags" = Return grouped /\
    bucket grouped "x" = [post; note] /\
    bucket grouped "y" = [post] /\
    bucket grouped "undefined" = [page].
Proof.
  intros post note page.
  assert (Hkeys : forall document key, document ∈ [post; note; page] ->
            key ∈ Core.groupKeys "tags" document -> inherited key = false).
  { intros document key Hd Hk.
    repeat (apply elem_of_cons in Hd as [-> | Hd]);
      [| | | now apply elem_of_nil in Hd];
      cbn in Hk;
      repeat (apply elem_of_cons in Hk as [-> | Hk]);
      try reflexivity; now apply elem_of_nil in Hk. }
  split; [exact Hkeys|].
  destruct (gropDocuments_filings [post; note; page] "tags" Hkeys)
    as (grouped & Hgrouped & _ & Hbucket & _).
  exists grouped. split; [exact Hgrouped|].
  rewrite !Hbucket. repeat split; reflexivity.
Defined.

(** ** The store *)

Lemma preserved_refl (h : Store.store) : preserved h h.
Proof. now intros l xs. Qed.

Lemma preserved_trans (h1 h2 h3 : Store.store) :
  preserved h1 h2 -> preserved h2 h3 -> preserved h1 h3.
Proof. intros H12 H23 l xs Hl. auto. Qed.

Lemma fresh_None (h : Store.store) : h !! fresh (dom h) = None.
Proof. apply not_elem_of_dom, is_fresh. Qed.

Lemma preserved_insert (h0 h : Store.store) (l : Store.loc)
    (xs : list Core.Document) :
  preserved h0 h -> h0 !! l = None -> preserved h0 (<[l:=xs]> h).
Proof.
  intros Hp Hl l' xs' Hl'. rewrite lookup_insert_ne; [now apply Hp|].
  intros ->. congruence.
Qed.

Lemma preserved_None (h0 h : Store.store) (l : Store.loc) :
  preserved h0 h -> h !! l = None -> h0 !! l = None.
Proof.
  intros Hp Hl. destruct (h0 !! l) as [xs|] eqn:E; [|reflexivity].
  apply Hp in E. congruence.
Qed.

Lemma allocArray_spec (xs : list Core.Document) (h : Store.store) :
  exists l, Store.allocArray xs h = (Return l, <[l:=xs]> h) /\ h !! l = None.
Proof. exists (fresh (dom h)). split; [reflexivity | apply fresh_None]. Qed.

(** [filter] and [_.sortByOrder] leave every array as it was and return a
    new one. *)
Lemma filterDocuments_store (h : Store.store) (documents : Store.loc)
    (xs : list Core.Document) (fields : object Core.criterion) :
  h !! documents = Some xs ->
  exists l h',
    Store.filterDocuments documents fields h = (Return l, h') /\
    preserved h h' /\ h !! l = None /\
    h' !! l = Some (Core.filterDocuments xs fields).
Proof.
  intros Hxs. unfold Store.filterDocuments, mbind, Store.M_bind, Store.readArray.
  rewrite Hxs.
  destruct (allocArray_spec (Core.filterDocuments xs fields) h) as (l & Hl & Hnew).
  exists l, (<[l:=Core.filterDocuments xs fields]> h).
  split; [exact Hl|]. split; [|split; [exact Hnew|]].
  - apply preserved_insert; [apply preserved_refl | exact Hnew].
  - apply lookup_insert_eq.
Qed.

Lemma orderDocuments_store
    (sortByOrder : list Core.Document -> list string -> list bool
                   -> list Core.Document)
    (h : Store.store) (documents : Store.loc) (xs : list Core.Document)
    (fields : list string) :
  h !! documents = Some xs ->
  exists l h',
    Store.orderDocuments sortByOrder documents fields h = (Return l, h') /\
    preserved h h' /\ h !! l = None /\
    h' !! l = Some (Core.orderDocuments sortByOrder xs fields).
Proof.
  intros Hxs.
  unfold Store.orderDocuments, Core.orderDocuments, mbind, Store.M_bind,
    Store.readArray.
  rewrite Hxs. destruct (Util.formatFieldsForSortByOrder fields) as [iteratees orders].
  destruct (allocArray_spec (sortByOrder xs iteratees orders) h) as (l & Hl & Hnew).
  exists l, (<[l:=sortByOrder xs iteratees orders]> h).
  split; [exact Hl|]. split; [|split; [exact Hnew|]].
  - apply preserved_insert; [apply preserved_refl | exact Hnew].
  - apply lookup_insert_eq.
Qed.

Lemma contents_cons (h : Store.store) (key : string) (l : Store.loc)
    (grouped : object Store.loc) :
  contents h ((key, l) :: grouped)
    = (key, default [] (h !! l)) :: contents h grouped.
Proof. reflexivity. Qed.

Lemma ownProp_contents (h : Store.store) (grouped : object Store.loc)
    (key : string) :
  ownProp (contents h grouped) key
    = (fun l => default [] (h !! l)) <$> ownProp grouped key.
Proof.
  induction grouped as [|[k l] grouped IH]; [reflexivity|].
  cbn. now destruct (String.eqb k key).
Qed.

Lemma ownProp_loc (grouped : object Store.loc) (key : string) (l : Store.loc) :
  ownProp grouped key = Some l -> l ∈ map snd grouped.
Proof.
  induction grouped as [|[k0 l0] grouped IH]; [discriminate|].
  cbn. destruct (String.eqb k0 key).
  - intros [= ->]. constructor.
  - intros H. constructor. now apply IH.
Qed.

Lemma contents_insert_other (h : Store.store) (grouped : object Store.loc)
    (l : Store.loc) (xs : list Core.Document) :
  l ∉ map snd grouped -> contents (<[l:=xs]> h) grouped = contents h grouped.
Proof.
  induction grouped as [|[k0 l0] grouped IH]; [reflexivity|].
  rewrite !contents_cons. cbn [map snd].
  intros Hl. apply not_elem_of_cons in Hl as [Hne Hl].
  rewrite lookup_insert_ne by congruence. now rewrite IH.
Qed.

Lemma contents_insert_bucket (h : Store.store) (grouped : object Store.loc)
    (key : string) (l : Store.loc) (xs : list Core.Document) :
  NoDup (map snd grouped) -> ownProp grouped key = Some l ->
  contents (<[l:=xs]> h) grouped = setProp (contents h grouped) key xs.
Proof.
  induction grouped as [|[k0 l0] grouped IH]; [discriminate|].
  rewrite !contents_cons. cbn [map snd ownProp setProp].
  intros Hnd Hkey. apply NoDup_cons in Hnd as [Hnotin Hnd].
  destruct (String.eqb k0 key) eqn:E.
  - inversion Hkey. subst l0. apply String.eqb_eq in E. subst k0.
    rewrite contents_insert_other by exact Hnotin.
    now rewrite lookup_insert_eq.
  - rewrite lookup_insert_ne.
    + now rewrite IH.
    + intros ->. apply Hnotin. now apply (ownProp_loc grouped key).
Qed.

Lemma setProp_new {A} (o : object A) (key : string) (v : A) :
  ownProp o key = None -> setProp o key v = o ++ [(key, v)].
Proof.
  induction o as [|[k0 v0] o IH]; [reflexivity|].
  cbn. destruct (String.eqb k0 key); [discriminate|].
  intros H. now rewrite IH.
Qed.

Lemma contents_insert_new (h : Store.store) (grouped : object Store.loc)
    (key : string) (l : Store.loc) (xs : list Core.Document) :
  ownProp grouped key = None -> l ∉ map snd grouped ->
  contents (<[l:=xs]> h) (setProp grouped key l)
    = setProp (contents h grouped) key xs.
Proof.
  intros Hkey Hl. rewrite !setProp_new;
    [| now rewrite ownProp_contents, Hkey | exact Hkey].
  unfold contents at 1. rewrite map_app. cbn [map fst snd].
  rewrite lookup_insert_eq. cbn [default].
  fold (contents (<[l:=xs]> h) grouped). now rewrite contents_insert_other.
Qed.

(** One filing on the store does what the filing on lists does, in arrays
    the store did not have at the start. *)
Lemma addToGroup_store (variable : string) (h0 h : Store.store)
    (grouped : object Store.loc) (key : string) (document : Core.Document) :
  groupedIn h0 h grouped ->
  match Store.addToGroup variable grouped key document h with
  | (Return grouped', h') =>
      groupedIn h0 h' grouped' /\
      Core.addToGroup variable (contents h grouped) key document
        = Return (contents h' grouped')
  | (Throw e, h') =>
      preserved h0 h' /\
      Core.addToGroup variable (contents h grouped) key document = Throw e
  end.
Proof.
  intros (Hp & Hnd & Hlocs).
  unfold Store.addToGroup, Core.addToGroup. rewrite ownProp_contents.
  destruct (ownProp grouped key) as [l|] eqn:Hkey; cbn [fmap option_fmap option_map].
  - pose proof (ownProp_loc _ _ _ Hkey) as Hin.
    destruct (Hlocs l Hin) as [[xs Hxs] Hnew].
    unfold mbind, Store.M_bind, Store.pushArray, mret, Store.M_ret.
    rewrite Hxs. cbn [default]. split; [split; [|split]|].
    + now apply preserved_insert.
    + exact Hnd.
    + intros l' Hl'. destruct (Hlocs l' Hl') as [Hsome Hnew']. split; [|exact Hnew'].
      destruct (decide (l = l')) as [<- | Hne].
      * rewrite lookup_insert_eq. eauto.
      * now rewrite lookup_insert_ne.
    + now rewrite (contents_insert_bucket h grouped key l).
  - destruct (inherited key).
    + split; [exact Hp | reflexivity].
    + unfold mbind, Store.M_bind, Store.pushArray, Store.allocArray, mret,
        Store.M_ret.
      set (l := fresh (dom h)).
      assert (Hl : h !! l = None) by apply fresh_None.
      rewrite lookup_insert_eq, insert_insert_eq. cbn [app].
      assert (Hnotin : l ∉ map snd grouped).
      { intros Hin. destruct (Hlocs l Hin) as [[xs Hxs] _]. congruence. }
      split; [split; [|split]|].
      * apply preserved_insert; [exact Hp | now apply (preserved_None h0 h)].
      * rewrite setProp_new by exact Hkey. rewrite map_app. cbn [map snd].
        apply NoDup_app. split; [exact Hnd|]. split; [|apply NoDup_singleton].
        intros l' Hl' Hl''. apply list_elem_of_singleton in Hl''. now subst l'.
      * intros l'. rewrite setProp_new by exact Hkey. rewrite map_app.
        cbn [map snd]. rewrite elem_of_app, list_elem_of_singleton.
        intros [Hin | ->].
        -- destruct (Hlocs l' Hin) as [Hsome Hnew]. split; [|exact Hnew].
           rewrite lookup_insert_ne; [exact Hsome|]. intros <-. contradiction.
        -- rewrite lookup_insert_eq. split; [eauto|].
           now apply (preserved_None h0 h).
      * now rewrite contents_insert_new.
Qed.

(** A loop on the store that simulates, step by step, a loop on lists. *)
Lemma reduce_simulates {A B C} (inv : Store.store -> B -> Prop)
    (final : Store.store -> Prop) (abs : Store.store -> B -> C)
    (f : B -> A -> Store.M B) (g : C -> A -> result C) (xs : list A) :
  (forall h b, inv h b -> final h) ->
  (forall h b x, inv h b ->
     match f b x h with
     | (Return b', h') => inv h' b' /\ g (abs h b) x = Return (abs h' b')
     | (Throw e, h') => final h' /\ g (abs h b) x = Throw e
     end) ->
  forall h b, inv h b ->
    match Store.reduce f b xs h with
    | (Return b', h') =>
        inv h' b' /\
        foldl (fun acc x => c ← acc; g c x) (Return (abs h b)) xs
          = Return (abs h' b')
    | (Throw e, h') =>
        final h' /\
        foldl (fun acc x => c ← acc; g c x) (Return (abs h b)) xs = Throw e
    end.
Proof.
  intros Hfinal Hstep.
  assert (Hthrow : forall e, foldl (fun acc x => c ← acc; g c x) (Throw e) xs
                             = Throw e).
  { intros e. clear. induction xs; [reflexivity | exact IHxs]. }
  clear Hthrow. induction xs as [|x xs IH]; intros h b Hinv.
  - cbn. now split.
  - cbn [Store.reduce foldl]. unfold mbind at 1, Store.M_bind at 1.
    specialize (Hstep h b x Hinv).
    destruct (f b x h) as [[e | b'] h'].
    + destruct Hstep as [Hf Hg]. split; [exact Hf|].
      cbn [mbind result_bind]. rewrite Hg.
      clear. induction xs; [reflexivity | assumption].
    + destruct Hstep as [Hinv' Hg]. cbn [mbind result_bind]. rewrite Hg.
      now apply IH.
Qed.

Lemma groupDocument_store (h0 h : Store.store) (field : string)
    (grouped : object Store.loc) (document : Core.Document) :
  groupedIn h0 h grouped ->
  match Store.groupDocument field grouped document h with
  | (Return grouped', h') =>
      groupedIn h0 h' grouped' /\
      Core.groupDocument field (contents h grouped) document
        = Return (contents h' grouped')
  | (Throw e, h') =>
      preserved h0 h' /\
      Core.groupDocument field (contents h grouped) document = Throw e
  end.
Proof.
  intros Hinv. unfold Store.groupDocument, Core.groupDocument.
  apply (reduce_simulates (groupedIn h0) (preserved h0) contents
           (fun grouped key =>
              Store.addToGroup (Core.keyVariable field document)
                grouped key document)
           (fun grouped key =>
              Core.addToGroup (Core.keyVariable field document)
                grouped key document)).
  - now intros h1 b (Hp & _).
  - intros h1 b key Hb. now apply addToGroup_store.
  - exact Hinv.
Qed.

(** [gropDocuments] on the store: the arrays that existed are as they
    were, the buckets are new arrays, and they hold what [gropDocuments]
    computes on the elements. *)
Lemma gropDocuments_store (h : Store.store) (documents : Store.loc)
    (xs : list Core.Document) (field : string) :
  h !! documents = Some xs ->
  exists r h',
    Store.gropDocuments documents field h = (r, h') /\
    preserved h h' /\
    contents h' <$> r = Core.gropDocuments xs field /\
    forall grouped key l, r = Return grouped ->
      ownProp grouped key = Some l -> h !! l = None /\ is_Some (h' !! l).
Proof.
  intros Hxs. unfold Store.gropDocuments, mbind, Store.M_bind, Store.readArray.
  rewrite Hxs.
  assert (Hinv : groupedIn h h []).
  { split; [apply preserved_refl|]. split; [apply NoDup_nil_2|].
    intros l Hl. now apply elem_of_nil in Hl. }
  pose proof (reduce_simulates (groupedIn h) (preserved h) contents
                (Store.groupDocument field) (Core.groupDocument field) xs
                (fun h1 b Hb => proj1 Hb)
                (fun h1 b x Hb => groupDocument_store h h1 field b x Hb)
                h [] Hinv) as Hsim.
  destruct (Store.reduce (Store.groupDocument field) [] xs h) as [[e | grouped] h'].
  - destruct Hsim as [Hp Hcore]. exists (Throw e), h'.
    split; [reflexivity|]. split; [exact Hp|]. split; [symmetry; exact Hcore|].
    intros grouped key l [=].
  - destruct Hsim as [(Hp & Hnd & Hlocs) Hcore]. exists (Return grouped), h'.
    split; [reflexivity|]. split; [exact Hp|]. split; [symmetry; exact Hcore|].
    intros grouped' key l [= <-] Hkey.
    destruct (Hlocs l (ownProp_loc _ _ _ Hkey)) as [Hsome Hnew]. now split.
Qed.

Lemma makePage_store (h : Store.store) (documents : Store.loc)
    (xs : list Core.Document) (urlPrefix : string) (documentsPerPage : Z)
    (layout : string) (totalPages pageNumber : Z) :
  h !! documents = Some xs ->
  let q := Core.makePage xs urlPrefix documentsPerPage layout totalPages
             pageNumber in
  exists p,
    Store.makePage documents urlPrefix documentsPerPage layout totalPages
      pageNumber h
      = (Return p, <[Store.documents p:=Core.documents q]> h) /\
    pageIn h (<[Store.documents p:=Core.documents q]> h) p q.
Proof.
  intros Hxs q.
  unfold Store.makePage, mbind, Store.M_bind, Store.readArray. rewrite Hxs.
  fold q. unfold Store.allocArray, mret, Store.M_ret.
  exists {| Store.previousUrl := Core.previousUrl q;
            Store.nextUrl := Core.nextUrl q;
            Store.sourcePath := Core.sourcePath q;
            Store.documents := fresh (dom h);
            Store.pageLayout := Core.pageLayout q;
            Store.url := Core.url q |}.
  split; [reflexivity|]. cbn [Store.documents].
  unfold pageIn. cbn [Store.documents Store.previousUrl Store.nextUrl
                      Store.sourcePath Store.pageLayout Store.url].
  split; [apply fresh_None|]. split; [apply lookup_insert_eq|].
  repeat split.
Qed.

Lemma mapArray_makePage_store (documents : Store.loc)
    (xs : list Core.Document) (urlPrefix : string) (documentsPerPage : Z)
    (layout : string) (totalPages : Z) (pageNumbers : list Z) :
  forall h : Store.store, h !! documents = Some xs ->
  exists pages h',
    Store.mapArray
      (Store.makePage documents urlPrefix documentsPerPage layout totalPages)
      pageNumbers h = (Return pages, h') /\
    preserved h h' /\
    Forall2 (pageIn h h') pages
      (map (Core.makePage xs urlPrefix documentsPerPage layout totalPages)
           pageNumbers).
Proof.
  induction pageNumbers as [|i pageNumbers IH]; intros h Hxs.
  - exists [], h. split; [reflexivity|]. split; [apply preserved_refl|].
    constructor.
  - destruct (makePage_store h documents xs urlPrefix documentsPerPage layout
                totalPages i Hxs) as (p & Hp & Hnew & Hdocs & Hfields).
    set (h1 := <[Store.documents p:=
                   Core.documents (Core.makePage xs urlPrefix documentsPerPage
                                     layout totalPages i)]> h) in *.
    assert (Hp1 : preserved h h1)
      by (apply preserved_insert; [apply preserved_refl | exact Hnew]).
    destruct (IH h1 (Hp1 _ _ Hxs)) as (pages & h' & Hpages & Hp' & Hall).
    exists (p :: pages), h'. split; [|split].
    + cbn [Store.mapArray]. unfold mbind at 1, Store.M_bind at 1. rewrite Hp.
      unfold mbind at 1, Store.M_bind at 1. rewrite Hpages. reflexivity.
    + now apply (preserved_trans h h1 h').
    + cbn [map]. constructor.
      * split; [exact Hnew|]. split; [now apply Hp' | exact Hfields].
      * eapply Forall2_impl; [exact Hall|].
        intros p' q' (Hnew' & Hrest). split; [|exact Hrest].
        now apply (preserved_None h h1).
Qed.

(** [paginate] on the store: the arrays that existed are as they were,
    and the pages are those [paginate] computes on the elements, their
    documents in new arrays. *)
Lemma paginate_store (h : Store.store) (documents : Store.loc)
    (xs : list Core.Document) (options : Core.paginateOptions) :
  h !! documents = Some xs ->
  exists r h',
    Store.paginate documents options h = (r, h') /\
    preserved h h' /\
    match r with
    | Throw e => Core.paginate xs options = Throw e
    | Return pages =>
        exists pages', Core.paginate xs options = Return pages' /\
          Forall2 (pageIn h h') pages pages'
    end.
Proof.
  intros Hxs. unfold Store.paginate, Core.paginate.
  destruct (negb (Core.isSet (Core.urlPrefix options))).
  { exists (Throw (Core.notSpecified "urlPrefix")), h.
    split; [reflexivity|]. split; [apply preserved_refl | reflexivity]. }
  destruct (negb (Core.isNonZero (Core.documentsPerPage options))).
  { exists (Throw (Core.notSpecified "documentsPerPage")), h.
    split; [reflexivity|]. split; [apply preserved_refl | reflexivity]. }
  destruct (negb (Core.isSet (Core.layout options))).
  { exists (Throw (Core.notSpecified "layout")), h.
    split; [reflexivity|]. split; [apply preserved_refl | reflexivity]. }
  unfold mbind, Store.M_bind, Store.readArray. rewrite Hxs.
  destruct (mapArray_makePage_store documents xs
              (default "" (Core.urlPrefix options))
              (default 0 (Core.documentsPerPage options))
              (default "" (Core.layout options))
              (Core.ceilDiv (Z.of_nat (length xs))
                 (default 0 (Core.documentsPerPage options)))
              (Lodash.range
                 (Core.ceilDiv (Z.of_nat (length xs))
                    (default 0 (Core.documentsPerPage options))))
              h Hxs) as (pages & h' & Hpages & Hp & Hall).
  exists (Return pages), h'. split; [exact Hpages|]. split; [exact Hp|].
  eexists. split; [reflexivity | exact Hall].
Qed.

(** C9: with the documents in an array of the store, [filterDocuments],
    [orderDocuments], [gropDocuments] and [paginate] leave that array, and
    every other array there was, with the same elements in the same order;
    what they return is in arrays that did not exist before the call, and
    holds what the function computes from the elements. *)
Theorem query_layer_leaves_input
    (sortByOrder : list Core.Document -> list string -> list bool
                   -> list Core.Document)
    (h : Store.store) (documents : Store.loc) (xs : list Core.Document) :
  h !! documents = Some xs ->
  (forall fields, exists l h',
     Store.filterDocuments documents fields h = (Return l, h') /\
     h' !! documents = Some xs /\ preserved h h' /\ h !! l = None /\
     h' !! l = Some (Core.filterDocuments xs fields)) /\
  (forall fields, exists l h',
     Store.orderDocuments sortByOrder documents fields h = (Return l, h') /\
     h' !! documents = Some xs /\ preserved h h' /\ h !! l = None /\
     h' !! l = Some (Core.orderDocuments sortByOrder xs fields)) /\
  (forall field, exists r h',
     Store.gropDocuments documents field h = (r, h') /\
     h' !! documents = Some xs /\ preserved h h' /\
     contents h' <$> r = Core.gropDocuments xs field /\
     forall grouped key l, r = Return grouped ->
       ownProp grouped key = Some l -> h !! l = None /\ is_Some (h' !! l)) /\
  (forall options, exists r h',
     Store.paginate documents options h = (r, h') /\
     h' !! documents = Some xs /\ preserved h h' /\
     match r with
     | Throw e => Core.paginate xs options = Throw e
     | Return pages =>
         exists pages', Core.paginate xs options = Return pages' /\
           Forall2 (pageIn h h') pages pages'
     end).
Proof.
  intros Hxs. split; [|split; [|split]].
  - intros fields.
    destruct (filterDocuments_store h documents xs fields Hxs)
      as (l & h' & Hrun & Hp & Hnew & Hl).
    exists l, h'. repeat split; auto.
  - intros fields.
    destruct (orderDocuments_store sortByOrder h documents xs fields Hxs)
      as (l & h' & Hrun & Hp & Hnew & Hl).
    exists l, h'. repeat split; auto.
  - intros field.
    destruct (gropDocuments_store h documents xs field Hxs)
      as (r & h' & Hrun & Hp & Hcore & Hnew).
    exists r, h'. repeat split; auto; now apply (Hnew grouped key l).
  - intros options.
    destruct (paginate_store h documents xs options Hxs)
      as (r & h' & Hrun & Hp & Hcore).
    exists r, h'. repeat split; auto.
Qed.

Lemma query_layer_leaves_input_witness :
  let post : Core.Document := [("title", VStr "A"); ("lang", VStr "en")] in
  let note : Core.Document := [("title", VStr "B"); ("lang", VStr "ru")] in
  let h : Store.store := {[ 1%positive := [post; note] ]} in
  h !! 1%positive = Some [post; note] /\
  exists l h',
    Store.filterDocuments 1%positive [("lang", Core.Exactly (VStr "en"))] h
      = (Return l, h') /\
    h' !! 1%positive = Some [post; note] /\
    h' !! l = Some [post].
Proof.
  intros post note h. split; [reflexivity|].
  destruct (query_layer_leaves_input (fun xs _ _ => xs) h 1%positive
              [post; note] eq_refl) as (Hfilter & _).
  destruct (Hfilter [("lang", Core.Exactly (VStr "en"))])
    as (l & h' & Hrun & Hinput & _ & _ & Hl).
  exists l, h'. split; [exact Hrun|]. split; [exact Hinput | exact Hl].
Defined.

(** * Further properties of the pipeline *)

(** ** URLs *)

(** X1: whatever the path, the URL [filepathToUrl] derives starts with a
    slash; in particular it is never empty. *)
Theorem filepathToUrl_absolute (filepath : string) :
  exists rest, Core.filepathToUrl filepath = String "/" rest.
Proof.
  unfold Core.filepathToUrl. rewrite append_cons, append_nil_l.
  destruct (stripSuffix "/index" (String "/" (Util.removeExtension filepath)))
    as [before|] eqn:E.
  - apply stripSuffix_Some in E. destruct before as [|c before].
    + now exists "".
    + rewrite append_cons in E. inversion E. subst c.
      now exists before.
  - now eexists.
Qed.

(** ** Custom fields *)

Lemma parseEach_returns (attributes : object value)
    (fieldParsers : object Core.fieldParser) :
  forall parsedAttributes parsed,
    Core.parseEach attributes fieldParsers parsedAttributes = Return parsed ->
    NoDup (ownKeys parsedAttributes) ->
    NoDup (ownKeys parsed) /\
    (forall k, k ∉ ownKeys fieldParsers ->
       ownProp parsed k = ownProp parsedAttributes k) /\
    (NoDup (ownKeys fieldParsers) ->
     forall k parse, ownProp fieldParsers k = Some parse ->
       exists v, parse (getProp attributes k) = Return v /\
                 ownProp parsed k = Some v).
Proof.
  induction fieldParsers as [|[name parse] fieldParsers IH];
    intros parsedAttributes parsed Hrun Hnd.
  - cbn in Hrun. inversion Hrun. subst parsed.
    split; [exact Hnd|]. split; [reflexivity|]. intros _ k p [=].
  - cbn [Core.parseEach] in Hrun.
    destruct (parse (getProp attributes name)) as [e | v] eqn:Hparse;
      cbn [mbind result_bind] in Hrun; [discriminate|].
    destruct (IH _ _ Hrun (ownKeys_setProp_NoDup _ _ _ Hnd))
      as (Hnd' & Hother & Hparsed).
    split; [exact Hnd'|]. split.
    + intros k Hk. cbn [ownKeys map fst] in Hk.
      apply not_elem_of_cons in Hk as [Hne Hk].
      rewrite (Hother k Hk), ownProp_setProp.
      destruct (String.eqb name k) eqn:E; [|reflexivity].
      apply String.eqb_eq in E. congruence.
    + intros Hndp k p Hk. cbn [ownKeys map fst] in Hndp.
      apply NoDup_cons in Hndp as [Hnotin Hndp].
      cbn [ownProp] in Hk. destruct (String.eqb name k) eqn:E.
      * apply String.eqb_eq in E. subst k. inversion Hk. subst p.
        exists v. split; [exact Hparse|].
        rewrite (Hother name Hnotin), ownProp_setProp, String.eqb_refl.
        reflexivity.
      * now apply Hparsed.
Qed.

(** Merging into [{}] copies the scalar fields. *)
Lemma merge_copy_scalar (o : object value) (k : string) :
  NoDup (ownKeys o) -> isScalar (getProp o k) = true ->
  getProp (Lodash.baseMerge [] o) k = getProp o k.
Proof.
  intros Hnd Hscalar. unfold getProp in *.
  destruct (ownProp o k) as [v|] eqn:Hk.
  - destruct (isDefined v) eqn:Hd.
    + now rewrite (baseMerge_source_wins o [] k v).
    + destruct v; try discriminate.
      now rewrite (baseMerge_undefined_skipped o [] k).
  - rewrite baseMerge_other; [reflexivity|].
    intros Hin. apply ownProp_In in Hin as [v Hv]. congruence.
Qed.

Lemma parseCustomFields_merge (attributes : object value)
    (fieldParsers : object Core.fieldParser) (result : object value) :
  Core.parseCustomFields attributes fieldParsers = Return result ->
  exists parsed,
    Core.parseEach attributes fieldParsers [] = Return parsed /\
    result = Lodash.baseMerge (Lodash.baseMerge [] attributes) parsed.
Proof.
  unfold Core.parseCustomFields.
  destruct (Core.parseEach attributes fieldParsers []) as [e | parsed];
    cbn [mbind result_bind]; [discriminate|].
  intros [= <-]. now exists parsed.
Qed.


(** X3: in the result of [parseCustomFields], a scalar raw field without a
    parser keeps its raw value, and so does a scalar raw field whose parser
    returns [undefined]: a parser cannot erase a field by returning
    [undefined]. *)
Theorem parseCustomFields_raw_kept (attributes : object value)
    (fieldParsers : object Core.fieldParser) (result : object value)
    (name : string) :
  Core.parseCustomFields attributes fieldParsers = Return result ->
  NoDup (ownKeys attributes) ->
  isScalar (getProp attributes name) = true ->
  (name ∉ ownKeys fieldParsers ->
     getProp result name = getProp attributes name) /\
  (NoDup (ownKeys fieldParsers) ->
   forall parse, ownProp fieldParsers name = Some parse ->
     parse (getProp attributes name) = Return VUndefined ->
     getProp result name = getProp attributes name).
Proof.
  intros Hresult Hnd Hscalar.
  apply parseCustomFields_merge in Hresult as (parsed & Hparsed & ->).
  destruct (parseEach_returns _ _ _ _ Hparsed (NoDup_nil_2))
    as (Hndp & Hother & Hfields).
  split.
  - intros Hnoparser. rewrite <- (merge_copy_scalar attributes name Hnd Hscalar).
    unfold getProp. rewrite baseMerge_other; [reflexivity|].
    intros Hin. apply ownProp_In in Hin as [v Hv].
    rewrite (Hother name Hnoparser) in Hv. discriminate.
  - intros Hndf parse Hname Hundef.
    destruct (Hfields Hndf name parse Hname) as (v & Hv & Hk).
    assert (v = VUndefined) by congruence. subst v.
    rewrite <- (merge_copy_scalar attributes name Hnd Hscalar).
    unfold getProp. now rewrite (baseMerge_undefined_skipped parsed _ name).
Qed.


Lemma parseCustomFields_raw_kept_witness :
  let blank : Core.fieldParser := fun v => Return VUndefined in
  let attributes := [("title", VStr "hello"); ("draft", VBool true)] in
  Core.parseCustomFields attributes [("title", blank)]
    = Return (Lodash.merge [] [attributes; [("title", VUndefined)]]) /\
  NoDup (ownKeys attributes) /\
  isScalar (getProp attributes "title") = true /\
  getProp (Lodash.merge [] [attributes; [("title", VUndefined)]]) "title"
    = VStr "hello".
Proof.
  intros blank attributes.
  assert (Hnd : NoDup (ownKeys attributes))
    by (apply (bool_decide_unpack _); reflexivity).
  split; [reflexivity|]. split; [exact Hnd|]. split; [reflexivity|].
  destruct (parseCustomFields_raw_kept attributes [("title", blank)] _ "title"
              eq_refl Hnd eq_refl) as [_ Hkept].
  apply (Hkept (NoDup_singleton _) blank); reflexivity.
Defined.

(** ** Parsed pages *)

Lemma getExtension_append (name ext : string) :
  Util.isExtension ext = true ->
  Util.getExtension (name +:+ String "." ext) = ext.
Proof.
  intros Hext. induction name as [|c name IH]; string_cons;
    cbn [Util.getExtension].
  - now rewrite Hext.
  - rewrite isExtension_dot, andb_false_r. exact IH.
Qed.

Section ParsedPages.

Variable fastmatter : string -> result (object value * string).

(** X4: [parsePage] fails with the error of the front-matter splitter,
    unchanged, when the front matter cannot be split, whatever the options
    are; and with the error of [parseCustomFields], unchanged, when the
    front matter is split and a field parser throws. *)
Theorem parsePage_fails_first (source folder filepath : string)
    (options : Core.parseOptions) (e : exn) :
  (fastmatter source = Throw e ->
   Core.parsePage fastmatter source folder filepath options = Throw e) /\
  (forall attributes body,
     fastmatter source = Return (attributes, body) ->
     Core.parseCustomFields attributes (Core.fieldParsers options) = Throw e ->
     Core.parsePage fastmatter source folder filepath options = Throw e).
Proof.
  unfold Core.parsePage. split.
  - intros ->. reflexivity.
  - intros attributes body -> Hparsed. cbn [mbind result_bind].
    rewrite Hparsed. reflexivity.
Qed.

(** X5: a field of the parsed front matter whose name is none of
    [sourcePath], [content], [excerpt], [more], [url] is in the document
    [parsePage] returns as the field parsers left it. *)
Theorem parsePage_other_fields (source folder filepath : string)
    (options : Core.parseOptions) (attributes parsed : object value)
    (body : string) (name : string) :
  fastmatter source = Return (attributes, body) ->
  Core.parseCustomFields attributes (Core.fieldParsers options) = Return parsed ->
  name ∉ ["sourcePath"; "content"; "excerpt"; "more"; "url"] ->
  exists doc,
    Core.parsePage fastmatter source folder filepath options = Return doc /\
    ownProp doc name = ownProp parsed name.
Proof.
  intros Hfm Hparsed Hname. eexists. split.
  { exact (parsePage_returns _ _ _ _ _ _ _ _ Hfm Hparsed). }
  unfold Lodash.merge. cbn [fold_left]. now apply baseMerge_other.
Qed.

(** X6: for an extension [ext] that is not a name objects inherit from
    [Object.prototype], the content of the document parsed from a file
    [name.ext] is what the renderer registered for [ext] returns on the
    body, and the body itself when there is none. *)
Theorem parsePage_content_by_extension (source folder name ext : string)
    (options : Core.parseOptions) (attributes parsed : object value)
    (body : string) :
  Util.isExtension ext = true ->
  inherited ext = false ->
  fastmatter source = Return (attributes, body) ->
  Core.parseCustomFields attributes (Core.fieldParsers options) = Return parsed ->
  exists doc,
    Core.parsePage fastmatter source folder (name +:+ "." +:+ ext) options
      = Return doc /\
    getProp doc "content"
      = VStr (match ownProp (Core.renderers options) ext with
              | Some render => render body
              | None => body
              end).
Proof.
  intros Hext _ Hfm Hparsed. eexists. split.
  { exact (parsePage_returns _ _ _ _ _ _ _ _ Hfm Hparsed). }
  destruct (cut_scalar
              (Core.renderByType body (name +:+ "." +:+ ext)
                 (Core.renderers options)) (Core.cutTag options)) as [He Hm].
  destruct (structural_fields parsed (name +:+ "." +:+ ext)
              (Core.renderByType body (name +:+ "." +:+ ext)
                 (Core.renderers options))
              (Core.filepathToUrl (name +:+ "." +:+ ext)) _ _ He Hm)
    as (_ & Hcontent & _).
  rewrite Hcontent. unfold Core.renderByType.
  change (name +:+ "." +:+ ext) with (name +:+ String "." ext).
  now rewrite getExtension_append.
Qed.

End ParsedPages.

Lemma parsePage_fails_first_witness :
  let fastmatter := fun source : string =>
    if String.eqb source "---"
    then Throw (Error "bad front matter")
    else Return ([("date", VStr "yesterday")], source) in
  let date : Core.fieldParser := fun v => Throw (Error "Invalid date") in
  let options := {| Core.renderers := []; Core.fieldParsers := [("date", date)];
                    Core.cutTag := None |} in
  Core.parsePage fastmatter "---" "src" "post.md" options
    = Throw (Error "bad front matter") /\
  Core.parsePage fastmatter "Body" "src" "post.md" options
    = Throw (Error "Invalid date").
Proof.
  intros fastmatter date options. split.
  - destruct (parsePage_fails_first fastmatter "---" "src" "post.md" options
                (Error "bad front matter")) as [Hsplit _].
    exact (Hsplit eq_refl).
  - destruct (parsePage_fails_first fastmatter "Body" "src" "post.md" options
                (Error "Invalid date")) as [_ Hparse].
    exact (Hparse _ _ eq_refl eq_refl).
Defined.

Lemma parsePage_other_fields_witness :
  let fastmatter := fun source : string =>
    Return ([("title", VStr "Hello"); ("url", VStr "/custom")], source) in
  let options := {| Core.renderers := []; Core.fieldParsers := [];
                    Core.cutTag := None |} in
  let attributes := [("title", VStr "Hello"); ("url", VStr "/custom")] in
  fastmatter "Body" = Return (attributes, "Body") /\
  Core.parseCustomFields attributes (Core.fieldParsers options)
    = Return attributes /\
("title" ∉ ["sourcePath"; "content"; "excerpt"; "more"; "url"]) /\
  exists doc,
    Core.parsePage fastmatter "Body" "src" "post.md" options = Return doc /\
    ownProp doc "title" = Some (VStr "Hello").
Proof.
  intros fastmatter options attributes.
  assert (Hname : "title" ∉ ["sourcePath"; "content"; "excerpt"; "more"; "url"]).
  { intros Hin. repeat (apply elem_of_cons in Hin as [[=] | Hin]).
    now apply elem_of_nil in Hin. }
  split; [reflexivity|]. split; [reflexivity|]. split; [exact Hname|].
  exact (parsePage_other_fields fastmatter "Body" "src" "post.md" options
           attributes attributes "Body" "title" eq_refl eq_refl Hname).
Defined.

Lemma parsePage_content_by_extension_witness :
  let fastmatter := fun source : string =>
    Return ([("title", VStr "Hello")], source) in
  let options := {| Core.renderers := [("md", fun body => "<p>" +:+ body +:+ "</p>")];
                    Core.fieldParsers := []; Core.cutTag := None |} in
  Util.isExtension "md" = true /\
  inherited "md" = false /\
  fastmatter "Body" = Return ([("title", VStr "Hello")], "Body") /\
  Core.parseCustomFields [("title", VStr "Hello")] (Core.fieldParsers options)
    = Return [("title", VStr "Hello")] /\
  exists doc,
    Core.parsePage fastmatter "Body" "src" ("post" +:+ "." +:+ "md") options
      = Return doc /\
    getProp doc "content" = VStr "<p>Body</p>".
Proof.
  intros fastmatter options.
  split; [reflexivity|]. split; [reflexivity|]. split; [reflexivity|].
  split; [reflexivity|].
  exact (parsePage_content_by_extension fastmatter "Body" "src" "post" "md"
           options [("title", VStr "Hello")] [("title", VStr "Hello")] "Body"
           eq_refl eq_refl eq_refl eq_refl).
Defined.

(** ** Configs without languages, and what a language inherits *)

Lemma readConfigFiles_only_base (readYamlFile : string -> object value)
    (files : list string) :
  (forall filepath, filepath ∈ files ->
     Util.removeExtension (Core.basename filepath) = "base") ->
  Core.langs (Core.readConfigFiles readYamlFile files) = [] /\
  Core.base (Core.readConfigFiles readYamlFile files)
    = match last files with
      | Some filepath => readYamlFile filepath
      | None => []
      end.
Proof.
  unfold Core.readConfigFiles. intros Hall.
  assert (H : forall init, Core.langs init = [] ->
            Core.langs (fold_left (Core.readConfigFile readYamlFile) files init)
              = [] /\
            Core.base (fold_left (Core.readConfigFile readYamlFile) files init)
              = match last files with
                | Some filepath => readYamlFile filepath
                | None => Core.base init
                end).
  { induction files as [|f files IH]; intros init Hinit; [now split|].
    cbn [fold_left].
    assert (Hstep : Core.readConfigFile readYamlFile init f
                    = {| Core.base := readYamlFile f; Core.langs := [] |}).
    { unfold Core.readConfigFile. rewrite (Hall f) by constructor.
      now rewrite Hinit. }
    rewrite Hstep.
    destruct (IH (fun f' Hf' => Hall f' (list_elem_of_further _ _ _ Hf'))
                 {| Core.base := readYamlFile f; Core.langs := [] |} eq_refl)
      as [Hlangs Hbase].
    split; [exact Hlangs|]. rewrite Hbase.
    destruct files as [|f' files']; [reflexivity|]. rewrite last_cons_cons.
    destruct (last (f' :: files')) eqn:E; [reflexivity|].
    apply last_None in E. discriminate. }
  now apply H.
Qed.

(** X7: when the configs folder holds no file other than [base.yml],
    [loadConfig] returns the one-key mapping [{base}], whose value is what
    [base.yml] holds, and the empty mapping when there is no file at all. *)
Theorem loadConfig_base_only (globYml : string -> list string)
    (readYamlFile : string -> object value) (folder : string) :
  (forall filepath, filepath ∈ globYml folder ->
     Util.removeExtension (Core.basename filepath) = "base") ->
  Core.loadConfig globYml readYamlFile folder
    = [("base", match last (globYml folder) with
                | Some filepath => readYamlFile filepath
                | None => []
                end)].
Proof.
  intros Hall. unfold Core.loadConfig, Core.mergeConfigs.
  destruct (readConfigFiles_only_base readYamlFile (globYml folder) Hall)
    as [Hlangs Hbase].
  now rewrite Hlangs, Hbase.
Qed.

Lemma loadConfig_base_only_witness :
  let globYml := fun folder : string => [folder +:+ "/base.yml"] in
  let readYamlFile := fun filepath : string => [("theme", VStr "x")] in
  (forall filepath, filepath ∈ globYml "config" ->
     Util.removeExtension (Core.basename filepath) = "base") /\
  Core.loadConfig globYml readYamlFile "config"
    = [("base", [("theme", VStr "x")])].
Proof.
  intros globYml readYamlFile.
  assert (Hall : forall filepath, filepath ∈ globYml "config" ->
            Util.removeExtension (Core.basename filepath) = "base").
  { intros filepath Hin. apply list_elem_of_singleton in Hin. now subst. }
  split; [exact Hall|].
  exact (loadConfig_base_only globYml readYamlFile "config" Hall).
Defined.

(** X8: in what [mergeConfigs] returns for a language, a scalar setting of
    the base config that the language's overlay does not mention has the
    value the base config gives it. *)
Theorem mergeConfigs_inherits_base (configs : Core.Configs) (lang : string)
    (overlay : object value) (k : string) :
  ownProp (Core.langs configs) lang = Some overlay ->
  NoDup (ownKeys (Core.base configs)) ->
  k ∉ ownKeys overlay ->
  isScalar (getProp (Core.base configs) k) = true ->
  exists merged,
    ownProp (Core.mergeConfigs configs) lang = Some merged /\
    getProp merged k = getProp (Core.base configs) k.
Proof.
  intros Hoverlay Hnd Hk Hscalar.
  assert (Hlangs : Core.langs configs <> []).
  { intros Hnil. rewrite Hnil in Hoverlay. discriminate. }
  destruct (mergeConfigs_langs configs Hlangs) as (_ & Hlang & _).
  eexists. split; [exact (Hlang lang overlay Hoverlay)|].
  unfold Lodash.merge. cbn [fold_left].
  rewrite <- (merge_copy_scalar (Core.base configs) k Hnd Hscalar).
  unfold getProp. now rewrite baseMerge_other.
Qed.

Lemma mergeConfigs_inherits_base_witness :
  let configs := {| Core.base := [("theme", VStr "x"); ("title", VStr "Site")];
                    Core.langs := [("en", [("title", VStr "Hi")])] |} in
  ownProp (Core.langs configs) "en" = Some [("title", VStr "Hi")] /\
  NoDup (ownKeys (Core.base configs)) /\
  ("theme" ∉ ownKeys [("title", VStr "Hi")]) /\
  exists merged,
    ownProp (Core.mergeConfigs configs) "en" = Some merged /\
    getProp merged "theme" = VStr "x".
Proof.
  intros configs.
  assert (Hnd : NoDup (ownKeys (Core.base configs)))
    by (apply (bool_decide_unpack _); reflexivity).
  assert (Hk : "theme" ∉ ownKeys [("title", VStr "Hi")]).
  { intros Hin. apply list_elem_of_singleton in Hin. discriminate. }
  split; [reflexivity|]. split; [exact Hnd|]. split; [exact Hk|].
  exact (mergeConfigs_inherits_base configs "en" [("title", VStr "Hi")] "theme"
           eq_refl Hnd Hk eq_refl).
Defined.

(** ** Filters *)

Lemma allStateless_app (fields1 fields2 : object Core.criterion) :
  allStateless (fields1 ++ fields2)
    = allStateless fields1 && allStateless fields2.
Proof. apply forallb_app. Qed.

Lemma filter_filter {A} (f g : A -> bool) (l : list A) :
  List.filter g (List.filter f l) = List.filter (fun x => f x && g x) l.
Proof.
  induction l as [|x l IH]; [reflexivity|].
  cbn [List.filter]. destruct (f x); cbn [List.filter andb]; rewrite IH;
    reflexivity.
Qed.

(** Whatever state the criteria keep, the documents kept are a
    subsequence of the input. *)
Lemma filterEach_sublist (documents : list Core.Document) :
  forall fields : object Core.criterion,
    sublist (fst (Core.filterEach documents fields)) documents.
Proof.
  induction documents as [|d documents IH]; intros fields; [constructor|].
  cbn [Core.filterEach]. destruct (Core.passes d fields) as [answer fields'].
  specialize (IH fields').
  destruct (Core.filterEach documents fields') as [kept fields''].
  cbn [fst] in *. destruct answer; now constructor.
Qed.

(** X9: for criteria that keep no state (values, and regular expressions
    without the [g] and [y] flags), filtering by one set of criteria and
    then by another is filtering by the two sets together, when they name
    different fields, and the order of the two filters does not matter;
    with no criteria every document is kept. *)
Theorem filterDocuments_compose (documents : list Core.Document)
    (fields1 fields2 : object Core.criterion) :
  allStateless fields1 = true ->
  allStateless fields2 = true ->
  (NoDup (ownKeys (fields1 ++ fields2)) ->
   Core.filterDocuments (Core.filterDocuments documents fields1) fields2
     = Core.filterDocuments documents (fields1 ++ fields2)) /\
  Core.filterDocuments (Core.filterDocuments documents fields1) fields2
    = Core.filterDocuments (Core.filterDocuments documents fields2) fields1 /\
  Core.filterDocuments documents [] = documents.
Proof.
  intros H1 H2.
  assert (H12 : allStateless (fields1 ++ fields2) = true)
    by (rewrite allStateless_app, H1, H2; reflexivity).
  rewrite !(filterDocuments_stateless _ fields1 H1).
  rewrite !(filterDocuments_stateless _ fields2 H2).
  rewrite (filterDocuments_stateless _ _ H12).
  rewrite (filterDocuments_stateless _ [] eq_refl).
  rewrite !filter_filter. repeat split.
  - intros _. apply filter_ext. intros d. now rewrite forallb_app.
  - apply filter_ext. intros d. apply andb_comm.
  - cbn [forallb]. induction documents as [|d documents IH];
      [reflexivity|]. cbn [List.filter]. now rewrite IH.
Qed.

Lemma filterDocuments_compose_witness :
  let post : Core.Document := [("lang", VStr "en"); ("draft", VBool false)] in
  let note : Core.Document := [("lang", VStr "ru"); ("draft", VBool false)] in
  let page : Core.Document := [("lang", VStr "en"); ("draft", VBool true)] in
  let fields1 := [("lang", Core.Exactly (VStr "en"))] in
  let fields2 := [("draft", Core.Exactly (VBool false))] in
  allStateless fields1 = true /\
  allStateless fields2 = true /\
  NoDup (ownKeys (fields1 ++ fields2)) /\
  Core.filterDocuments (Core.filterDocuments [post; note; page] fields1) fields2
    = Core.filterDocuments [post; note; page] (fields1 ++ fields2) /\
  Core.filterDocuments [post; note; page] (fields1 ++ fields2) = [post].
Proof.
  intros post note page fields1 fields2.
  assert (Hnd : NoDup (ownKeys (fields1 ++ fields2)))
    by (apply (bool_decide_unpack _); reflexivity).
  split; [reflexivity|]. split; [reflexivity|]. split; [exact Hnd|].
  destruct (filterDocuments_compose [post; note; page] fields1 fields2
              eq_refl eq_refl) as [Hboth _].
  split; [exact (Hboth Hnd) | reflexivity].
Defined.

(** X10: what [filterDocuments] returns is a subsequence of its input (no
    document added, repeated or moved), whatever the criteria; for
    criteria that keep no state, filtering it again by the same criteria
    changes nothing. *)
Theorem filterDocuments_subsequence (documents : list Core.Document)
    (fields : object Core.criterion) :
  sublist (Core.filterDocuments documents fields) documents /\
  (allStateless fields = true ->
   Core.filterDocuments (Core.filterDocuments documents fields) fields
     = Core.filterDocuments documents fields).
Proof.
  split; [apply filterEach_sublist|]. intros Hfields.
  rewrite !(filterDocuments_stateless _ fields Hfields).
  rewrite filter_filter. apply filter_ext. intros d. apply andb_diag.
Qed.

Lemma filterDocuments_subsequence_witness :
  let post : Core.Document := [("lang", VStr "en")] in
  let note : Core.Document := [("lang", VStr "ru")] in
  let fields := [("lang", Core.RegExp (undefinedOnly false))] in
  allStateless fields = true /\
  Core.filterDocuments (Core.filterDocuments [post; note; []] fields) fields
    = Core.filterDocuments [post; note; []] fields /\
  Core.filterDocuments [post; note; []] fields = [[]].
Proof.
  intros post note fields. split; [reflexivity|].
  destruct (filterDocuments_subsequence [post; note; []] fields) as [_ Hagain].
  split; [exact (Hagain eq_refl) | reflexivity].
Defined.

Lemma strictEquals_scalar (a b : value) :
  isScalar b = true -> (strictEquals a b = true <-> a = b).
Proof.
  intros Hb. destruct a, b; cbn in *; try discriminate;
    try (split; [discriminate | intros [=]]); try tauto.
  - rewrite Bool.eqb_true_iff. split; [now intros -> | now intros [= ->]].
  - rewrite Z.eqb_eq. split; [now intros -> | now intros [= ->]].
  - rewrite String.eqb_eq. split; [now intros -> | now intros [= ->]].
Qed.

(** X11: a criterion that is a scalar value keeps exactly the documents
    on which the field reads that very value, with no coercion.  A
    document without the field is kept exactly when the criterion is
    [undefined], unless the field is a name inherited from
    [Object.prototype]: the document then reads the inherited member and
    is not kept. *)
Theorem filterDocuments_exact_value (documents : list Core.Document)
    (field : string) (v : value) (document : Core.Document) :
  isScalar v = true ->
  (document ∈ Core.filterDocuments documents [(field, Core.Exactly v)] <->
   document ∈ documents /\ readProp document field = Data v) /\
  (hasOwn document field = true ->
     (document ∈ Core.filterDocuments documents [(field, Core.Exactly v)] <->
      document ∈ documents /\ ownProp document field = Some v)) /\
  (hasOwn document field = false -> inherited field = false ->
     (document ∈ Core.filterDocuments documents [(field, Core.Exactly v)] <->
      document ∈ documents /\ v = VUndefined)) /\
  (hasOwn document field = false -> inherited field = true ->
     document ∉ Core.filterDocuments documents [(field, Core.Exactly v)]).
Proof.
  intros Hv.
  assert (H : document ∈ Core.filterDocuments documents [(field, Core.Exactly v)]
              <-> document ∈ documents /\ readProp document field = Data v).
  { rewrite (filterDocuments_spec _ [(field, Core.Exactly v)] _ eq_refl). split.
    - intros [Hin Hall]. split; [exact Hin|].
      specialize (Hall field (Core.Exactly v) ltac:(constructor)).
      cbn [satisfies] in Hall.
      destruct (readProp document field) as [a | name];
        cbn [readStrictEquals] in Hall; [|discriminate].
      f_equal. now apply (strictEquals_scalar _ _ Hv).
    - intros [Hin Heq]. split; [exact Hin|].
      intros f c Hf. apply list_elem_of_singleton in Hf. inversion Hf.
      cbn [satisfies]. rewrite Heq. cbn [readStrictEquals].
      now apply strictEquals_scalar. }
  split; [exact H|]. split; [|split].
  - intros Hown. rewrite H. unfold hasOwn in Hown. unfold readProp.
    destruct (ownProp document field) as [a|]; [|discriminate].
    split; intros [Hin Heq]; (split; [exact Hin | congruence]).
  - intros Habsent Hfield. rewrite H, (readProp_plain _ _ Hfield).
    unfold hasOwn in Habsent. unfold getProp.
    destruct (ownProp document field); [discriminate|].
    split; intros [Hin Heq]; (split; [exact Hin | congruence]).
  - intros Habsent Hfield. rewrite H, (readProp_member _ _ Habsent Hfield).
    intros [_ Heq]. discriminate.
Qed.

Lemma filterDocuments_exact_value_witness :
  let post : Core.Document := [("title", VStr "A"); ("lang", VStr "en")] in
  let note : Core.Document := [("title", VStr "B"); ("lang", VStr "ru")] in
  isScalar (VStr "en") = true /\
  hasOwn post "lang" = true /\
  post ∈ Core.filterDocuments [post; note] [("lang", Core.Exactly (VStr "en"))] /\
  hasOwn note "constructor" = false /\
  inherited "constructor" = true /\
  note ∉ Core.filterDocuments [post; note]
           [("constructor", Core.Exactly VUndefined)].
Proof.
  intros post note. split; [reflexivity|]. split; [reflexivity|].
  destruct (filterDocuments_exact_value [post; note] "lang" (VStr "en") post
              eq_refl) as (_ & Hown & _).
  split; [apply (Hown eq_refl); split; [constructor | reflexivity]|].
  split; [reflexivity|]. split; [reflexivity|].
  destruct (filterDocuments_exact_value [post; note] "constructor" VUndefined
              note eq_refl) as (_ & _ & _ & Hmember).
  exact (Hmember eq_refl eq_refl).
Defined.

(** ** Groups *)

Lemma foldl_Throw {A C} (g : C -> A -> result C) (e : exn) (xs : list A) :
  foldl (fun acc x => c ← acc; g c x) (Throw e) xs = Throw e.
Proof. induction xs as [|x xs IH]; [reflexivity | exact IH]. Qed.

Lemma groupDocument_cases (field : string) (document : Core.Document) :
  forall grouped : object (list Core.Document),
    (forall k, k ∈ ownKeys grouped -> inherited k = false) ->
    Core.groupDocument field grouped document
      = if offending field document
        then Throw (TypeError ("grouped[" +:+ Core.keyVariable field document
                               +:+ "].push is not a function"))
        else Return (fileAll (map (fun key => (key, document))
                                  (Core.groupKeys field document)) grouped).
Proof.
  unfold Core.groupDocument, fileAll, offending.
  generalize (Core.keyVariable field document) as variable. intros variable.
  induction (Core.groupKeys field document) as [|key keys IH];
    intros grouped Hinv; [reflexivity|].
  cbn [foldl existsb map fold_left]. cbn [mbind result_bind].
  destruct (inherited key) eqn:Hkey; cbn [orb].
  - unfold Core.addToGroup.
    destruct (ownProp grouped key) as [b|] eqn:Hown.
    + assert (Hin : key ∈ ownKeys grouped) by (apply ownProp_In; eauto).
      rewrite (Hinv key Hin) in Hkey. discriminate.
    + rewrite Hkey. apply foldl_Throw.
  - rewrite addToGroup_file by exact Hkey. apply IH.
    intros k Hk. unfold file in Hk. cbn [fst snd] in Hk.
    apply ownKeys_setProp in Hk as [-> | Hk]; [exact Hkey | now apply Hinv].
Qed.

Lemma offending_iff (field : string) (document : Core.Document) :
  offending field document = true <->
  exists key, key ∈ Core.groupKeys field document /\ inherited key = true.
Proof.
  unfold offending. rewrite existsb_exists. split.
  - intros (key & Hin & Hkey). exists key. split; [now apply list_elem_of_In|].
    exact Hkey.
  - intros (key & Hin & Hkey). exists key. split; [now apply list_elem_of_In|].
    exact Hkey.
Qed.

Lemma offending_false (field : string) (document : Core.Document) :
  offending field document = false <->
  forall key, key ∈ Core.groupKeys field document -> inherited key = false.
Proof.
  rewrite <- Bool.not_true_iff_false, offending_iff. split.
  - intros Hnot key Hin. destruct (inherited key) eqn:E; [|reflexivity].
    exfalso. apply Hnot. eauto.
  - intros Hall (key & Hin & Hkey). rewrite (Hall key Hin) in Hkey.
    discriminate.
Qed.

(** [gropDocuments] stops at the first document that has an inherited
    name among its keys; without one it makes all the filings. *)
Lemma gropDocuments_cases (documents : list Core.Document) (field : string) :
  Core.gropDocuments documents field
    = match List.find (offending field) documents with
      | Some document =>
          Throw (TypeError ("grouped[" +:+ Core.keyVariable field document
                            +:+ "].push is not a function"))
      | None => Return (fileAll (filings field documents) [])
      end.
Proof.
  unfold Core.gropDocuments.
  assert (H : forall grouped : object (list Core.Document),
            (forall k, k ∈ ownKeys grouped -> inherited k = false) ->
            foldl (fun acc document =>
                     g ← acc; Core.groupDocument field g document)
                  (Return grouped) documents
            = match List.find (offending field) documents with
              | Some document =>
                  Throw (TypeError ("grouped[" +:+ Core.keyVariable field document
                                    +:+ "].push is not a function"))
              | None => Return (fileAll (filings field documents) grouped)
              end).
  { induction documents as [|d documents IH]; intros grouped Hinv;
      [reflexivity|].
    cbn [foldl List.find]. cbn [mbind result_bind].
    rewrite (groupDocument_cases field d grouped Hinv).
    destruct (offending field d) eqn:Hd.
    - apply foldl_Throw.
    - rewrite IH.
      + unfold filings. cbn [flat_map]. fold (filings field documents).
        unfold fileAll. now rewrite fold_left_app.
      + intros k Hk. apply ownKeys_fileAll in Hk as [Hk | Hk];
          [now apply Hinv|].
        rewrite map_map in Hk. cbn [fst] in Hk. rewrite map_id in Hk.
        now apply (proj1 (offending_false field d) Hd). }
  apply H. intros k Hk. now apply elem_of_nil in Hk.
Qed.




Lemma groupKeys_scalar (field : string) (document : Core.Document) :
  isArray (getProp document field) = false ->
  Core.groupKeys field document = [readToString (readProp document field)].
Proof.
  unfold Core.groupKeys, readProp, getProp.
  destruct (ownProp document field) as [v|].
  - destruct v; try discriminate; reflexivity.
  - now destruct (inherited field).
Qed.

Lemma filings_scalar (field : string) (documents : list Core.Document) :
  (forall document, document ∈ documents ->
     isArray (getProp document field) = false) ->
  filings field documents
    = map (fun document =>
             (readToString (readProp document field), document))
          documents.
Proof.
  unfold filings. induction documents as [|d documents IH]; intros Hall;
    [reflexivity|].
  cbn [flat_map map]. rewrite groupKeys_scalar by (apply Hall; constructor).
  cbn [map app]. rewrite IH; [reflexivity|].
  intros d' Hd'. apply Hall. now constructor.
Qed.

Lemma filedUnder_map (key : string) (keyOf : Core.Document -> string)
    (documents : list Core.Document) :
  filedUnder key (map (fun document => (keyOf document, document)) documents)
    = List.filter (fun document => String.eqb (keyOf document) key) documents.
Proof.
  unfold filedUnder. induction documents as [|d documents IH]; [reflexivity|].
  cbn [map List.filter fst]. destruct (String.eqb (keyOf d) key);
    cbn [map snd]; now rewrite IH.
Qed.

Lemma gropDocuments_scalar (documents : list Core.Document) (field : string) :
  (forall document, document ∈ documents ->
     isArray (getProp document field) = false /\
     inherited (readToString (readProp document field)) = false) ->
  Core.gropDocuments documents field
    = Return (fileAll (filings field documents) []) /\
  forall key,
    bucket (fileAll (filings field documents) []) key
      = List.filter
          (fun document =>
             String.eqb (readToString (readProp document field)) key)
          documents.
Proof.
  intros Hall. split.
  - apply gropDocuments_fileAll. intros d key Hd Hkey.
    destruct (Hall d Hd) as [Hscalar Hinh].
    rewrite (groupKeys_scalar _ _ Hscalar) in Hkey.
    apply list_elem_of_singleton in Hkey. now subst key.
  - intros key. rewrite bucket_fileAll. cbn [bucket ownProp default app].
    rewrite filings_scalar by (intros d Hd; apply (Hall d Hd)).
    apply filedUnder_map.
Qed.

(** X13: when on no document the grouped field is an array, and no key
    is a name inherited from [Object.prototype], [gropDocuments] is a
    partition of the input: the bucket of a key holds, in input order,
    exactly the documents on which the string form of what the field
    reads is that key, so every document is in one bucket, and the
    buckets together are a rearrangement of the input.  A document
    without the field is under ["undefined"], or, for a field that is a
    name inherited from [Object.prototype], under the string form of the
    inherited member. *)
Theorem gropDocuments_partition (documents : list Core.Document)
    (field : string) :
  (forall document, document ∈ documents ->
     isArray (getProp document field) = false /\
     inherited (readToString (readProp document field)) = false) ->
  exists grouped,
    Core.gropDocuments documents field = Return grouped /\
    (forall key,
       bucket grouped key
         = List.filter
             (fun document =>
                String.eqb (readToString (readProp document field)) key)
             documents) /\
    (forall document key,
       document ∈ bucket grouped key <->
       document ∈ documents /\
       readToString (readProp document field) = key) /\
    (forall document, document ∈ documents ->
       hasOwn document field = false ->
       document ∈ bucket grouped
                    (if inherited field then memberText field
                     else "undefined")) /\
    Permutation (concat (map snd grouped)) documents.
Proof.
  intros Hall. destruct (gropDocuments_scalar documents field Hall)
    as [Hrun Hbucket].
  assert (Hiff : forall document key,
            document ∈ bucket (fileAll (filings field documents) []) key <->
            document ∈ documents /\
            readToString (readProp document field) = key).
  { intros d key. rewrite Hbucket, list_elem_of_In, filter_In,
      <- list_elem_of_In, String.eqb_eq. reflexivity. }
  eexists. split; [exact Hrun|]. split; [exact Hbucket|].
  split; [exact Hiff|]. split.
  - intros d Hd Habsent. apply Hiff. split; [exact Hd|].
    unfold hasOwn in Habsent. unfold readProp.
    destruct (ownProp d field); [discriminate|].
    now destruct (inherited field).
  - rewrite concat_fileAll. cbn [map concat app].
    rewrite filings_scalar by (intros d Hd; apply (Hall d Hd)).
    rewrite map_map. cbn [snd]. now rewrite map_id.
Qed.

(** X14: when the grouped field is a string on every document, the bucket
    of a key is what [filterDocuments] keeps for the criterion that the
    field equals that key. *)
Theorem gropDocuments_bucket_is_filter (documents : list Core.Document)
    (field : string) :
  (forall document, document ∈ documents ->
     exists s, getProp document field = VStr s /\ inherited s = false) ->
  exists grouped,
    Core.gropDocuments documents field = Return grouped /\
    forall key,
      bucket grouped key
        = Core.filterDocuments documents [(field, Core.Exactly (VStr key))].
Proof.
  intros Hall.
  assert (Hread : forall document, document ∈ documents ->
            exists s, getProp document field = VStr s /\
              readProp document field = Data (VStr s) /\ inherited s = false).
  { intros d Hd. destruct (Hall d Hd) as (s & Hs & Hinh). exists s.
    split; [exact Hs|]. split; [|exact Hinh].
    rewrite readProp_defined by now rewrite Hs. now rewrite Hs. }
  assert (Hscalar : forall document, document ∈ documents ->
            isArray (getProp document field) = false /\
            inherited (readToString (readProp document field)) = false).
  { intros d Hd. destruct (Hread d Hd) as (s & -> & -> & Hs). now split. }
  destruct (gropDocuments_scalar documents field Hscalar) as [Hrun Hbucket].
  eexists. split; [exact Hrun|]. intros key. rewrite Hbucket.
  rewrite (filterDocuments_stateless _ [(field, Core.Exactly (VStr key))] eq_refl).
  apply filter_ext_in. intros d Hd.
  apply list_elem_of_In in Hd. destruct (Hread d Hd) as (s & _ & Hs & _).
  cbn [forallb fst snd satisfies]. rewrite Hs.
  cbn [readToString readStrictEquals toString strictEquals].
  now destruct (String.eqb s key).
Qed.


Lemma gropDocuments_partition_witness :
  let post : Core.Document := [("title", VStr "A"); ("lang", VStr "en")] in
  let note : Core.Document := [("title", VStr "B"); ("lang", VStr "ru")] in
  let page : Core.Document := [("title", VStr "C"); ("lang", VStr "en")] in
  (forall document, document ∈ [post; note; page] ->
     isArray (getProp document "lang") = false /\
     inherited (readToString (readProp document "lang")) = false) /\
  exists grouped,
    Core.gropDocuments [post; note; page] "lang" = Return grouped /\
    bucket grouped "en" = [post; page] /\
    bucket grouped "ru" = [note].
Proof.
  intros post note page.
  assert (Hall : forall document, document ∈ [post; note; page] ->
            isArray (getProp document "lang") = false /\
            inherited (readToString (readProp document "lang")) = false).
  { intros d Hd.
    repeat (apply elem_of_cons in Hd as [-> | Hd]);
      first [now split | now apply elem_of_nil in Hd]. }
  split; [exact Hall|].
  destruct (gropDocuments_partition [post; note; page] "lang" Hall)
    as (grouped & Hrun & Hbucket & _).
  exists grouped. split; [exact Hrun|]. rewrite !Hbucket. now split.
Defined.

Lemma gropDocuments_bucket_is_filter_witness :
  let post : Core.Document := [("title", VStr "A"); ("lang", VStr "en")] in
  let note : Core.Document := [("title", VStr "B"); ("lang", VStr "ru")] in
  (forall document, document ∈ [post; note] ->
     exists s, getProp document "lang" = VStr s /\ inherited s = false) /\
  exists grouped,
    Core.gropDocuments [post; note] "lang" = Return grouped /\
    bucket grouped "ru"
      = Core.filterDocuments [post; note] [("lang", Core.Exactly (VStr "ru"))].
Proof.
  intros post note.
  assert (Hall : forall document, document ∈ [post; note] ->
            exists s, getProp document "lang" = VStr s /\ inherited s = false).
  { intros d Hd. repeat (apply elem_of_cons in Hd as [-> | Hd]).
    - now exists "en".
    - now exists "ru".
    - now apply elem_of_nil in Hd. }
  split; [exact Hall|].
  destruct (gropDocuments_bucket_is_filter [post; note] "lang" Hall)
    as (grouped & Hrun & Hbucket).
  exists grouped. split; [exact Hrun | apply Hbucket].
Defined.

(** ** Pages of a pagination *)

Lemma paginate_inv (documents : list Core.Document)
    (options : Core.paginateOptions) (pages : list Core.page) :
  Core.paginate documents options = Return pages ->
  exists urlPrefix k layout,
    Core.urlPrefix options = Some urlPrefix /\ urlPrefix <> "" /\
    Core.documentsPerPage options = Some k /\ k <> 0 /\
    Core.layout options = Some layout /\ layout <> "" /\
    pages = map (Core.makePage documents urlPrefix k layout
                   (Core.ceilDiv (Z.of_nat (length documents)) k))
                (Lodash.range (Core.ceilDiv (Z.of_nat (length documents)) k)).
Proof.
  unfold Core.paginate, Core.isSet, Core.isNonZero.
  destruct (Core.urlPrefix options) as [u|]; [|discriminate].
  destruct (String.eqb u "") eqn:Hu; [discriminate|].
  destruct (Core.documentsPerPage options) as [k|]; [|discriminate].
  destruct (Z.eqb k 0) eqn:Hk; [discriminate|].
  destruct (Core.layout options) as [l|]; [|discriminate].
  destruct (String.eqb l "") eqn:Hl; [discriminate|].
  cbn. intros [= <-]. exists u, k, l.
  apply String.eqb_neq in Hu, Hl. apply Z.eqb_neq in Hk.
  repeat split; assumption.
Qed.

Lemma map_range {B} (f : Z -> B) (t : Z) :
  map f (Lodash.range t) = map (fun i => f (Z.of_nat i)) (seq 0 (Z.to_nat t)).
Proof.
  unfold Lodash.range, seqZ. generalize (seq 0 (Z.to_nat t)) as l.
  induction l as [|i l IH]; [reflexivity|].
  cbn. rewrite Z.add_0_r. f_equal. exact IH.
Qed.

Lemma lookup_range_page (documents : list Core.Document) (urlPrefix : string)
    (k : Z) (layout : string) (t : Z) (j : nat) (page : Core.page) :
  map (Core.makePage documents urlPrefix k layout t) (Lodash.range t) !! j
    = Some page ->
  (j < Z.to_nat t)%nat /\
  page = Core.makePage documents urlPrefix k layout t (Z.of_nat j).
Proof.
  rewrite map_range, lookup_map. intros H.
  destruct (seq 0 (Z.to_nat t) !! j) as [i|] eqn:E; [|discriminate].
  apply lookup_seq in E as [-> Hj]. cbn in H. inversion H. now split.
Qed.

Lemma documents_makePage (documents : list Core.Document) (urlPrefix : string)
    (k : Z) (layout : string) (j : nat) :
  0 < k ->
  (j < Z.to_nat (Core.ceilDiv (Z.of_nat (length documents)) k))%nat ->
  Core.documents
    (Core.makePage documents urlPrefix k layout
       (Core.ceilDiv (Z.of_nat (length documents)) k) (Z.of_nat j))
  = take (Z.to_nat k) (drop (j * Z.to_nat k) documents).
Proof.
  intros Hk Hj.
  pose proof (ceilDiv_bounds (Z.of_nat (length documents)) k Hk) as Hb.
  unfold Core.makePage. cbn [Core.documents].
  replace (Z.of_nat j + 1 - 1) with (Z.of_nat j) by lia.
  rewrite slice_window by nia. do 2 f_equal. nia.
Qed.

Lemma concat_windows {A} (l : list A) (k t : nat) :
  concat (map (fun j => take k (drop (j * k) l)) (seq 0 t)) = take (t * k) l.
Proof.
  induction t as [|t IH]; [reflexivity|].
  rewrite seq_S, map_app, concat_app, IH. cbn [map concat plus].
  rewrite app_nil_r, take_take_drop. f_equal. lia.
Qed.

(** X15: with a positive [documentsPerPage], the documents of the pages of
    [paginate], taken page after page, are the input documents: none is
    lost, repeated or moved. *)
Theorem paginate_covers (documents : list Core.Document)
    (options : Core.paginateOptions) (pages : list Core.page) (k : Z) :
  Core.paginate documents options = Return pages ->
  Core.documentsPerPage options = Some k -> 0 < k ->
  concat (map Core.documents pages) = documents.
Proof.
  intros Hrun Hk Hpos.
  destruct (paginate_inv _ _ _ Hrun) as (u & k' & l & _ & _ & Hk' & _ & _ & _ & ->).
  assert (k' = k) by congruence. subst k'.
  pose proof (ceilDiv_bounds (Z.of_nat (length documents)) k Hpos) as Hb.
  rewrite map_map, map_range.
  rewrite (map_ext_in _ (fun j => take (Z.to_nat k)
                                    (drop (j * Z.to_nat k) documents))).
  - rewrite concat_windows. apply take_ge. nia.
  - intros j Hj. apply in_seq in Hj. apply documents_makePage; [exact Hpos | lia].
Qed.

(** X16: with a positive [documentsPerPage] [k], no page of [paginate] is
    empty, none has more than [k] documents, and every page but the last
    has exactly [k]. *)
Theorem paginate_page_sizes (documents : list Core.Document)
    (options : Core.paginateOptions) (pages : list Core.page) (k : Z) :
  Core.paginate documents options = Return pages ->
  Core.documentsPerPage options = Some k -> 0 < k ->
  forall j page, pages !! j = Some page ->
    (0 < length (Core.documents page) <= Z.to_nat k)%nat /\
    (S j < length pages -> length (Core.documents page) = Z.to_nat k)%nat.
Proof.
  intros Hrun Hk Hpos j page Hpage.
  destruct (paginate_inv _ _ _ Hrun) as (u & k' & l & _ & _ & Hk' & _ & _ & _ & ->).
  assert (k' = k) by congruence. subst k'.
  pose proof (ceilDiv_bounds (Z.of_nat (length documents)) k Hpos) as Hb.
  rewrite length_map. unfold Lodash.range. rewrite length_seqZ.
  apply lookup_range_page in Hpage as [Hj ->].
  rewrite documents_makePage by assumption.
  rewrite length_take, length_drop. split; [nia|]. intros Hlast. nia.
Qed.

Lemma NoDup_map_inj {A B} (f : A -> B) (l : list A) :
  (forall x y, f x = f y -> x = y) -> NoDup l -> NoDup (map f l).
Proof.
  intros Hinj. induction 1 as [|x l Hx Hnd IH]; [constructor|].
  cbn [map]. constructor; [|exact IH].
  intros Hin. apply list_elem_of_In, in_map_iff in Hin as (y & Hy & Hin).
  apply Hinj in Hy. subst y. apply Hx. now apply list_elem_of_In.
Qed.

Lemma getPageNumberUrl_inj (urlPrefix : string) (i j : Z) :
  Core.getPageNumberUrl urlPrefix i = Core.getPageNumberUrl urlPrefix j ->
  i = j.
Proof.
  unfold Core.getPageNumberUrl. intros H.
  apply (inj (String.app urlPrefix)), (inj (String.app "/page/")) in H.
  now apply (inj pretty) in H.
Qed.

Lemma stripLeadingSlash_append (urlPrefix rest : string) :
  urlPrefix <> "" ->
  Core.stripLeadingSlash (urlPrefix +:+ rest)
    = Core.stripLeadingSlash urlPrefix +:+ rest.
Proof.
  intros Hne. destruct urlPrefix as [|c urlPrefix]; [congruence|].
  rewrite append_cons. unfold Core.stripLeadingSlash.
  destruct c as [[] [] [] [] [] [] [] []]; reflexivity.
Qed.

(** X17: the pages [paginate] returns have pairwise distinct urls and
    pairwise distinct source paths. *)
Theorem paginate_urls_distinct (documents : list Core.Document)
    (options : Core.paginateOptions) (pages : list Core.page) :
  Core.paginate documents options = Return pages ->
  NoDup (map Core.url pages) /\ NoDup (map Core.sourcePath pages).
Proof.
  intros Hrun.
  destruct (paginate_inv _ _ _ Hrun) as (u & k & l & _ & Hu & _ & _ & _ & _ & ->).
  rewrite !map_map. split.
  - apply NoDup_map_inj; [|apply NoDup_seqZ].
    intros i j H. cbn in H. apply getPageNumberUrl_inj in H. lia.
  - apply NoDup_map_inj; [|apply NoDup_seqZ].
    intros i j H. cbn in H. unfold Core.getPageNumberUrl in H.
    rewrite !stripLeadingSlash_append in H by exact Hu.
    apply (inj (String.app _)), (inj (String.app "/page/")) in H.
    apply (inj pretty) in H. lia.
Qed.

(** X18: in the pages [paginate] returns, the next link of a page is the
    url of the page after it, and the previous link of that page is the url
    of the page before it. *)
Theorem paginate_links (documents : list Core.Document)
    (options : Core.paginateOptions) (pages : list Core.page)
    (j : nat) (p q : Core.page) :
  Core.paginate documents options = Return pages ->
  pages !! j = Some p -> pages !! S j = Some q ->
  Core.nextUrl p = Some (Core.url q) /\ Core.previousUrl q = Some (Core.url p).
Proof.
  intros Hrun Hp Hq.
  destruct (paginate_inv _ _ _ Hrun) as (u & k & l & _ & _ & _ & _ & _ & _ & ->).
  apply lookup_range_page in Hp as [Hj ->].
  apply lookup_range_page in Hq as [Hj' ->].
  unfold Core.makePage. cbn [Core.nextUrl Core.previousUrl Core.url].
  replace (Z.of_nat j + 1 <? _) with true by (symmetry; apply Z.ltb_lt; lia).
  replace (1 <? Z.of_nat (S j) + 1) with true
    by (symmetry; apply Z.ltb_lt; lia).
  split; do 2 f_equal; lia.
Qed.

Lemma paginate_covers_witness :
  let documents : list Core.Document :=
    [[("title", VStr "a")]; [("title", VStr "b")]; [("title", VStr "c")]] in
  let options := {| Core.urlPrefix := Some "/blog";
                    Core.documentsPerPage := Some 2;
                    Core.layout := Some "list" |} in
  exists pages,
    Core.paginate documents options = Return pages /\
    Core.documentsPerPage options = Some 2 /\ 0 < 2 /\
    concat (map Core.documents pages) = documents.
Proof.
  intros documents options. eexists. split; [reflexivity|].
  split; [reflexivity|]. split; [lia|].
  apply (paginate_covers documents options _ 2); [reflexivity | reflexivity | lia].
Defined.

Lemma paginate_page_sizes_witness :
  let documents : list Core.Document :=
    [[("title", VStr "a")]; [("title", VStr "b")]; [("title", VStr "c")]] in
  let options := {| Core.urlPrefix := Some "/blog";
                    Core.documentsPerPage := Some 2;
                    Core.layout := Some "list" |} in
  exists pages page,
    Core.paginate documents options = Return pages /\
    Core.documentsPerPage options = Some 2 /\ 0 < 2 /\
    pages !! 0%nat = Some page /\
    length (Core.documents page) = 2%nat.
Proof.
  intros documents options. eexists. eexists. split; [reflexivity|].
  split; [reflexivity|]. split; [lia|]. split; [reflexivity|].
  destruct (paginate_page_sizes documents options _ 2 eq_refl eq_refl
              ltac:(lia) 0%nat _ eq_refl) as [_ Hfull].
  apply Hfull. vm_compute. lia.
Defined.

Lemma paginate_urls_distinct_witness :
  let documents : list Core.Document :=
    [[("title", VStr "a")]; [("title", VStr "b")]; [("title", VStr "c")]] in
  let options := {| Core.urlPrefix := Some "/blog";
                    Core.documentsPerPage := Some 2;
                    Core.layout := Some "list" |} in
  exists pages,
    Core.paginate documents options = Return pages /\
    NoDup (map Core.url pages).
Proof.
  intros documents options. eexists. split; [reflexivity|].
  apply (paginate_urls_distinct documents options _ eq_refl).
Defined.

Lemma paginate_links_witness :
  let documents : list Core.Document :=
    [[("title", VStr "a")]; [("title", VStr "b")]; [("title", VStr "c")]] in
  let options := {| Core.urlPrefix := Some "/blog";
                    Core.documentsPerPage := Some 2;
                    Core.layout := Some "list" |} in
  exists pages p q,
    Core.paginate documents options = Return pages /\
    pages !! 0%nat = Some p /\ pages !! 1%nat = Some q /\
    Core.nextUrl p = Some (Core.url q).
Proof.
  intros documents options. eexists. eexists. eexists.
  split; [reflexivity|]. split; [reflexivity|]. split; [reflexivity|].
  apply (paginate_links documents options _ 0%nat _ _ eq_refl eq_refl eq_refl).
Defined.

(** ** The rendering context *)

Lemma assignMerged_object (o : object value) (key : string)
    (props : object value) :
  Lodash.assignMerged o (key, VObj props)
    = setProp o key
        (VObj (Lodash.baseMerge
                 (match ownProp o key with Some (VObj d) => d | _ => [] end)
                 props)).
Proof. reflexivity. Qed.

(** X19: in the context [makeContext] builds, a defined scalar field of the
    document has the document's value, whatever the helpers and the config
    are; a scalar helper that the document does not name, other than
    [config], has the helpers' value. *)
Theorem makeContext_precedence (document : Core.Document)
    (config helpers : object value) (k : string) :
  NoDup (ownKeys document) -> NoDup (ownKeys helpers) ->
  (forall v, ownProp document k = Some v ->
     isScalar v = true -> isDefined v = true ->
     getProp (Pages.makeContext document config helpers) k = v) /\
  (k ∉ ownKeys document -> k <> "config" ->
   isScalar (getProp helpers k) = true ->
   getProp (Pages.makeContext document config helpers) k = getProp helpers k).
Proof.
  intros Hdoc Hhelpers. unfold Pages.makeContext, Lodash.merge.
  cbn [fold_left]. split.
  - intros v Hv Hs Hd. unfold getProp.
    now rewrite (baseMerge_source_wins document _ k v).
  - intros Hk Hconfig Hs.
    rewrite <- (merge_copy_scalar helpers k Hhelpers Hs).
    unfold getProp. rewrite baseMerge_other by exact Hk.
    rewrite baseMerge_other; [reflexivity|].
    cbn [ownKeys map fst]. intros Hin.
    apply list_elem_of_singleton in Hin. contradiction.
Qed.

(** X20: when the document has no field named [config], the context has
    the config under [config], as an object in which every defined scalar
    setting of the config has its value. *)
Theorem makeContext_config (document : Core.Document)
    (config helpers : object value) :
  "config" ∉ ownKeys document -> NoDup (ownKeys config) ->
  exists c,
    getProp (Pages.makeContext document config helpers) "config" = VObj c /\
    forall setting v, ownProp config setting = Some v ->
      isScalar v = true -> isDefined v = true ->
      getProp c setting = v.
Proof.
  intros Hdoc Hconfig. unfold Pages.makeContext, Lodash.merge.
  cbn [fold_left]. eexists. split.
  - unfold getProp. rewrite baseMerge_other by exact Hdoc.
    unfold Lodash.baseMerge at 1. cbn [fold_left].
    rewrite assignMerged_object, ownProp_setProp, String.eqb_refl.
    reflexivity.
  - intros setting v Hsetting Hs Hd. unfold getProp.
    now rewrite (baseMerge_source_wins config _ setting v).
Qed.

Lemma makeContext_precedence_witness :
  let document : Core.Document := [("title", VStr "A"); ("h", VNum 2)] in
  let helpers := [("h", VNum 1); ("site", VStr "S")] in
  NoDup (ownKeys document) /\ NoDup (ownKeys helpers) /\
  getProp (Pages.makeContext document [] helpers) "h" = VNum 2 /\
  getProp (Pages.makeContext document [] helpers) "site" = VStr "S".
Proof.
  intros document helpers.
  assert (Hdoc : NoDup (ownKeys document))
    by (apply (bool_decide_unpack _); reflexivity).
  assert (Hhelpers : NoDup (ownKeys helpers))
    by (apply (bool_decide_unpack _); reflexivity).
  split; [exact Hdoc|]. split; [exact Hhelpers|]. split.
  - destruct (makeContext_precedence document [] helpers "h" Hdoc Hhelpers)
      as [Hwins _].
    now apply Hwins.
  - destruct (makeContext_precedence document [] helpers "site" Hdoc Hhelpers)
      as [_ Hpass].
    apply Hpass; [|discriminate | reflexivity].
    intros Hin. repeat (apply elem_of_cons in Hin as [[=] | Hin]).
    now apply elem_of_nil in Hin.
Defined.

Lemma makeContext_config_witness :
  let document : Core.Document := [("title", VStr "A")] in
  let config := [("site", VStr "S")] in
  ("config" ∉ ownKeys document) /\ NoDup (ownKeys config) /\
  exists c,
    getProp (Pages.makeContext document config [("h", VNum 1)]) "config"
      = VObj c /\
    getProp c "site" = VStr "S".
Proof.
  intros document config.
  assert (Hdoc : "config" ∉ ownKeys document).
  { intros Hin. apply list_elem_of_singleton in Hin. discriminate. }
  assert (Hconfig : NoDup (ownKeys config)) by apply NoDup_singleton.
  split; [exact Hdoc|]. split; [exact Hconfig|].
  destruct (makeContext_config document config [("h", VNum 1)] Hdoc Hconfig)
    as (c & Hc & Hsettings).
  exists c. split; [exact Hc|]. now apply Hsettings.
Defined.

(** ** Page generation *)

Lemma mapThrowing_Forall2 {A B} (f : A -> result B) (P : A -> B -> Prop)
    (xs : list A) :
  (forall x, x ∈ xs -> exists y, f x = Return y /\ P x y) ->
  exists ys, Pages.mapThrowing f xs = Return ys /\ Forall2 P xs ys.
Proof.
  induction xs as [|x xs IH]; intros Hall.
  - exists []. split; [reflexivity | constructor].
  - destruct (Hall x) as (y & Hy & Hp); [constructor|].
    destruct IH as (ys & Hys & Hps).
    { intros x' Hx'. apply Hall. now constructor. }
    exists (y :: ys). split; [|now constructor].
    cbn [Pages.mapThrowing]. rewrite Hy. cbn [mbind result_bind].
    now rewrite Hys.
Qed.

Lemma mapThrowing_throws {A B} (f : A -> result B) (xs : list A) (x : A) :
  x ∈ xs -> (exists e, f x = Throw e) ->
  exists e, Pages.mapThrowing f xs = Throw e.
Proof.
  intros Hin [e He]. induction xs as [|x' xs IH];
    [now apply elem_of_nil in Hin|].
  cbn [Pages.mapThrowing].
  destruct (f x') as [e' | y] eqn:Hx'; cbn [mbind result_bind]; [eauto|].
  apply elem_of_cons in Hin as [-> | Hin]; [congruence|].
  destruct (IH Hin) as [e' He']. rewrite He'. eauto.
Qed.

(** X21: for a document with a layout and a string [sourcePath],
    [generatePage] renders the template named by the layout and the
    extension of the first renderer, with that renderer and the context of
    [makeContext]; the page path is the source path without its extension,
    and the renderers after the first play no part. *)
Theorem generatePage_first_renderer (document : Core.Document)
    (config helpers : object value) (templateExtension : string)
    (render : Pages.templateRenderer) (others : object Pages.templateRenderer)
    (sourcePath html : string) :
  Pages.truthy (getProp document "layout") = true ->
  getProp document "sourcePath" = VStr sourcePath ->
  render (toString (getProp document "layout") +:+ "." +:+ templateExtension)
         (Pages.makeContext document config helpers) = Return html ->
  Pages.generatePage document config helpers
    ((templateExtension, render) :: others)
  = Return {| Pages.pagePath := Util.removeExtension sourcePath;
              Pages.content := html |}.
Proof.
  intros Hlayout Hpath Hrender. unfold Pages.generatePage.
  rewrite Hlayout. cbn [negb]. rewrite Hrender. cbn [mbind result_bind].
  now rewrite Hpath.
Qed.

(** X22: if some document has no layout (the field is absent or falsy),
    [generatePages] throws whatever the other documents and the renderers
    are: no list of pages is returned. *)
Theorem generatePages_needs_layouts (documents : list Core.Document)
    (config helpers : object value) (renderers : object Pages.templateRenderer)
    (document : Core.Document) :
  document ∈ documents ->
  Pages.truthy (getProp document "layout") = false ->
  exists e, Pages.generatePages documents config helpers renderers = Throw e.
Proof.
  intros Hin Hlayout. unfold Pages.generatePages.
  apply (mapThrowing_throws _ _ document Hin).
  unfold Pages.generatePage. rewrite Hlayout. cbn [negb]. eauto.
Qed.

(** X23: when every document has a layout and a string [sourcePath] and
    the first renderer returns on each of them, [generatePages] returns one
    page per document, in the order of the documents, each with the source
    path of its document without the extension and the text the renderer
    returned. *)
Theorem generatePages_pages (documents : list Core.Document)
    (config helpers : object value) (templateExtension : string)
    (render : Pages.templateRenderer) (others : object Pages.templateRenderer) :
  (forall document, document ∈ documents ->
     Pages.truthy (getProp document "layout") = true /\
     (exists sourcePath, getProp document "sourcePath" = VStr sourcePath) /\
     exists html,
       render (toString (getProp document "layout") +:+ "." +:+ templateExtension)
              (Pages.makeContext document config helpers) = Return html) ->
  exists pages,
    Pages.generatePages documents config helpers
      ((templateExtension, render) :: others) = Return pages /\
    Forall2
      (fun document page =>
         exists sourcePath,
           getProp document "sourcePath" = VStr sourcePath /\
           Pages.pagePath page = Util.removeExtension sourcePath /\
           render (toString (getProp document "layout") +:+ "."
                   +:+ templateExtension)
                  (Pages.makeContext document config helpers)
             = Return (Pages.content page))
      documents pages.
Proof.
  intros Hall. unfold Pages.generatePages. apply mapThrowing_Forall2.
  intros d Hd. destruct (Hall d Hd) as (Hlayout & (s & Hs) & (html & Hhtml)).
  eexists. split.
  - unfold Pages.generatePage. rewrite Hlayout. cbn [negb]. rewrite Hhtml.
    cbn [mbind result_bind]. rewrite Hs. reflexivity.
  - exists s. cbn [Pages.pagePath Pages.content]. now repeat split.
Qed.

Lemma generatePage_first_renderer_witness :
  let document : Core.Document :=
    [("layout", VStr "post"); ("sourcePath", VStr "posts/hello.md")] in
  let render : Pages.templateRenderer :=
    fun templateFile context => Return ("<" +:+ templateFile +:+ ">") in
  Pages.truthy (getProp document "layout") = true /\
  getProp document "sourcePath" = VStr "posts/hello.md" /\
  Pages.generatePage document [] []
    [("ect", render); ("jade", fun _ _ => Throw (Error "unused"))]
  = Return {| Pages.pagePath := "posts/hello";
              Pages.content := "<post.ect>" |}.
Proof.
  intros document render. split; [reflexivity|]. split; [reflexivity|].
  exact (generatePage_first_renderer document [] [] "ect" render
           [("jade", fun _ _ => Throw (Error "unused"))]
           "posts/hello.md" "<post.ect>" eq_refl eq_refl eq_refl).
Defined.

Lemma generatePages_needs_layouts_witness :
  let post : Core.Document :=
    [("layout", VStr "post"); ("sourcePath", VStr "a.md")] in
  let draft : Core.Document := [("sourcePath", VStr "b.md")] in
  let render : Pages.templateRenderer :=
    fun templateFile context => Return templateFile in
  (draft ∈ [post; draft]) /\
  Pages.truthy (getProp draft "layout") = false /\
  exists e, Pages.generatePages [post; draft] [] [] [("ect", render)] = Throw e.
Proof.
  intros post draft render.
  assert (Hin : draft ∈ [post; draft]) by (constructor; constructor).
  split; [exact Hin|]. split; [reflexivity|].
  exact (generatePages_needs_layouts [post; draft] [] [] [("ect", render)]
           draft Hin eq_refl).
Defined.

Lemma generatePages_pages_witness :
  let post : Core.Document :=
    [("layout", VStr "post"); ("sourcePath", VStr "a.md")] in
  let render : Pages.templateRenderer :=
    fun templateFile context => Return templateFile in
  (forall document, document ∈ [post] ->
     Pages.truthy (getProp document "layout") = true /\
     (exists sourcePath, getProp document "sourcePath" = VStr sourcePath) /\
     exists html,
       render (toString (getProp document "layout") +:+ "." +:+ "ect")
              (Pages.makeContext document [] []) = Return html) /\
  exists pages,
    Pages.generatePages [post] [] [] [("ect", render)] = Return pages /\
    length pages = 1%nat.
Proof.
  intros post render.
  assert (Hall : forall document, document ∈ [post] ->
            Pages.truthy (getProp document "layout") = true /\
            (exists sourcePath, getProp document "sourcePath" = VStr sourcePath) /\
            exists html,
              render (toString (getProp document "layout") +:+ "." +:+ "ect")
                     (Pages.makeContext document [] []) = Return html).
  { intros d Hd. apply list_elem_of_singleton in Hd. subst d.
    split; [reflexivity|]. split; eexists; reflexivity. }
  split; [exact Hall|].
  destruct (generatePages_pages [post] [] [] "ect" render [] Hall)
    as (pages & Hpages & Hall2).
  exists pages. split; [exact Hpages|].
  apply Forall2_length in Hall2. now rewrite <- Hall2.
Defined.

(** ** From a source file to its page *)

(** X24: a document parsed from the file [filepath], whose parsed front
    matter has a layout, is generated (by a renderer that returns) into a
    page whose path is [filepath] without its extension, whatever the front
    matter says of [sourcePath]. *)
Theorem parsePage_generatePage (fastmatter : string -> result (object value * string))
    (source folder filepath : string) (options : Core.parseOptions)
    (attributes parsed : object value) (body : string)
    (config helpers : object value) (templateExtension : string)
    (render : Pages.templateRenderer) (others : object Pages.templateRenderer) :
  fastmatter source = Return (attributes, body) ->
  Core.parseCustomFields attributes (Core.fieldParsers options) = Return parsed ->
  Pages.truthy (getProp parsed "layout") = true ->
  (forall templateFile context, exists html,
     render templateFile context = Return html) ->
  exists doc page,
    Core.parsePage fastmatter source folder filepath options = Return doc /\
    Pages.generatePage doc config helpers
      ((templateExtension, render) :: others) = Return page /\
    Pages.pagePath page = Util.removeExtension filepath.
Proof.
  intros Hfm Hparsed Hlayout Hrender.
  pose proof (parsePage_returns fastmatter source folder filepath options
                attributes parsed body Hfm Hparsed) as Hdoc.
  cbv zeta in Hdoc.
  set (content := Core.renderByType body filepath (Core.renderers options)) in *.
  destruct (cut_scalar content (Core.cutTag options)) as [He Hm].
  destruct (structural_fields parsed filepath content
              (Core.filepathToUrl filepath) _ _ He Hm) as (Hpath & _).
  cbv zeta in Hpath.
  set (doc := Lodash.merge parsed _) in *.
  assert (Hdoclayout : getProp doc "layout" = getProp parsed "layout").
  { unfold getProp, doc, Lodash.merge. cbn [fold_left].
    rewrite baseMerge_other; [reflexivity|].
    cbn [ownKeys map fst]. intros Hin.
    repeat (apply elem_of_cons in Hin as [[=] | Hin]).
    now apply elem_of_nil in Hin. }
  destruct (Hrender (toString (getProp doc "layout") +:+ "." +:+ templateExtension)
              (Pages.makeContext doc config helpers)) as [html Hhtml].
  exists doc, {| Pages.pagePath := Util.removeExtension filepath;
                 Pages.content := html |}.
  split; [exact Hdoc|]. split; [|reflexivity].
  unfold Pages.generatePage. rewrite Hdoclayout, Hlayout. cbn [negb].
  rewrite <- Hdoclayout, Hhtml. cbn [mbind result_bind]. now rewrite Hpath.
Qed.

Lemma parsePage_generatePage_witness :
  let fastmatter := fun source : string =>
    Return ([("layout", VStr "post"); ("sourcePath", VStr "elsewhere.txt")],
            source) in
  let options := {| Core.renderers := []; Core.fieldParsers := [];
                    Core.cutTag := None |} in
  let attributes :=
    [("layout", VStr "post"); ("sourcePath", VStr "elsewhere.txt")] in
  let render : Pages.templateRenderer :=
    fun templateFile context => Return templateFile in
  fastmatter "Body" = Return (attributes, "Body") /\
  Core.parseCustomFields attributes (Core.fieldParsers options)
    = Return attributes /\
  Pages.truthy (getProp attributes "layout") = true /\
  exists doc page,
    Core.parsePage fastmatter "Body" "src" "posts/hello.md" options = Return doc /\
    Pages.generatePage doc [] [] [("ect", render)] = Return page /\
    Pages.pagePath page = "posts/hello".
Proof.
  intros fastmatter options attributes render.
  split; [reflexivity|]. split; [reflexivity|]. split; [reflexivity|].
  exact (parsePage_generatePage fastmatter "Body" "src" "posts/hello.md" options
           attributes attributes "Body" [] [] "ect" render [] eq_refl eq_refl
           eq_refl (fun templateFile context => ex_intro _ templateFile eq_refl)).
Defined.

(** ** Source loading *)

(** X25: when every discovered file can be read and parsed,
    [loadSourceFiles] returns one document per file, in discovery order,
    each with the file's relative path as [sourcePath] (not the path joined
    with the folder) and the URL derived from that path as [url]. *)
Theorem loadSourceFiles_documents
    (globSync : string -> string -> list string)
    (readFile : string -> result string) (pathJoin : string -> string -> string)
    (fastmatter : string -> result (object value * string))
    (folder : string) (types : list string) (options : Core.parseOptions) :
  (forall filepath,
     filepath ∈ Pages.getSourceFilesList globSync folder types ->
     exists source attributes body parsed,
       readFile (pathJoin folder filepath) = Return source /\
       fastmatter source = Return (attributes, body) /\
       Core.parseCustomFields attributes (Core.fieldParsers options)
         = Return parsed) ->
  exists docs,
    Pages.loadSourceFiles globSync readFile pathJoin fastmatter folder types
      options = Return docs /\
    Forall2
      (fun filepath doc =>
         getProp doc "sourcePath" = VStr filepath /\
         getProp doc "url" = VStr (Core.filepathToUrl filepath))
      (Pages.getSourceFilesList globSync folder types) docs.
Proof.
  intros Hall. unfold Pages.loadSourceFiles. apply mapThrowing_Forall2.
  intros f Hf. destruct (Hall f Hf) as (source & attrs & body & parsed
                                         & Hread & Hfm & Hparsed).
  rewrite Hread. cbn [mbind result_bind].
  eexists. split.
  { exact (parsePage_returns fastmatter source folder f options attrs parsed
             body Hfm Hparsed). }
  destruct (cut_scalar (Core.renderByType body f (Core.renderers options))
              (Core.cutTag options)) as [He Hm].
  destruct (structural_fields parsed f
              (Core.renderByType body f (Core.renderers options))
              (Core.filepathToUrl f) _ _ He Hm) as (Hpath & _ & Hurl & _).
  now split.
Qed.

Lemma loadSourceFiles_documents_witness :
  let globSync := fun mask cwd : string => ["index.md"; "posts/hello.md"] in
  let readFile := fun filepath : string => Return ("Text of " +:+ filepath) in
  let pathJoin := fun folder filepath : string => folder +:+ "/" +:+ filepath in
  let fastmatter := fun source : string =>
    Return ([("title", VStr "T")], source) in
  let options := {| Core.renderers := []; Core.fieldParsers := [];
                    Core.cutTag := None |} in
  exists docs,
    Pages.loadSourceFiles globSync readFile pathJoin fastmatter "src" ["md"]
      options = Return docs /\
    length docs = 2%nat.
Proof.
  intros globSync readFile pathJoin fastmatter options.
  destruct (loadSourceFiles_documents globSync readFile pathJoin fastmatter
              "src" ["md"] options) as (docs & Hdocs & Hall).
  { intros f Hf. exists ("Text of " +:+ "src" +:+ "/" +:+ f),
      [("title", VStr "T")], ("Text of " +:+ "src" +:+ "/" +:+ f),
      [("title", VStr "T")].
    repeat split. }
  exists docs. split; [exact Hdocs|].
  apply Forall2_length in Hall. exact (eq_sym Hall).
Defined.

(** X26: if the front matter of a discovered file cannot be split,
    [loadSourceFiles] throws: no list of documents is returned, whatever
    the other files hold. *)
Theorem loadSourceFiles_fails
    (globSync : string -> string -> list string)
    (readFile : string -> result string) (pathJoin : string -> string -> string)
    (fastmatter : string -> result (object value * string))
    (folder : string) (types : list string) (options : Core.parseOptions)
    (filepath source : string) (e : exn) :
  filepath ∈ Pages.getSourceFilesList globSync folder types ->
  readFile (pathJoin folder filepath) = Return source ->
  fastmatter source = Throw e ->
  exists e',
    Pages.loadSourceFiles globSync readFile pathJoin fastmatter folder types
      options = Throw e'.
Proof.
  intros Hin Hread Hfm. unfold Pages.loadSourceFiles.
  apply (mapThrowing_throws _ _ filepath Hin).
  rewrite Hread. cbn [mbind result_bind]. unfold Core.parsePage.
  rewrite Hfm. eauto.
Qed.

Lemma loadSourceFiles_fails_witness :
  let globSync := fun mask cwd : string => ["index.md"; "broken.md"] in
  let readFile := fun filepath : string => Return filepath in
  let pathJoin := fun folder filepath : string => folder +:+ "/" +:+ filepath in
  let fastmatter := fun source : string =>
    if String.eqb source "src/broken.md"
    then Throw (Error "bad front matter")
    else Return ([("title", VStr "T")], source) in
  let options := {| Core.renderers := []; Core.fieldParsers := [];
                    Core.cutTag := None |} in
  ("broken.md" ∈ Pages.getSourceFilesList globSync "src" ["md"]) /\
  exists e',
    Pages.loadSourceFiles globSync readFile pathJoin fastmatter "src" ["md"]
      options = Throw e'.
Proof.
  intros globSync readFile pathJoin fastmatter options.
  assert (Hin : "broken.md" ∈ Pages.getSourceFilesList globSync "src" ["md"])
    by (constructor; constructor).
  split; [exact Hin|].
  exact (loadSourceFiles_fails globSync readFile pathJoin fastmatter "src"
           ["md"] options "broken.md" "src/broken.md"
           (Error "bad front matter") Hin eq_refl eq_refl).
Defined.

(** ** More on URLs and groups *)

(** X27: the URL of a file [name.ext] whose name does not end in [/index]
    and is not [index] is [/name]. *)
Theorem filepathToUrl_plain (name ext : string) :
  Util.isExtension ext = true ->
  (forall before, "/" +:+ name <> before +:+ "/index") ->
  Core.filepathToUrl (name +:+ "." +:+ ext) = "/" +:+ name.
Proof.
  intros Hext Hname. unfold Core.filepathToUrl.
  change (name +:+ "." +:+ ext) with (name +:+ String "." ext).
  rewrite removeExtension_append by assumption.
  rewrite stripSuffix_None by assumption. reflexivity.
Qed.

Lemma filepathToUrl_plain_witness :
  Util.isExtension "md" = true /\
  Core.filepathToUrl ("posts/hello" +:+ "." +:+ "md") = "/" +:+ "posts/hello".
Proof.
  split; [reflexivity|].
  apply (filepathToUrl_plain "posts/hello" "md"); [reflexivity|].
  intros before H. apply (f_equal (stripSuffix "/index")) in H.
  rewrite stripSuffix_append in H. vm_compute in H. discriminate.
Defined.

Lemma filings_without_empty (field : string) (documents : list Core.Document) :
  filings field
    (List.filter
       (fun document =>
          match getProp document field with VArr [] => false | _ => true end)
       documents)
  = filings field documents.
Proof.
  unfold filings. induction documents as [|d documents IH]; [reflexivity|].
  cbn [List.filter flat_map].
  destruct (getProp d field) as [| | | | |items|] eqn:E;
    try (cbn [flat_map]; now rewrite IH).
  destruct items as [|x items]; [|cbn [flat_map]; now rewrite IH].
  rewrite IH. rewrite (groupKeys_array _ _ _ E). reflexivity.
Qed.

Lemma find_offending_without_empty (field : string)
    (documents : list Core.Document) :
  List.find (offending field)
    (List.filter
       (fun document =>
          match getProp document field with VArr [] => false | _ => true end)
       documents)
  = List.find (offending field) documents.
Proof.
  induction documents as [|d documents IH]; [reflexivity|].
  cbn [List.filter List.find].
  destruct (getProp d field) as [| | | | |items|] eqn:E;
    try (cbn [List.find]; now rewrite IH).
  destruct items as [|x items]; [|cbn [List.find]; now rewrite IH].
  unfold offending at 2. now rewrite (groupKeys_array _ _ _ E).
Qed.

(** X28: a document whose grouped field is an empty sequence is filed
    nowhere: [gropDocuments] gives the same result with and without such
    documents. *)
Theorem gropDocuments_skips_empty (documents : list Core.Document)
    (field : string) :
  Core.gropDocuments documents field
    = Core.gropDocuments
        (List.filter
           (fun document =>
              match getProp document field with VArr [] => false | _ => true end)
           documents)
        field.
Proof.
  rewrite (gropDocuments_cases documents field).
  rewrite (gropDocuments_cases (List.filter _ documents) field).
  rewrite find_offending_without_empty.
  now rewrite filings_without_empty.
Qed.
